(** * The in-game event handler of [evennia.contrib.events.scripts]

    A shallow embedding of the global [EventHandler] script, of the
    [TimeEventScript] bookkeeping it performs and of [complete_task],
    followed by the properties of the type registry, the event store,
    the dispatch loop and the task scheduler.

    Conventions of the embedding.
    - Python integers are [Z]; typeclassed objects are identified by
      their database id, so [obj is t_obj] is equality of ids.
    - Dictionaries are [gmap]s, Python lists are [list]s.
    - [datetime] values and durations are integer microseconds, the
      resolution of [datetime] and [timedelta].
    - The collaborators the module only calls ([logger], the [everror]
      channel, [utils.delay], the interpreter behind [exec]) are recorded
      as a list of [effect]s, in the order the calls are made. *)

From Stdlib Require Import ZArith Ascii String.
From stdpp Require Import gmap strings list fin_maps.

Local Open Scope Z_scope.
#[local] Set Warnings "-clear-no-such-hyp".
#[local] Set Warnings "-register-all".

(** ** Python values *)

#[warnings="-register-all"] Inductive pyvalue : Type :=
  | PyNone
  | PyInt (z : Z)
  | PyStr (s : string)
  | PyObject (dbref : Z)
  | PyCallable (name : string)
  | PyDict (d : gmap string pyvalue).

(** Truth value of a string: the empty string is false. *)
Definition str_truthy (s : string) : bool :=
  match s with
  | EmptyString => false
  | String _ _ => true
  end.

(** [l[n]] for a Python list: negative indices count from the end,
    [None] stands for [IndexError]. *)
Definition py_index {A : Type} (l : list A) (n : Z) : option nat :=
  let len := Z.of_nat (length l) in
  if bool_decide (0 <= n < len) then Some (Z.to_nat n)
  else if bool_decide (- len <= n < 0) then Some (Z.to_nat (len + n))
  else None.

(** [l.insert(i, x)] for an index inside the list. *)
Definition py_insert {A : Type} (i : nat) (x : A) (l : list A) : list A :=
  take i l ++ x :: drop i l.

(** [event["number"] != number] for a stored (integer) event number. *)
Definition py_int_ne (n : Z) (v : pyvalue) : bool :=
  match v with
  | PyInt m => negb (n =? m)
  | _ => true
  end.

Definition py_is_none (v : pyvalue) : bool :=
  match v with
  | PyNone => true
  | _ => false
  end.

(** [kwargs.get(key)]: a missing key reads as [None]. *)
Definition kwargs_get (kwargs : gmap string pyvalue) (key : string) : pyvalue :=
  default PyNone (kwargs !! key).

(** ** Typeclasses and event types *)

(** A class with its [__bases__].  Classes form a finite acyclic graph;
    a class reachable along two paths occurs twice, exactly as the
    queue of [get_event_types] holds it twice. *)
#[warnings="-register-all"] Inductive typeclass : Type :=
  | Typeclass (tc_module tc_name : string) (tc_bases : list typeclass).

Definition typeclass_name (tc : typeclass) : string :=
  match tc with
  | Typeclass m n _ => m +:+ "." +:+ n
  end.

Definition bases (tc : typeclass) : list typeclass :=
  match tc with
  | Typeclass _ _ bs => bs
  end.

Fixpoint tc_size (tc : typeclass) : nat :=
  match tc with
  | Typeclass _ _ bs => S (list_sum (map tc_size bs))
  end.

Definition queue_size (classes : list typeclass) : nat :=
  list_sum (map tc_size classes).

(** A stored event: the dictionary [add_event] appends and [edit_event]
    updates. *)
Record event : Type := Event {
  ev_created_on : Z;
  ev_author : option Z;
  ev_valid : bool;
  ev_code : string;
  ev_parameters : string;
  ev_updated : option (Z * option Z)
}.

(** The copy [get_events] hands out, with ["obj"], ["name"] and
    ["number"] added. *)
Record event_def : Type := EventDef {
  ed_event : event;
  ed_obj : Z;
  ed_name : string;
  ed_number : Z
}.

(** An event type: the tuple [(variables, help, custom_add, custom_call)].
    [et_variables = None] is the invalidating declaration. *)
Record etype : Type := EType {
  et_variables : option (list string);
  et_help : string;
  et_custom_add : option string;
  et_custom_call : option (list event_def -> pyvalue -> list event_def)
}.

(** ** Effects on the collaborators *)

Inductive effect : Type :=
  | EExec (obj : Z) (event_name : string) (number : Z) (code : string)
  | ELogInfoDeleting (event_name : string) (number : Z) (obj : Z) (code : string)
  | ELogErrNoEventType (event_name : string) (obj : Z)
  | ELogTraceNeedVariable (event_name : string) (obj : Z) (variable : string) (position : nat)
  | ELogErrEventError (event_name : string) (obj oid number1 : Z) (trace : list string)
  | EChannelMsg (event_name : string) (obj oid number1 : Z)
      (lineno : option Z) (line : string) (evalue : string)
  | ELogErrTaskNotFound (task_id : Z)
  | ELogTraceNoHandler
  | EDelay (seconds : Z) (task_id : Z).

Inductive exn : Type :=
  | TypeError (msg : string)
  | RuntimeError (msg : string)
  | AttributeError (msg : string).

Inductive outcome (A : Type) : Type :=
  | Returned (a : A)
  | Raised (e : exn).
Arguments Returned {A} a.
Arguments Raised {A} e.

(** What the interpreter reports for one [exec(code, locals, locals)]:
    the namespace is mutated in place, so every result carries it. *)
Inductive exec_result : Type :=
  | ExecDone (locals : gmap string pyvalue)
  | ExecInterrupt (locals : gmap string pyvalue)
  | ExecError (locals : gmap string pyvalue) (evalue : string) (trace : list string).

(** ** The handler *)

Record EventHandler : Type := Handler {
  db_events : gmap Z (gmap string (list event));
  db_to_valid : list (Z * string * Z);
  db_locked : list (Z * string * Z);
  db_task_id : Z;
  db_tasks : gmap Z (Z * Z * string * gmap string pyvalue);
  ndb_event_types : gmap string (gmap string etype);
  ndb_current_locals : gmap string pyvalue;
  ndb_fresh_locals : gmap string pyvalue
}.

Definition set_db_events (v : gmap Z (gmap string (list event))) (self : EventHandler) :=
  Handler v (db_to_valid self) (db_locked self) (db_task_id self) (db_tasks self)
    (ndb_event_types self) (ndb_current_locals self) (ndb_fresh_locals self).
Definition set_db_to_valid (v : list (Z * string * Z)) (self : EventHandler) :=
  Handler (db_events self) v (db_locked self) (db_task_id self) (db_tasks self)
    (ndb_event_types self) (ndb_current_locals self) (ndb_fresh_locals self).
Definition set_db_locked (v : list (Z * string * Z)) (self : EventHandler) :=
  Handler (db_events self) (db_to_valid self) v (db_task_id self) (db_tasks self)
    (ndb_event_types self) (ndb_current_locals self) (ndb_fresh_locals self).
Definition set_db_task_id (v : Z) (self : EventHandler) :=
  Handler (db_events self) (db_to_valid self) (db_locked self) v (db_tasks self)
    (ndb_event_types self) (ndb_current_locals self) (ndb_fresh_locals self).
Definition set_db_tasks (v : gmap Z (Z * Z * string * gmap string pyvalue))
    (self : EventHandler) :=
  Handler (db_events self) (db_to_valid self) (db_locked self) (db_task_id self) v
    (ndb_event_types self) (ndb_current_locals self) (ndb_fresh_locals self).
Definition set_ndb_current_locals (v : gmap string pyvalue) (self : EventHandler) :=
  Handler (db_events self) (db_to_valid self) (db_locked self) (db_task_id self)
    (db_tasks self) (ndb_event_types self) v (ndb_fresh_locals self).

(** [at_script_creation]. *)
Definition at_script_creation : EventHandler :=
  Handler ∅ [] [] 0 ∅ ∅ ∅ ∅.

(** A script attached to an object, as [del_event] looks at it. *)
Record Script : Type := MkScript {
  sc_obj : Z;
  sc_is_time_event : bool;
  sc_event_name : string;
  sc_number : option Z;
  sc_stopped : bool
}.

(** ** [get_events] *)

Definition number_events (obj : Z) (event_name : string) (event_list : list event)
    : list event_def :=
  imap (fun i ev => EventDef ev obj event_name (Z.of_nat i)) event_list.

Definition get_events (self : EventHandler) (obj : Z) : gmap string (list event_def) :=
  let obj_events := default ∅ (db_events self !! obj) in
  map_imap (fun event_name event_list =>
              match number_events obj event_name event_list with
              | [] => None
              | new_list => Some new_list
              end) obj_events.

(** ** [get_event_types] *)

(** The body of the inner [for key, etype in ... .items()] loop. *)
Definition scan_declaration (acc : gmap string etype * list string)
    (item : string * etype) : gmap string etype * list string :=
  let '(types, invalid) := acc in
  let '(key, et) := item in
  if bool_decide (key ∈ invalid) then (types, invalid)
  else match et_variables et with
       | None => (types, invalid ++ [key])
       | Some _ =>
           match types !! key with
           | None => (<[key := et]> types, invalid)
           | Some _ => (types, invalid)
           end
       end.

Definition declarations (event_types : gmap string (gmap string etype))
    (tc : typeclass) : gmap string etype :=
  default ∅ (event_types !! typeclass_name tc).

Definition scan_typeclass (event_types : gmap string (gmap string etype))
    (acc : gmap string etype * list string) (tc : typeclass)
    : gmap string etype * list string :=
  foldl scan_declaration acc (map_to_list (declarations event_types tc)).

(** The [while not classes.empty()] loop; [None] when the fuel runs out. *)
Fixpoint walk_classes (fuel : nat) (event_types : gmap string (gmap string etype))
    (classes : list typeclass) (acc : gmap string etype * list string)
    : option (gmap string etype) :=
  match classes with
  | [] => Some (fst acc)
  | tc :: rest =>
      match fuel with
      | O => None
      | S fuel' =>
          walk_classes fuel' event_types (rest ++ bases tc)
            (scan_typeclass event_types acc tc)
      end
  end.

Section Handler.

(** [type(obj)] for every object. *)
Variable type_of : Z -> typeclass.

(** The interpreter behind [exec]. *)
Variable exec_code : string -> gmap string pyvalue -> exec_result.

(** Modelled from the spec: [evennia.utils.dbserialize.dbserialize] is
    not part of this module; it is the "is this value storable" predicate
    of the persistence substrate.  [None] stands for the [TypeError]
    [set_task] catches, [Some] for the encoded value. *)
Variable dbserialize : pyvalue -> option string.

Definition get_event_types (self : EventHandler) (obj : Z) : gmap string etype :=
  match walk_classes (tc_size (type_of obj)) (ndb_event_types self)
          [type_of obj] (∅, []) with
  | Some types => types
  | None => ∅
  end.


(** ** [del_event] *)

(** The [while i < len(self.db.to_valid)] loop; [None] when the fuel
    runs out. *)
Fixpoint renumber_to_valid (fuel : nat) (obj : Z) (event_name : string) (number : Z)
    (i : Z) (to_valid : list (Z * string * Z)) : option (list (Z * string * Z)) :=
  if bool_decide (i < Z.of_nat (length to_valid)) then
    match fuel with
    | O => None
    | S fuel' =>
        match to_valid !! Z.to_nat i with
        | None => None
        | Some (t_obj, t_event_name, t_number) =>
            if bool_decide (obj = t_obj) && bool_decide (event_name = t_event_name) then
              if bool_decide (t_number = number) then
                let to_valid := delete (Z.to_nat i) to_valid in
                let i := i - 1 in
                renumber_to_valid fuel' obj event_name number (i + 1) to_valid
              else if bool_decide (t_number > number) then
                let to_valid :=
                  py_insert (Z.to_nat i) (t_obj, t_event_name, t_number - 1) to_valid in
                let to_valid := delete (Z.to_nat (i + 1)) to_valid in
                renumber_to_valid fuel' obj event_name number (i + 1) to_valid
              else renumber_to_valid fuel' obj event_name number (i + 1) to_valid
            else renumber_to_valid fuel' obj event_name number (i + 1) to_valid
        end
    end
  else Some to_valid.

(** The [for i, line in enumerate(self.db.locked)] loop: [lines] is what
    is left to enumerate, [locked] the list being assigned to. *)
Fixpoint renumber_locked (obj : Z) (event_name : string) (number : Z)
    (i : nat) (lines : list (Z * string * Z)) (locked : list (Z * string * Z))
    : list (Z * string * Z) :=
  match lines with
  | [] => locked
  | (t_obj, t_event_name, t_number) :: lines' =>
      let locked :=
        if bool_decide (obj = t_obj) && bool_decide (event_name = t_event_name)
           && bool_decide (number < t_number)
        then <[i := (t_obj, t_event_name, t_number - 1)]> locked
        else locked in
      renumber_locked obj event_name number (S i) lines' locked
  end.

(** The body of [for script in list(obj.scripts.all())], applied to one
    script of the store: [obj.scripts.all()] holds the scripts attached
    to [obj] that have not been stopped. *)
Definition update_script (obj : Z) (event_name : string) (number : Z) (script : Script)
    : Script :=
  if bool_decide (sc_obj script = obj) && negb (sc_stopped script) then
    if sc_is_time_event script then
      if bool_decide (sc_obj script = obj)
         && bool_decide (sc_event_name script = event_name) then
        match sc_number script with
        | Some n =>
            if bool_decide (n = number) then
              MkScript (sc_obj script) (sc_is_time_event script)
                (sc_event_name script) (sc_number script) true
            else if bool_decide (n > number) then
              MkScript (sc_obj script) (sc_is_time_event script)
                (sc_event_name script) (Some (n - 1)) (sc_stopped script)
            else script
        | None => script
        end
      else script
    else script
  else script.

Definition del_event (self : EventHandler) (obj : Z) (event_name : string) (number : Z)
    (scripts : list Script)
    : outcome unit * EventHandler * list Script * list effect :=
  let obj_events := default ∅ (db_events self !! obj) in
  let events := default [] (obj_events !! event_name) in
  if bool_decide ((obj, event_name, number) ∈ db_locked self) then
    (Raised (RuntimeError "this event is locked."), self, scripts, [])
  else
    match py_index events number with
    | None => (Returned (), self, scripts, [])
    | Some k =>
        match events !! k with
        | None => (Returned (), self, scripts, [])
        | Some ev =>
            let log := ELogInfoDeleting event_name number obj (ev_code ev) in
            let events := delete k events in
            let self :=
              set_db_events
                (<[obj := <[event_name := events]> obj_events]> (db_events self)) self in
            match renumber_to_valid (length (db_to_valid self)) obj event_name number 0
                    (db_to_valid self) with
            | None => (Returned (), self, scripts, [log])
            | Some to_valid =>
                let self := set_db_to_valid to_valid self in
                let self :=
                  set_db_locked
                    (renumber_locked obj event_name number 0%nat (db_locked self)
                       (db_locked self)) self in
                (Returned (), self, map (update_script obj event_name number) scripts,
                 [log])
            end
        end
    end.

(** ** [call_event] *)

Definition allowed : list string := ["number"; "parameters"; "locals"].

(** [any(k for k in kwargs if k not in allowed)]. *)
Definition unknown_keyword (kwargs : gmap string pyvalue) : bool :=
  existsb str_truthy
    (filter (fun k => k ∉ allowed) (map fst (map_to_list kwargs))).

(** The [for i, variable in enumerate(event_type[0])] loop: the bound
    namespace, or the variable and position that [args] does not reach. *)
Fixpoint bind_variables (i : nat) (variables : list string) (args : list pyvalue)
    (locals : gmap string pyvalue) : (string * nat) + gmap string pyvalue :=
  match variables with
  | [] => inr locals
  | variable :: variables' =>
      match args !! i with
      | None => inl (variable, i)
      | Some value => bind_variables (S i) variables' args (<[variable := value]> locals)
      end
  end.

Definition dquote : string := String (ascii_of_nat 34) EmptyString.

Definition file_string_line : string :=
  "  File " +:+ dquote +:+ "<string>" +:+ dquote +:+ ", line ".

Definition is_digit (c : ascii) : bool :=
  let n := nat_of_ascii c in (48 <=? n)%nat && (n <=? 57)%nat.

Fixpoint leading_digits (s : string) : list ascii :=
  match s with
  | String c s' => if is_digit c then c :: leading_digits s' else []
  | EmptyString => []
  end.

(** [int(digits)]. *)
Definition int_of_digits (ds : list ascii) : Z :=
  foldl (fun acc c => 10 * acc + (Z.of_nat (nat_of_ascii c) - 48)) 0 ds.

Fixpoint string_drop (n : nat) (s : string) : string :=
  match n, s with
  | O, _ => s
  | S n', String _ s' => string_drop n' s'
  | S _, EmptyString => EmptyString
  end.

(** [RE_LINE_ERROR.search(error)] and [int(res.group(1))]. *)
Definition RE_LINE_ERROR (error : string) : option Z :=
  if String.prefix file_string_line error then
    match leading_digits (string_drop (String.length file_string_line) error) with
    | [] => None
    | ds => Some (int_of_digits ds)
    end
  else None.

Definition LF : ascii := ascii_of_nat 10.
Definition CR : ascii := ascii_of_nat 13.

(** [str.splitlines()], breaking at LF, CR and CR LF. *)
Fixpoint splitlines_from (cur : string) (s : string) : list string :=
  match s with
  | EmptyString =>
      match cur with
      | EmptyString => []
      | _ => [cur]
      end
  | String c s' =>
      if bool_decide (c = LF) then cur :: splitlines_from EmptyString s'
      else if bool_decide (c = CR) then
        match s' with
        | String c2 s'' =>
            if bool_decide (c2 = LF) then cur :: splitlines_from EmptyString s''
            else cur :: splitlines_from EmptyString s'
        | EmptyString => [cur]
        end
      else splitlines_from (cur +:+ String c EmptyString) s'
  end.

Definition splitlines (s : string) : list string := splitlines_from EmptyString s.

Definition unknown : string := "|runknown|n".

(** The [for error in trace] loop: the line number and source line for
    the channel message. *)
Fixpoint locate_error (code : string) (trace : list string)
    (lineno : option Z) (line : string) : option Z * string :=
  match trace with
  | [] => (lineno, line)
  | error :: trace' =>
      if String.prefix file_string_line error then
        match RE_LINE_ERROR error with
        | Some n =>
            let lines := splitlines code in
            match py_index lines (n - 1) with
            | Some k =>
                match lines !! k with
                | Some found => (Some n, found)
                | None => locate_error code trace' (Some n) line
                end
            | None => locate_error code trace' (Some n) line
            end
        | None => locate_error code trace' lineno line
        end
      else locate_error code trace' lineno line
  end.

(** The [for i, event in enumerate(events)] loop.  [number] is the
    local variable of that name, [locals] the shared namespace. *)
Fixpoint run_events (obj : Z) (event_name : string) (events : list event_def)
    (number : pyvalue) (locals : gmap string pyvalue)
    : bool * gmap string pyvalue * list effect :=
  match events with
  | [] => (true, locals, [])
  | event :: events' =>
      if negb (ev_valid (ed_event event)) then
        run_events obj event_name events' number locals
      else if negb (py_is_none number) && py_int_ne (ed_number event) number then
        run_events obj event_name events' number locals
      else
        let code := ev_code (ed_event event) in
        let ran := EExec obj event_name (ed_number event) code in
        match exec_code code locals with
        | ExecDone locals =>
            let '(completed, locals, effects) :=
              run_events obj event_name events' number locals in
            (completed, locals, ran :: effects)
        | ExecInterrupt locals => (false, locals, [ran])
        | ExecError locals evalue trace =>
            let number := ed_number event in
            let oid := obj in
            let logged := ELogErrEventError event_name obj oid (number + 1) trace in
            let '(lineno, line) := locate_error code trace None unknown in
            let msg := EChannelMsg event_name obj oid (number + 1) lineno line evalue in
            let '(completed, locals, effects) :=
              run_events obj event_name events' (PyInt number) locals in
            (completed, locals, ran :: logged :: msg :: effects)
        end
  end.

(** The loop variables [number] and [locals] once the loop has gone
    through [events], with the effects so far; [None] if one of the
    events interrupted the loop. *)
Fixpoint loop_state (obj : Z) (event_name : string) (events : list event_def)
    (number : pyvalue) (locals : gmap string pyvalue)
    : option (pyvalue * gmap string pyvalue * list effect) :=
  match events with
  | [] => Some (number, locals, [])
  | event :: events' =>
      if negb (ev_valid (ed_event event)) then
        loop_state obj event_name events' number locals
      else if negb (py_is_none number) && py_int_ne (ed_number event) number then
        loop_state obj event_name events' number locals
      else
        let code := ev_code (ed_event event) in
        let ran := EExec obj event_name (ed_number event) code in
        match exec_code code locals with
        | ExecDone locals =>
            match loop_state obj event_name events' number locals with
            | Some (number, locals, effects) => Some (number, locals, ran :: effects)
            | None => None
            end
        | ExecInterrupt _ => None
        | ExecError locals evalue trace =>
            let number := ed_number event in
            let logged := ELogErrEventError event_name obj obj (number + 1) trace in
            let '(lineno, line) := locate_error code trace None unknown in
            let msg := EChannelMsg event_name obj obj (number + 1) lineno line evalue in
            match loop_state obj event_name events' (PyInt number) locals with
            | Some (number, locals, effects) =>
                Some (number, locals, ran :: logged :: msg :: effects)
            | None => None
            end
        end
  end.

(** The events [call_event] iterates over: those of [get_events],
    passed through the [custom_call] of the event type if there is one. *)
Definition events_to_call (self : EventHandler) (obj : Z) (event_name : string)
    (event_type : option etype) (parameters : pyvalue) : list event_def :=
  let events := default [] (get_events self obj !! event_name) in
  match event_type with
  | Some (EType _ _ _ (Some custom_call)) => custom_call events parameters
  | _ => events
  end.

(** [call_event] up to the loop: either the call is over (an exception
    or [return False], with what was logged), or the loop starts on
    [(events, number, locals)]. *)
Definition call_event_prepare (self : EventHandler) (obj : Z) (event_name : string)
    (args : list pyvalue) (kwargs : gmap string pyvalue)
    : outcome bool * list effect + list event_def * pyvalue * gmap string pyvalue :=
  let number := kwargs_get kwargs "number" in
  let parameters := kwargs_get kwargs "parameters" in
  let locals := kwargs_get kwargs "locals" in
  if unknown_keyword kwargs then
    inl (Raised (TypeError "Unknown keyword arguments were specified to call events"),
         [])
  else
    let event_type := get_event_types self obj !! event_name in
    if py_is_none locals && bool_decide (event_type = None :> option etype) then
      inl (Returned false, [ELogErrNoEventType event_name obj])
    else
      let prepared : outcome bool * list effect + gmap string pyvalue :=
        match locals with
        | PyNone =>
            match event_type with
            | Some (EType (Some variables) _ _ _) =>
                match bind_variables 0 variables args (ndb_fresh_locals self) with
                | inl (variable, i) =>
                    inl (Returned false,
                         [ELogTraceNeedVariable event_name obj variable i])
                | inr locals => inr locals
                end
            | _ => inl (Raised (TypeError "object is not iterable"), [])
            end
        | PyDict d => inr d
        | _ => inl (Raised (AttributeError "object has no attribute items"), [])
        end in
      match prepared with
      | inl early => inl early
      | inr locals =>
          inr (events_to_call self obj event_name event_type parameters, number, locals)
      end.

Definition call_event (self : EventHandler) (obj : Z) (event_name : string)
    (args : list pyvalue) (kwargs : gmap string pyvalue)
    : outcome bool * EventHandler * list effect :=
  match call_event_prepare self obj event_name args kwargs with
  | inl (result, effects) => (result, self, effects)
  | inr (events, number, locals) =>
      let '(completed, locals, effects) :=
        run_events obj event_name events number locals in
      (Returned completed, set_ndb_current_locals locals self, effects)
  end.

(** ** [set_task], [at_start] and [complete_task] *)

(** The [for key, value in self.ndb.current_locals.items()] loop. *)
Definition freeze_locals (current_locals : gmap string pyvalue) : gmap string pyvalue :=
  foldl (fun locals '(key, value) =>
           match dbserialize value with
           | None => locals
           | Some _ => <[key := value]> locals
           end) ∅ (map_to_list current_locals).

(** [set_task] up to [delay]: the handler with the task stored, and
    the id given to the task. *)
Definition store_task (self : EventHandler) (now : Z) (seconds : Z) (obj : Z)
    (event_name : string) : EventHandler * Z :=
  let delta := seconds in
  let task_id := db_task_id self in
  let self := set_db_task_id (db_task_id self + 1) self in
  let locals := freeze_locals (ndb_current_locals self) in
  let self :=
    set_db_tasks (<[task_id := (now + delta, obj, event_name, locals)]> (db_tasks self))
      self in
  (self, task_id).

Definition set_task (self : EventHandler) (now : Z) (seconds : Z) (obj : Z)
    (event_name : string) : EventHandler * list effect :=
  let '(self, task_id) := store_task self now seconds obj event_name in
  (self, [EDelay seconds task_id]).

(** The task loop of [at_start]. *)
Definition restart_tasks (self : EventHandler) (now : Z) : list effect :=
  map (fun '(task_id, definition) =>
         let '(future, obj, event_name, locals) := definition in
         let seconds := future - now in
         let seconds := if bool_decide (seconds < 0) then 0 else seconds in
         EDelay seconds task_id)
      (map_to_list (db_tasks self)).

(** [at_start]: [connected] is what [connect_event_types()] registers,
    [helpers] what [all_from_module] returns for each address. *)
Definition at_start (self : EventHandler) (now : Z)
    (connected : gmap string (gmap string etype))
    (helpers : list (gmap string pyvalue)) : EventHandler * list effect :=
  let fresh_locals := foldl (fun fresh module => module ∪ fresh) ∅ helpers in
  let self :=
    Handler (db_events self) (db_to_valid self) (db_locked self) (db_task_id self)
      (db_tasks self) connected ∅ fresh_locals in
  (self, restart_tasks self now).

(** [complete_task]: [script] is the result of looking the handler up
    by its key, [None] for [ScriptDB.DoesNotExist]. *)
Definition complete_task (script : option EventHandler) (task_id : Z)
    : option EventHandler * list effect :=
  match script with
  | None => (None, [ELogTraceNoHandler])
  | Some script =>
      match db_tasks script !! task_id with
      | None => (Some script, [ELogErrTaskNotFound task_id])
      | Some (delta, obj, event_name, locals) =>
          let script := set_db_tasks (delete task_id (db_tasks script)) script in
          let '(_, script, effects) :=
            call_event script obj event_name [] {[ "locals" := PyDict locals ]} in
          (Some script, effects)
      end
  end.

End Handler.

(** * Reference orders for the type registry *)

(** The order in which the queue yields the classes. *)
Fixpoint visit_order (fuel : nat) (classes : list typeclass) : list typeclass :=
  match classes, fuel with
  | tc :: rest, S fuel' => tc :: visit_order fuel' (rest ++ bases tc)
  | _, _ => []
  end.

(** Breadth-first order, level by level: the classes of [front], then
    their parents, then the parents of those. *)
Fixpoint breadth_first (depth : nat) (front : list typeclass) : list typeclass :=
  match depth with
  | O => []
  | S depth' => front ++ breadth_first depth' (flat_map bases front)
  end.

(** The declaration of [key] met first along [classes]. *)
Fixpoint first_declaration (event_types : gmap string (gmap string etype))
    (classes : list typeclass) (key : string) : option etype :=
  match classes with
  | [] => None
  | tc :: rest =>
      match declarations event_types tc !! key with
      | Some d => Some d
      | None => first_declaration event_types rest key
      end
  end.

(** A declaration is adopted unless it is the invalidating one. *)
Definition adopted (d : option etype) : option etype :=
  match d with
  | Some e => match et_variables e with Some _ => Some e | None => None end
  | None => None
  end.

(** * The event store after a deletion, entry by entry *)

(** The fragments stored for an object under an event name. *)
Definition events_of (self : EventHandler) (obj : Z) (event_name : string) : list event :=
  default [] (default ∅ (db_events self !! obj) !! event_name).

(** What becomes of one entry of the validation queue when fragment
    [number] of [(obj, event_name)] goes: the entry of that fragment is
    dropped, an entry of a later fragment moves down by one, every other
    entry stays. *)
Definition renumber_entry (obj : Z) (event_name : string) (number : Z)
    (entry : Z * string * Z) : list (Z * string * Z) :=
  let '(t_obj, t_event_name, t_number) := entry in
  if bool_decide (t_obj = obj /\ t_event_name = event_name) then
    if bool_decide (t_number = number) then []
    else if bool_decide (number < t_number) then [(t_obj, t_event_name, t_number - 1)]
    else [entry]
  else [entry].

(** The same for an entry of the lock set: later fragments move down. *)
Definition relock_entry (obj : Z) (event_name : string) (number : Z)
    (entry : Z * string * Z) : Z * string * Z :=
  let '(t_obj, t_event_name, t_number) := entry in
  if bool_decide (t_obj = obj /\ t_event_name = event_name /\ number < t_number)
  then (t_obj, t_event_name, t_number - 1)
  else entry.

(** A live [TimeEventScript] of [obj] bound to [event_name]. *)
Definition bound_to (obj : Z) (event_name : string) (script : Script) : Prop :=
  sc_obj script = obj /\ sc_stopped script = false /\
  sc_is_time_event script = true /\ sc_event_name script = event_name.

(** * The dispatch loop, seen from outside *)

(** An event the loop executes when its [number] variable holds
    [number]: it is valid, and [number] is [None] or the event's own. *)
Definition selected (event : event_def) (number : pyvalue) : bool :=
  ev_valid (ed_event event)
  && (py_is_none number || negb (py_int_ne (ed_number event) number)).

(** The events the interpreter was given, in order. *)
Definition executed (effects : list effect) : list (Z * string * Z * string) :=
  flat_map (fun e => match e with
                     | EExec obj event_name number code => [(obj, event_name, number, code)]
                     | _ => []
                     end) effects.

(** The messages sent to the error channel, in order: event name,
    object and 1-based fragment number of each. *)
Definition channel_messages (effects : list effect) : list (string * Z * Z) :=
  flat_map (fun e => match e with
                     | EChannelMsg event_name obj _ number1 _ _ _ =>
                         [(event_name, obj, number1)]
                     | _ => []
                     end) effects.

(** The delays of the timers armed for [task_id], in order. *)
Definition timers_for (task_id : Z) (effects : list effect) : list Z :=
  flat_map (fun e => match e with
                     | EDelay seconds i => if bool_decide (i = task_id) then [seconds] else []
                     | _ => []
                     end) effects.

(** Every stored task has an id below the counter. *)
Definition tasks_below_counter (self : EventHandler) : Prop :=
  forall task_id, is_Some (db_tasks self !! task_id) -> task_id < db_task_id self.

(** A number of seconds, in microseconds. *)
Definition seconds_us (n : Z) : Z := n * 1000000.

(** * Concrete data for the examples *)

(** ** A small class hierarchy: [B] and [C] derive from [A] *)

Definition ex_object : typeclass := Typeclass "__builtin__" "object" [].
Definition ex_A : typeclass := Typeclass "world.rooms" "A" [ex_object].
Definition ex_B : typeclass := Typeclass "world.rooms" "B" [ex_A].
Definition ex_C : typeclass := Typeclass "world.rooms" "C" [ex_A].

(** Object 1 is an [A], object 2 a [B], every other object a [C]. *)
Definition ex_type_of (obj : Z) : typeclass :=
  if bool_decide (obj = 1) then ex_A
  else if bool_decide (obj = 2) then ex_B
  else ex_C.

Definition ex_foo : etype := EType (Some ["character"; "room"]) "A visitor arrives." None None.
Definition ex_invalidate : etype := EType None EmptyString None None.

(** [A] declares ["foo"], [B] invalidates it. *)
Definition ex_event_types : gmap string (gmap string etype) :=
  {[ "world.rooms.A" := {[ "foo" := ex_foo ]};
     "world.rooms.B" := {[ "foo" := ex_invalidate ]} ]}.

Definition ex_handler : EventHandler :=
  Handler ∅ [] [] 0 ∅ ex_event_types ∅ ∅.

(** ** An event store: three fragments of ["say"] on object 7 *)

Definition ex_event (code : string) : event := Event 0 None true code EmptyString None.

Definition ex_store : EventHandler :=
  Handler {[ 7 := {[ "say" := [ex_event "a = 1"; ex_event "b = 2"; ex_event "c = 3"] ]} ]}
    [(7, "say", 1); (7, "say", 2); (8, "say", 2); (7, "get", 2)]
    [(7, "say", 2); (7, "say", 0); (7, "say", 5)]
    0 ∅ ex_event_types ∅ ∅.

Definition ex_scripts : list Script :=
  [ MkScript 7 true "say" (Some 1) false;
    MkScript 7 true "say" (Some 2) false;
    MkScript 8 true "say" (Some 2) false;
    MkScript 7 false "say" (Some 2) false ].

(** ** A dispatch: fragments of ["foo"] on object 3, a [C] *)

(** A stand-in for the interpreter: [raise InterruptEvent()] interrupts,
    any other [raise] is an error on line 1, everything else completes
    and leaves its own text in the namespace. *)
Definition ex_exec (code : string) (locals : gmap string pyvalue) : exec_result :=
  if bool_decide (code = "raise InterruptEvent()") then ExecInterrupt locals
  else if String.prefix "raise " code then
    ExecError locals "ValueError()"
      [ "Traceback (most recent call last):";
        file_string_line +:+ "1, in <module>";
        "ValueError" ]
  else ExecDone (<["ran" := PyStr code]> locals).

(** A stand-in for [dbserialize]: callables cannot be stored. *)
Definition ex_dbserialize (value : pyvalue) : option string :=
  match value with
  | PyCallable _ => None
  | _ => Some "pickled"
  end.

Definition ex_dispatch (codes : list string) : EventHandler :=
  Handler {[ 3 := {[ "foo" := ex_event <$> codes ]} ]} [] [] 0 ∅ ex_event_types ∅
    {[ "helper" := PyCallable "helper" ]}.

Definition ex_fault : EventHandler :=
  ex_dispatch ["x = 1"; "raise ValueError()"; "y = 2"].

Definition ex_interrupt : EventHandler :=
  ex_dispatch ["x = 1"; "raise InterruptEvent()"; "y = 2"].

(** The namespace of a call of ["foo"] with objects 9 and 4. *)
Definition ex_bound_locals : gmap string pyvalue :=
  <["room" := PyObject 4]>
    (<["character" := PyObject 9]> {[ "helper" := PyCallable "helper" ]}).

Definition ex_numbered (number : Z) (code : string) : event_def :=
  EventDef (ex_event code) 3 "foo" number.

(** * The rest of the event store and the time script *)

(** ** [get_variable] *)

Definition get_variable (self : EventHandler) (variable_name : string) : pyvalue :=
  default PyNone (ndb_current_locals self !! variable_name).

(** ** [add_event], [edit_event], [accept_event] *)

(** What [edit_event] and [accept_event] can raise: the [RuntimeError]
    of a locked event, or the [IndexError] of [events[number]]. *)
Inductive store_error : Type :=
  | StoreRuntimeError (msg : string)
  | StoreIndexError.

Inductive store_outcome (A : Type) : Type :=
  | StoreReturned (a : A)
  | StoreRaised (e : store_error).
Arguments StoreReturned {A} a.
Arguments StoreRaised {A} e.

(** [l.remove(x)]: the first occurrence goes. *)
Fixpoint list_remove_first (x : Z * string * Z) (l : list (Z * string * Z))
    : list (Z * string * Z) :=
  match l with
  | [] => []
  | y :: l' => if bool_decide (y = x) then l' else y :: list_remove_first x l'
  end.

(** The opening lines of [add_event] and [edit_event]: an object without
    events gets an empty dictionary, an event name without events an
    empty list.  The result is the dictionary of all events and the
    dictionary of the object. *)
Definition open_events (self : EventHandler) (obj : Z) (event_name : string)
    : gmap Z (gmap string (list event)) * gmap string (list event) * list event :=
  let all_events := db_events self in
  let obj_events := default ∅ (all_events !! obj) in
  let '(all_events, obj_events) :=
    if bool_decide (size obj_events = 0%nat)
    then (<[obj := ∅]> all_events, (∅ : gmap string (list event)))
    else (all_events, obj_events) in
  let events := default [] (obj_events !! event_name) in
  match events with
  | [] =>
      let obj_events := <[event_name := []]> obj_events in
      (<[obj := obj_events]> all_events, obj_events, [])
  | _ => (all_events, obj_events, events)
  end.

(** [add_event]: the definition returned, the handler, and the call of
    the [custom_add] of the event type if it has one (the hook with its
    arguments). *)
Definition add_event (type_of : Z -> typeclass) (self : EventHandler) (now : Z) (obj : Z)
    (event_name : string) (code : string) (author : option Z) (valid : bool)
    (parameters : string)
    : event_def * EventHandler * list (string * (Z * string * Z * string)) :=
  let '(all_events, obj_events, events) := open_events self obj event_name in
  let events := events ++ [Event now author valid code parameters None] in
  let self := set_db_events (<[obj := <[event_name := events]> obj_events]> all_events) self in
  let number := Z.of_nat (length events) - 1 in
  let self :=
    if negb valid
    then set_db_to_valid (db_to_valid self ++ [(obj, event_name, number)]) self
    else self in
  let calls :=
    match get_event_types type_of self obj !! event_name with
    | Some (EType _ _ (Some custom_add) _) =>
        [(custom_add, (obj, event_name, number, parameters))]
    | _ => []
    end in
  (EventDef (Event now author valid code parameters None) obj event_name number,
   self, calls).

(** [events[number].update({...})] of [edit_event]. *)
Definition edited (ev : event) (now : Z) (code : string) (author : option Z)
    (valid : bool) : event :=
  Event (ev_created_on ev) (ev_author ev) valid code (ev_parameters ev)
    (Some (now, author)).

Definition edit_event (self : EventHandler) (now : Z) (obj : Z) (event_name : string)
    (number : Z) (code : string) (author : option Z) (valid : bool)
    : store_outcome event_def * EventHandler :=
  let '(all_events, obj_events, events) := open_events self obj event_name in
  let self := set_db_events all_events self in
  if bool_decide ((obj, event_name, number) ∈ db_locked self) then
    (StoreRaised (StoreRuntimeError "this event is locked."), self)
  else
    match py_index events number with
    | None => (StoreRaised StoreIndexError, self)
    | Some k =>
        match events !! k with
        | None => (StoreRaised StoreIndexError, self)
        | Some ev =>
            let ev := edited ev now code author valid in
            let events := <[k := ev]> events in
            let self :=
              set_db_events (<[obj := <[event_name := events]> obj_events]> all_events)
                self in
            let self :=
              if negb valid
                 && negb (bool_decide ((obj, event_name, number) ∈ db_to_valid self))
              then set_db_to_valid (db_to_valid self ++ [(obj, event_name, number)]) self
              else if valid && bool_decide ((obj, event_name, number) ∈ db_to_valid self)
              then set_db_to_valid
                     (list_remove_first (obj, event_name, number) (db_to_valid self)) self
              else self in
            (StoreReturned (EventDef ev obj event_name number), self)
        end
    end.

(** [events[number].update({"valid": True})] of [accept_event]. *)
Definition accepted (ev : event) : event :=
  Event (ev_created_on ev) (ev_author ev) true (ev_code ev) (ev_parameters ev)
    (ev_updated ev).

Definition accept_event (self : EventHandler) (obj : Z) (event_name : string)
    (number : Z) : store_outcome unit * EventHandler :=
  let obj_events := default ∅ (db_events self !! obj) in
  let events := default [] (obj_events !! event_name) in
  match py_index events number with
  | None => (StoreRaised StoreIndexError, self)
  | Some k =>
      match events !! k with
      | None => (StoreRaised StoreIndexError, self)
      | Some ev =>
          let events := <[k := accepted ev]> events in
          let self :=
            set_db_events
              (<[obj := <[event_name := events]> obj_events]> (db_events self)) self in
          let self :=
            if bool_decide ((obj, event_name, number) ∈ db_to_valid self)
            then set_db_to_valid
                   (list_remove_first (obj, event_name, number) (db_to_valid self)) self
            else self in
          (StoreReturned (), self)
      end
  end.

(** ** [TimeEventScript] *)

(** The attributes [at_repeat] reads and writes: [interval],
    [db.time_format], [db.event_name], [db.number] and [ndb.usual]. *)
Record TimeEventScript : Type := MkTimeEventScript {
  ts_interval : Z;
  ts_time_format : option string;
  ts_event_name : option string;
  ts_number : option Z;
  ts_usual : option Z
}.

(** [TimeEventScript.at_script_creation], for a script created with
    [interval]. *)
Definition time_script_creation (interval : Z) : TimeEventScript :=
  MkTimeEventScript interval None (Some "time") None None.

Definition opt_str_truthy (s : option string) : bool :=
  match s with
  | Some s => str_truthy s
  | None => false
  end.

(** [at_repeat].  [get_next_wait] is the function of that name of
    [evennia.contrib.events.custom]; [obj_events] tells whether
    [self.obj.events] is true.  The result is the script, whether it
    restarted itself, and the event name and number it asks
    [obj.events.call] for, if it does.

    Modelled from the spec: [DefaultScript.restart] is not part of this
    module; [restart(interval=seconds)] restarts the script with the new
    interval and leaves its other attributes as they are. *)
Definition at_repeat (get_next_wait : string -> Z * Z * string) (obj_events : bool)
    (self : TimeEventScript) : TimeEventScript * bool * option (string * Z) :=
  let '(self, restarted) :=
    match ts_time_format self with
    | Some time_format =>
        if str_truthy time_format then
          let '(self, seconds) :=
            match ts_usual self with
            | Some seconds => (self, seconds)
            | None =>
                let '(seconds, usual, details) := get_next_wait time_format in
                (MkTimeEventScript (ts_interval self) (ts_time_format self)
                   (ts_event_name self) (ts_number self) (Some usual), seconds)
            end in
          if bool_decide (ts_interval self <> seconds)
          then (MkTimeEventScript seconds (ts_time_format self) (ts_event_name self)
                  (ts_number self) (ts_usual self), true)
          else (self, false)
        else (self, false)
    | None => (self, false)
    end in
  let call :=
    match ts_event_name self, ts_number self with
    | Some event_name, Some number =>
        if str_truthy event_name && obj_events then Some (event_name, number) else None
    | _, _ => None
    end in
  (self, restarted, call).

(** * The store seen as a whole *)

(** The fragments a dictionary of events holds for an object under an
    event name. *)
Definition fragments (all_events : gmap Z (gmap string (list event))) (obj : Z)
    (event_name : string) : list event :=
  default [] (default ∅ (all_events !! obj) !! event_name).

(** The validation queue holds, once each, the fragments that are not
    valid. *)
Definition queue_tracks_invalid (self : EventHandler) : Prop :=
  NoDup (db_to_valid self)
  /\ forall o n j,
       (o, n, j) ∈ db_to_valid self <->
       0 <= j /\ exists ev, events_of self o n !! Z.to_nat j = Some ev
                            /\ ev_valid ev = false.


Definition as_executed (obj : Z) (event_name : string) (e : event_def)
    : Z * string * Z * string :=
  (obj, event_name, ed_number e, ev_code (ed_event e)).


(** ** More concrete data *)

(** Object 7 of [ex_store] with its first fragment awaiting validation. *)
Definition ex_pending : EventHandler :=
  Handler {[ 7 := {[ "say" := [Event 0 None false "a = 1" EmptyString None;
                                ex_event "b = 2"] ]} ]}
    [(7, "say", 0)] [(7, "say", 1)] 0 ∅ ex_event_types ∅ ∅.

(** A clock collaborator: the next firing is in 40, the usual interval
    is 60. *)
Definition ex_next_wait (time_format : string) : Z * Z * string :=
  (40, 60, time_format).


(** * [set_task] and the moment the timer is armed *)

(** [utils.delay(seconds, complete_task, task_id)] as a collaborator
    that is called on the world as it is at that moment: it gets the
    delay and the task id (the callback is always [complete_task]), sees
    the handler as [set_task] has left it so far, and hands it back with
    what it did. *)
Definition timer_facility : Type := Z -> Z -> EventHandler -> EventHandler * list effect.

(** The facility that only notes the timer. *)
Definition record_timer : timer_facility :=
  fun seconds task_id self => (self, [EDelay seconds task_id]).

(** A facility that notes the timer and runs the callback at once. *)
Definition fire_at_once (type_of : Z -> typeclass)
    (exec_code : string -> gmap string pyvalue -> exec_result) : timer_facility :=
  fun seconds task_id self =>
    let '(script, effects) := complete_task type_of exec_code (Some self) task_id in
    (default self script, EDelay seconds task_id :: effects).

(** [set_task] with the timer facility as a parameter: the record is
    stored (l.502-517), then [delay] is called (l.518). *)
Definition set_task_with (dbserialize : pyvalue -> option string) (delay : timer_facility)
    (self : EventHandler) (now : Z) (seconds : Z) (obj : Z) (event_name : string)
    : EventHandler * list effect :=
  let '(self, task_id) := store_task dbserialize self now seconds obj event_name in
  delay seconds task_id self.

(** * Fragments that reach the handler or leave the loop *)

(** [exec(event["code"], locals, locals)] runs a fragment with the helper
    functions in scope.  Through them the fragment can reach the handler
    (a chained event calls [set_task]); and it can raise an exception
    that is not an [Exception] ([SystemExit], [KeyboardInterrupt],
    [GeneratorExit]), which neither [except] clause of the loop catches.
    How one run ends: *)
Inductive fragment_end : Type :=
  | EndDone
  | EndInterrupt
  | EndError (evalue : string) (trace : list string)
  | EndEscape (exception : string).

(** One run of a fragment: how it ends, the namespace and the handler it
    leaves. *)
Record fragment_run : Type := FragmentRun {
  run_end : fragment_end;
  run_locals : gmap string pyvalue;
  run_handler : EventHandler
}.

(** What a call of [call_event] comes to: a returned boolean, an
    exception of its own, or the exception of a fragment that the loop
    lets through. *)
Inductive dispatch : Type :=
  | DispatchReturned (completed : bool)
  | DispatchRaised (e : exn)
  | DispatchEscaped (exception : string).

Section Reach.

Variable type_of : Z -> typeclass.

(** The interpreter behind [exec], given the handler the helpers reach. *)
Variable exec_on : string -> gmap string pyvalue -> EventHandler -> fragment_run.

(** The [for i, event in enumerate(events)] loop, with the handler
    threaded through the fragments: [inl] is the returned boolean, [inr]
    the exception that left the loop. *)
Fixpoint run_events_on (obj : Z) (event_name : string) (events : list event_def)
    (number : pyvalue) (locals : gmap string pyvalue) (self : EventHandler)
    : (bool + string) * gmap string pyvalue * EventHandler * list effect :=
  match events with
  | [] => (inl true, locals, self, [])
  | event :: events' =>
      if negb (ev_valid (ed_event event)) then
        run_events_on obj event_name events' number locals self
      else if negb (py_is_none number) && py_int_ne (ed_number event) number then
        run_events_on obj event_name events' number locals self
      else
        let code := ev_code (ed_event event) in
        let ran := EExec obj event_name (ed_number event) code in
        let run := exec_on code locals self in
        let locals := run_locals run in
        let self := run_handler run in
        match run_end run with
        | EndDone =>
            let '(result, locals, self, effects) :=
              run_events_on obj event_name events' number locals self in
            (result, locals, self, ran :: effects)
        | EndInterrupt => (inl false, locals, self, [ran])
        | EndError evalue trace =>
            let number := ed_number event in
            let oid := obj in
            let logged := ELogErrEventError event_name obj oid (number + 1) trace in
            let '(lineno, line) := locate_error code trace None unknown in
            let msg := EChannelMsg event_name obj oid (number + 1) lineno line evalue in
            let '(result, locals, self, effects) :=
              run_events_on obj event_name events' (PyInt number) locals self in
            (result, locals, self, ran :: logged :: msg :: effects)
        | EndEscape exception => (inr exception, locals, self, [ran])
        end
  end.

(** [call_event]: the namespace is published on the handler (l.436)
    before the loop, and the handler is the one the fragments leave. *)
Definition call_event_on (self : EventHandler) (obj : Z) (event_name : string)
    (args : list pyvalue) (kwargs : gmap string pyvalue)
    : dispatch * EventHandler * list effect :=
  match call_event_prepare type_of self obj event_name args kwargs with
  | inl (Returned completed, effects) => (DispatchReturned completed, self, effects)
  | inl (Raised e, effects) => (DispatchRaised e, self, effects)
  | inr (events, number, locals) =>
      let self := set_ndb_current_locals locals self in
      let '(result, locals, self, effects) :=
        run_events_on obj event_name events number locals self in
      (match result with
       | inl completed => DispatchReturned completed
       | inr exception => DispatchEscaped exception
       end, self, effects)
  end.

(** [complete_task]: what the dispatch came to, if there was one (the
    function itself returns nothing, and an exception of the dispatch
    leaves it), the handler and the effects. *)
Definition complete_task_on (script : option EventHandler) (task_id : Z)
    : option dispatch * option EventHandler * list effect :=
  match script with
  | None => (None, None, [ELogTraceNoHandler])
  | Some script =>
      match db_tasks script !! task_id with
      | None => (None, Some script, [ELogErrTaskNotFound task_id])
      | Some (delta, obj, event_name, locals) =>
          let script := set_db_tasks (delete task_id (db_tasks script)) script in
          let '(result, script, effects) :=
            call_event_on script obj event_name [] {[ "locals" := PyDict locals ]} in
          (Some result, Some script, effects)
      end
  end.

End Reach.

(** An interpreter that keeps to its namespace and raises nothing but
    [Exception]s, seen as one that is given the handler: the handler it
    leaves has the namespace of the run as its current one, as the two are
    the same dictionary. *)
Definition keeps_to_namespace (exec_code : string -> gmap string pyvalue -> exec_result)
    (code : string) (locals : gmap string pyvalue) (self : EventHandler) : fragment_run :=
  match exec_code code locals with
  | ExecDone locals => FragmentRun EndDone locals (set_ndb_current_locals locals self)
  | ExecInterrupt locals =>
      FragmentRun EndInterrupt locals (set_ndb_current_locals locals self)
  | ExecError locals evalue trace =>
      FragmentRun (EndError evalue trace) locals (set_ndb_current_locals locals self)
  end.

(** The handler [after] is what a fragment leaves of the handler
    [before] when it reaches it only to rebind the current namespace and
    to call [set_task], any number of times. *)
Inductive only_schedules (dbserialize : pyvalue -> option string)
    : EventHandler -> EventHandler -> Prop :=
  | schedules_nothing (self : EventHandler) : only_schedules dbserialize self self
  | schedules_namespace (before after : EventHandler) (locals : gmap string pyvalue) :
      only_schedules dbserialize before after ->
      only_schedules dbserialize before (set_ndb_current_locals locals after)
  | schedules_task (before after : EventHandler) (now seconds obj : Z)
      (event_name : string) :
      only_schedules dbserialize before after ->
      only_schedules dbserialize before
        (set_task dbserialize after now seconds obj event_name).1.

(** What is then left of [before] in [after]: the fragments, the
    validation queue and the lock set, every task slot below the counter
    of [before], and a counter that has not gone down. *)
Definition tasks_kept (before after : EventHandler) : Prop :=
  db_events after = db_events before
  /\ db_to_valid after = db_to_valid before
  /\ db_locked after = db_locked before
  /\ db_task_id before <= db_task_id after
  /\ (forall task_id, task_id < db_task_id before ->
        db_tasks after !! task_id = db_tasks before !! task_id)
  /\ (tasks_below_counter before -> tasks_below_counter after).

(** A stand-in for the interpreter with a helper in scope: [call(obj,
    "foo", 20)] schedules ["foo"] on the object 3 in 20 seconds, at time
    5000, from the namespace of the run; [raise SystemExit()] leaves the
    loop; any other fragment does what [ex_exec] does. *)
Definition ex_exec_on (code : string) (locals : gmap string pyvalue) (self : EventHandler)
    : fragment_run :=
  if bool_decide (code = "call(obj, 'foo', 20)") then
    FragmentRun EndDone locals
      (set_task ex_dbserialize (set_ndb_current_locals locals self)
         5000 (seconds_us 20) 3 "foo").1
  else if bool_decide (code = "raise SystemExit()") then
    FragmentRun (EndEscape "SystemExit") locals (set_ndb_current_locals locals self)
  else keeps_to_namespace ex_exec code locals self.

(** * The type registry *)

Lemma queue_size_app (q1 q2 : list typeclass) :
  queue_size (q1 ++ q2) = (queue_size q1 + queue_size q2)%nat.
Proof.
  unfold queue_size. rewrite map_app. induction (map tc_size q1) as [|n l IH]; simpl; lia.
Qed.

Lemma queue_size_cons (tc : typeclass) (rest : list typeclass) :
  queue_size (tc :: rest) = S (queue_size (rest ++ bases tc)).
Proof.
  rewrite queue_size_app. destruct tc as [m n bs]. unfold queue_size. simpl. lia.
Qed.

Lemma queue_size_flat_map (q : list typeclass) :
  (queue_size q = length q + queue_size (flat_map bases q))%nat.
Proof.
  induction q as [|tc q IH]; [reflexivity|].
  simpl flat_map. rewrite queue_size_app.
  change (tc :: q) with ([tc] ++ q). rewrite queue_size_app, IH.
  destruct tc as [m n bs]. unfold queue_size. simpl. lia.
Qed.

(** With a fuel of at least the size of the queue the loop ends, and it
    has scanned the classes in the order the queue yields them. *)
Lemma walk_classes_visit (event_types : gmap string (gmap string etype)) (fuel : nat) :
  forall classes acc,
    (queue_size classes <= fuel)%nat ->
    walk_classes fuel event_types classes acc =
    Some (fst (foldl (scan_typeclass event_types) acc (visit_order fuel classes))).
Proof.
  induction fuel as [|fuel IH]; intros [|tc rest] acc Hsize; simpl; try reflexivity.
  - rewrite queue_size_cons in Hsize. lia.
  - apply IH. rewrite queue_size_cons in Hsize. lia.
Qed.

Lemma visit_order_app (a : list typeclass) :
  forall fuel b,
    (queue_size (a ++ b) <= fuel)%nat ->
    visit_order fuel (a ++ b) =
    a ++ visit_order (fuel - length a) (b ++ flat_map bases a).
Proof.
  induction a as [|tc a IH]; intros fuel b Hsize.
  - simpl. rewrite app_nil_r. f_equal. lia.
  - destruct fuel as [|fuel].
    + change ((tc :: a) ++ b) with (tc :: (a ++ b)) in Hsize.
      rewrite queue_size_cons in Hsize. lia.
    + change ((tc :: a) ++ b) with (tc :: (a ++ b)) in *.
      rewrite queue_size_cons in Hsize.
      simpl. f_equal. rewrite <- app_assoc. rewrite IH.
      * rewrite <- app_assoc. reflexivity.
      * rewrite <- app_assoc in Hsize. lia.
Qed.

Lemma breadth_first_nil (depth : nat) : breadth_first depth [] = [].
Proof. induction depth as [|d IH]; simpl; auto. Qed.

Lemma visit_order_breadth_first (depth : nat) :
  forall fuel classes,
    (queue_size classes <= fuel)%nat ->
    (queue_size classes <= depth)%nat ->
    visit_order fuel classes = breadth_first depth classes.
Proof.
  induction depth as [|depth IH]; intros fuel classes Hfuel Hdepth.
  - destruct classes as [|tc rest]; [by destruct fuel|].
    rewrite queue_size_cons in Hdepth. lia.
  - destruct classes as [|tc rest].
    + rewrite breadth_first_nil. by destruct fuel.
    + pose proof (queue_size_flat_map (tc :: rest)) as Hq.
      rewrite <- (app_nil_r (tc :: rest)) at 1.
      rewrite visit_order_app by (rewrite app_nil_r; exact Hfuel).
      rewrite app_nil_l. cbn [breadth_first]. f_equal.
      cbn [length] in Hq. apply IH; cbn [length]; lia.
Qed.

(** One step of the inner loop. *)
Lemma scan_declaration_lookup (key : string) (acc : gmap string etype * list string)
    (k0 : string) (e0 : etype) :
  (scan_declaration acc (k0, e0)).1 !! key =
    match acc.1 !! key with
    | Some e => Some e
    | None =>
        if decide (key ∈ acc.2) then None
        else if decide (key = k0) then adopted (Some e0) else None
    end
  /\ (key ∈ (scan_declaration acc (k0, e0)).2 <->
      key ∈ acc.2 \/ (key = k0 /\ et_variables e0 = None)).
Proof.
  destruct acc as [types invalid]. cbn [scan_declaration fst snd].
  case_bool_decide as Hin0.
  - cbn [fst snd]. split.
    + destruct (types !! key); [done|].
      destruct (decide (key ∈ invalid)); [done|].
      destruct (decide (key = k0)); [by subst|done].
    + naive_solver.
  - destruct (et_variables e0) as [vars|] eqn:Hvars.
    + destruct (types !! k0) as [e|] eqn:Hty; cbn [fst snd].
      * split; [|naive_solver].
        destruct (types !! key) eqn:Hk; [done|].
        destruct (decide (key ∈ invalid)); [done|].
        destruct (decide (key = k0)); [subst; congruence|done].
      * split; [|naive_solver].
        destruct (decide (key = k0)) as [->|Hne].
        -- rewrite lookup_insert_eq, Hty. rewrite decide_False by done.
           cbn [adopted]. by rewrite Hvars.
        -- rewrite lookup_insert_ne by done.
           destruct (types !! key); [done|]. by destruct (decide _).
    + cbn [fst snd]. split.
      * destruct (types !! key); [done|].
        destruct (decide (key ∈ invalid)); [done|].
        destruct (decide (key = k0)); [|done].
        cbn [adopted]. by rewrite Hvars.
      * rewrite elem_of_app, list_elem_of_singleton. naive_solver.
Qed.

(** The declarations of one class, whose keys are all different. *)
Lemma scan_declarations_lookup (key : string) (l : list (string * etype)) :
  forall acc,
    NoDup l.*1 ->
    (foldl scan_declaration acc l).1 !! key =
      match acc.1 !! key with
      | Some e => Some e
      | None =>
          if decide (key ∈ acc.2) then None
          else adopted ((list_to_map l : gmap string etype) !! key)
      end
    /\ (key ∈ (foldl scan_declaration acc l).2 <->
        key ∈ acc.2 \/
        exists e, (list_to_map l : gmap string etype) !! key = Some e
                  /\ et_variables e = None).
Proof.
  induction l as [|[k0 e0] l IH]; intros acc Hnd.
  - simpl. split.
    + destruct (acc.1 !! key); [done|]. by destruct (decide _).
    + split; [auto|]. intros [H|(e & H & _)]; [done|]. by rewrite lookup_empty in H.
  - apply NoDup_cons in Hnd as [Hk0 Hnd].
    assert ((list_to_map l : gmap string etype) !! k0 = None) as Hnone
      by (by apply not_elem_of_list_to_map_1).
    cbn [foldl].
    destruct (IH (scan_declaration acc (k0, e0)) Hnd) as [IH1 IH2].
    destruct (scan_declaration_lookup key acc k0 e0) as [S1 S2].
    rewrite IH1, IH2, S1. clear IH1 IH2 S1.
    cbn [list_to_map foldr uncurry fst snd].
    destruct (decide (key = k0)) as [->|Hne].
    + rewrite lookup_insert_eq, Hnone. split.
      * destruct (acc.1 !! k0); [done|].
        destruct (decide (k0 ∈ acc.2)) as [Hi|Hi].
        -- by destruct (decide _).
        -- cbn [adopted]. destruct (et_variables e0) eqn:Hv; [done|].
           by destruct (decide _).
      * rewrite S2. naive_solver.
    + rewrite lookup_insert_ne by done. split.
      * destruct (acc.1 !! key); [done|].
        destruct (decide (key ∈ acc.2)) as [Hi|Hi].
        -- rewrite decide_True by (apply S2; auto). done.
        -- rewrite decide_False by (rewrite S2; naive_solver). done.
      * rewrite S2. naive_solver.
Qed.

(** Scanning one class decides every name it declares that was still
    open, and nothing else. *)
Lemma scan_typeclass_lookup (event_types : gmap string (gmap string etype))
    (acc : gmap string etype * list string) (tc : typeclass) (key : string) :
  (scan_typeclass event_types acc tc).1 !! key =
    match acc.1 !! key with
    | Some e => Some e
    | None =>
        if decide (key ∈ acc.2) then None
        else adopted (declarations event_types tc !! key)
    end
  /\ (key ∈ (scan_typeclass event_types acc tc).2 <->
      key ∈ acc.2 \/
      exists e, declarations event_types tc !! key = Some e /\ et_variables e = None).
Proof.
  unfold scan_typeclass.
  pose proof (scan_declarations_lookup key
                (map_to_list (declarations event_types tc)) acc
                (NoDup_fst_map_to_list _)) as H.
  rewrite list_to_map_to_list in H. exact H.
Qed.

Lemma scan_order_lookup (event_types : gmap string (gmap string etype)) (key : string)
    (classes : list typeclass) :
  forall acc,
    (foldl (scan_typeclass event_types) acc classes).1 !! key =
    match acc.1 !! key with
    | Some e => Some e
    | None =>
        if decide (key ∈ acc.2) then None
        else adopted (first_declaration event_types classes key)
    end.
Proof.
  induction classes as [|tc rest IH]; intros acc.
  - simpl. destruct (acc.1 !! key); [done|]. by destruct (decide _).
  - cbn [foldl first_declaration]. rewrite IH.
    destruct (scan_typeclass_lookup event_types acc tc key) as [H1 H2].
    rewrite H1. destruct (acc.1 !! key) as [e|]; [done|].
    destruct (decide (key ∈ acc.2)) as [Hin|Hin].
    + rewrite decide_True by (apply H2; auto). done.
    + destruct (declarations event_types tc !! key) as [d|] eqn:Hd.
      * cbn [adopted]. destruct (et_variables d) eqn:Hv; [done|].
        rewrite decide_True; [done|]. apply H2. right. eauto.
      * cbn [adopted]. rewrite decide_False; [done|].
        rewrite H2. intros [?|(e & ? & _)]; done.
Qed.

(** [get_event_types] always ends, having walked the classes
    breadth-first; the declaration met first decides each name. *)
Lemma get_event_types_lookup (type_of : Z -> typeclass) (self : EventHandler)
    (obj : Z) (key : string) :
  get_event_types type_of self obj !! key =
  adopted (first_declaration (ndb_event_types self)
             (breadth_first (tc_size (type_of obj)) [type_of obj]) key).
Proof.
  unfold get_event_types.
  assert (queue_size [type_of obj] = tc_size (type_of obj)) as Hq
    by (unfold queue_size; simpl; lia).
  rewrite walk_classes_visit by lia.
  rewrite scan_order_lookup. cbn [fst snd]. rewrite lookup_empty.
  rewrite decide_False by set_solver.
  by rewrite (visit_order_breadth_first (tc_size (type_of obj))) by lia.
Qed.

Lemma first_declaration_split (event_types : gmap string (gmap string etype))
    (key : string) (pre : list typeclass) (tc : typeclass) (post : list typeclass)
    (e : etype) :
  (forall c, c ∈ pre -> declarations event_types c !! key = None) ->
  declarations event_types tc !! key = Some e ->
  first_declaration event_types (pre ++ tc :: post) key = Some e.
Proof.
  intros Hpre Htc. induction pre as [|c pre IH]; simpl.
  - by rewrite Htc.
  - rewrite (Hpre c) by set_solver. apply IH. intros c' Hc'. apply Hpre. set_solver.
Qed.

Lemma breadth_first_own_type_first (tc : typeclass) :
  exists rest, breadth_first (tc_size tc) [tc] = tc :: bases tc ++ rest.
Proof.
  destruct tc as [m n bs]. cbn [tc_size breadth_first flat_map bases app].
  rewrite app_nil_r. destruct bs as [|b bs].
  - exists []. reflexivity.
  - destruct b as [bm bn bbs]. cbn [map list_sum tc_size Nat.add breadth_first].
    eexists. reflexivity.
Qed.

(** C3. [get_event_types] walks the classes breadth-first from the
    object's own class (the class itself, then its bases, then theirs);
    for every name the declaration met first decides: it is adopted, or,
    when it is the invalidating declaration, the name is left out and no
    class met later can supply it.  With [B] derived from [A], [A]
    declaring ["foo"] and [B] invalidating it, a [B] has no ["foo"] while
    an [A] and a sibling [C] of [B] still have it. *)
Theorem get_event_types_first_declaration_decides :
  (forall type_of self obj key,
     get_event_types type_of self obj !! key =
     adopted (first_declaration (ndb_event_types self)
                (breadth_first (tc_size (type_of obj)) [type_of obj]) key))
  /\ (forall tc, exists rest, breadth_first (tc_size tc) [tc] = tc :: bases tc ++ rest)
  /\ (forall type_of self obj key pre tc post e,
        breadth_first (tc_size (type_of obj)) [type_of obj] = pre ++ tc :: post ->
        (forall c, c ∈ pre -> declarations (ndb_event_types self) c !! key = None) ->
        declarations (ndb_event_types self) tc !! key = Some e ->
        get_event_types type_of self obj !! key =
        match et_variables e with Some _ => Some e | None => None end)
  /\ get_event_types ex_type_of ex_handler 2 !! "foo" = None
  /\ get_event_types ex_type_of ex_handler 1 !! "foo" = Some ex_foo
  /\ get_event_types ex_type_of ex_handler 3 !! "foo" = Some ex_foo.
Proof.
  split; [exact get_event_types_lookup|].
  split; [exact breadth_first_own_type_first|].
  split.
  - intros type_of self obj key pre tc post e Horder Hpre Htc.
    rewrite get_event_types_lookup, Horder.
    by rewrite (first_declaration_split _ _ _ _ _ e Hpre Htc).
  - repeat split; vm_compute; reflexivity.
Qed.

(** * The event store: [del_event] *)

Lemma snoc_cons {A : Type} (l1 : list A) (x : A) (l2 : list A) :
  l1 ++ x :: l2 = (l1 ++ [x]) ++ l2.
Proof. by rewrite <- app_assoc. Qed.

Lemma renumber_to_valid_loop (obj : Z) (event_name : string) (number : Z)
    (rest : list (Z * string * Z)) :
  forall done fuel,
    (length rest <= fuel)%nat ->
    renumber_to_valid fuel obj event_name number (Z.of_nat (length done)) (done ++ rest)
    = Some (done ++ flat_map (renumber_entry obj event_name number) rest).
Proof.
  induction rest as [|[[t_obj t_name] t_number] rest IH]; intros done fuel Hfuel.
  - cbn [flat_map]. rewrite !app_nil_r.
    destruct fuel; cbn [renumber_to_valid];
      rewrite bool_decide_false by lia; reflexivity.
  - destruct fuel as [|fuel]; [simpl in Hfuel; lia|].
    cbn [renumber_to_valid]. rewrite length_app. cbn [length] in *.
    rewrite bool_decide_true by lia.
    rewrite Nat2Z.id, list_lookup_middle by reflexivity.
    cbn [flat_map renumber_entry].
    destruct (decide (obj = t_obj)) as [<-|Hobj];
      [destruct (decide (event_name = t_name)) as [<-|Hname]|].
    + rewrite (bool_decide_true (obj = obj)), (bool_decide_true (event_name = event_name)),
        (bool_decide_true (obj = obj /\ event_name = event_name)) by done.
      cbn [andb].
      destruct (decide (t_number = number)) as [->|Hnum].
      * rewrite !bool_decide_true by done.
        rewrite delete_middle.
        replace (Z.of_nat (length done) - 1 + 1) with (Z.of_nat (length done)) by lia.
        rewrite IH by lia. reflexivity.
      * rewrite (bool_decide_false (t_number = number)) by done.
        destruct (decide (t_number > number)) as [Hgt|Hle].
        -- rewrite bool_decide_true by done. rewrite bool_decide_true by lia.
           unfold py_insert. rewrite take_app_length, drop_app_length.
           replace (Z.to_nat (Z.of_nat (length done) + 1))
             with (length (done ++ [(obj, event_name, t_number - 1)]))
             by (rewrite length_app; simpl; lia).
           rewrite (snoc_cons done (obj, event_name, t_number - 1)
                      ((obj, event_name, t_number) :: rest)), delete_middle.
           replace (Z.of_nat (length done) + 1)
             with (Z.of_nat (length (done ++ [(obj, event_name, t_number - 1)])))
             by (rewrite length_app; simpl; lia).
           rewrite IH by lia. rewrite <- app_assoc. reflexivity.
        -- rewrite bool_decide_false by done. rewrite bool_decide_false by lia.
           replace (Z.of_nat (length done) + 1)
             with (Z.of_nat (length (done ++ [(obj, event_name, t_number)])))
             by (rewrite length_app; simpl; lia).
           rewrite (snoc_cons done (obj, event_name, t_number) rest).
           rewrite IH by lia. rewrite <- app_assoc. reflexivity.
    + rewrite (bool_decide_false (event_name = t_name)) by done.
      rewrite andb_false_r.
      rewrite (bool_decide_false (obj = obj /\ t_name = event_name)) by naive_solver.
      replace (Z.of_nat (length done) + 1)
        with (Z.of_nat (length (done ++ [(obj, t_name, t_number)])))
        by (rewrite length_app; simpl; lia).
      rewrite (snoc_cons done (obj, t_name, t_number) rest).
      rewrite IH by lia. rewrite <- app_assoc. reflexivity.
    + rewrite (bool_decide_false (obj = t_obj)) by done. cbn [andb].
      rewrite (bool_decide_false (t_obj = obj /\ t_name = event_name)) by naive_solver.
      replace (Z.of_nat (length done) + 1)
        with (Z.of_nat (length (done ++ [(t_obj, t_name, t_number)])))
        by (rewrite length_app; simpl; lia).
      rewrite (snoc_cons done (t_obj, t_name, t_number) rest).
      rewrite IH by lia. rewrite <- app_assoc. reflexivity.
Qed.

(** The loop over the validation queue ends and leaves the queue
    renumbered entry by entry. *)
Lemma renumber_to_valid_ends (obj : Z) (event_name : string) (number : Z)
    (to_valid : list (Z * string * Z)) :
  renumber_to_valid (length to_valid) obj event_name number 0 to_valid
  = Some (flat_map (renumber_entry obj event_name number) to_valid).
Proof.
  exact (renumber_to_valid_loop obj event_name number to_valid [] _ (le_n _)).
Qed.

Lemma renumber_locked_loop (obj : Z) (event_name : string) (number : Z)
    (lines : list (Z * string * Z)) :
  forall done,
    renumber_locked obj event_name number (length done) lines (done ++ lines)
    = done ++ map (relock_entry obj event_name number) lines.
Proof.
  induction lines as [|[[t_obj t_name] t_number] lines IH]; intros done.
  - reflexivity.
  - cbn [renumber_locked map relock_entry].
    assert (forall x : Z * string * Z,
               renumber_locked obj event_name number (S (length done)) lines
                 (done ++ x :: lines)
               = done ++ x :: map (relock_entry obj event_name number) lines) as Hnext.
    { intros x. specialize (IH (done ++ [x])).
      rewrite length_app, <- app_assoc in IH. simpl in IH.
      rewrite Nat.add_1_r in IH. rewrite IH, <- app_assoc. reflexivity. }
    destruct (decide (t_obj = obj /\ t_name = event_name /\ number < t_number))
      as [(-> & -> & Hlt)|Hno].
    + rewrite !bool_decide_true by done. cbn [andb].
      rewrite insert_app_r_alt by lia. rewrite Nat.sub_diag. cbn [insert list_insert].
      apply Hnext.
    + rewrite (bool_decide_false (_ /\ _ /\ _)) by done.
      replace (bool_decide (obj = t_obj) && bool_decide (event_name = t_name)
               && bool_decide (number < t_number)) with false.
      * apply Hnext.
      * symmetry. apply not_true_is_false. intros H.
        apply andb_prop in H as [H H3]. apply andb_prop in H as [H1 H2].
        apply bool_decide_eq_true in H1, H2, H3. naive_solver.
Qed.

Lemma renumber_locked_ends (obj : Z) (event_name : string) (number : Z)
    (locked : list (Z * string * Z)) :
  renumber_locked obj event_name number 0 locked locked
  = map (relock_entry obj event_name number) locked.
Proof. exact (renumber_locked_loop obj event_name number locked []). Qed.

Lemma py_index_in_range {A : Type} (l : list A) (k : Z) :
  0 <= k < Z.of_nat (length l) -> py_index l k = Some (Z.to_nat k).
Proof. intros H. unfold py_index. by rewrite bool_decide_true. Qed.

Lemma py_index_out_of_range {A : Type} (l : list A) (n : Z) :
  Z.of_nat (length l) <= n \/ n < - Z.of_nat (length l) -> py_index l n = None.
Proof. intros H. unfold py_index. by rewrite !bool_decide_false by lia. Qed.

(** [del_event] on an unlocked fragment that exists. *)
Lemma del_event_deletes (self : EventHandler) (obj : Z) (event_name : string)
    (number : Z) (scripts : list Script) (k : nat) (ev : event) :
  (obj, event_name, number) ∉ db_locked self ->
  py_index (events_of self obj event_name) number = Some k ->
  events_of self obj event_name !! k = Some ev ->
  del_event self obj event_name number scripts =
  (Returned (),
   Handler
     (<[obj := <[event_name := delete k (events_of self obj event_name)]>
                 (default ∅ (db_events self !! obj))]> (db_events self))
     (flat_map (renumber_entry obj event_name number) (db_to_valid self))
     (map (relock_entry obj event_name number) (db_locked self))
     (db_task_id self) (db_tasks self) (ndb_event_types self)
     (ndb_current_locals self) (ndb_fresh_locals self),
   map (update_script obj event_name number) scripts,
   [ELogInfoDeleting event_name number obj (ev_code ev)]).
Proof.
  intros Hlock Hidx Hev. unfold del_event. cbv zeta.
  change (default [] (default ∅ (db_events self !! obj) !! event_name))
    with (events_of self obj event_name).
  rewrite bool_decide_false by done. rewrite Hidx, Hev.
  cbn [set_db_events db_to_valid db_locked].
  rewrite renumber_to_valid_ends. cbn [set_db_to_valid db_locked].
  rewrite renumber_locked_ends. reflexivity.
Qed.

Lemma events_of_after_delete (events : gmap Z (gmap string (list event)))
    (obj : Z) (event_name : string) (l : list event) (self' : EventHandler) :
  db_events self' =
    <[obj := <[event_name := l]> (default ∅ (events !! obj))]> events ->
  events_of self' obj event_name = l
  /\ forall o n, (o, n) <> (obj, event_name) ->
       default [] (default ∅ (db_events self' !! o) !! n)
       = default [] (default ∅ (events !! o) !! n).
Proof.
  unfold events_of. intros ->. split.
  - rewrite lookup_insert_eq. cbn [from_option id]. by rewrite lookup_insert_eq.
  - intros o n Hne. destruct (decide (o = obj)) as [->|Ho].
    + rewrite lookup_insert_eq. cbn [from_option id].
      rewrite lookup_insert_ne by congruence. reflexivity.
    + by rewrite lookup_insert_ne.
Qed.

(** C2. Deleting the unlocked fragment of index [k] removes it from its
    list, drops the validation-queue entries of [(obj, event_name, k)],
    moves the validation-queue and lock-set entries of later fragments
    of [(obj, event_name)] down by one, stops the time scripts bound to
    [(obj, event_name, k)] and moves those bound to a later fragment
    down by one; the entries and scripts of other objects or other event
    names are left as they are. *)
Theorem del_event_renumbers (self : EventHandler) (obj : Z) (event_name : string)
    (k : Z) (scripts : list Script) :
  0 <= k < Z.of_nat (length (events_of self obj event_name)) ->
  (obj, event_name, k) ∉ db_locked self ->
  exists ev self',
    events_of self obj event_name !! Z.to_nat k = Some ev
    /\ del_event self obj event_name k scripts =
       (Returned (), self', map (update_script obj event_name k) scripts,
        [ELogInfoDeleting event_name k obj (ev_code ev)])
    /\ events_of self' obj event_name = delete (Z.to_nat k) (events_of self obj event_name)
    /\ (forall o n, (o, n) <> (obj, event_name) -> events_of self' o n = events_of self o n)
    /\ db_to_valid self' = flat_map (renumber_entry obj event_name k) (db_to_valid self)
    /\ db_locked self' = map (relock_entry obj event_name k) (db_locked self)
    /\ renumber_entry obj event_name k (obj, event_name, k) = []
    /\ (forall j, k < j ->
          renumber_entry obj event_name k (obj, event_name, j) = [(obj, event_name, j - 1)]
          /\ relock_entry obj event_name k (obj, event_name, j) = (obj, event_name, j - 1))
    /\ (forall j, j < k ->
          renumber_entry obj event_name k (obj, event_name, j) = [(obj, event_name, j)]
          /\ relock_entry obj event_name k (obj, event_name, j) = (obj, event_name, j))
    /\ (forall o n j, (o, n) <> (obj, event_name) ->
          renumber_entry obj event_name k (o, n, j) = [(o, n, j)]
          /\ relock_entry obj event_name k (o, n, j) = (o, n, j))
    /\ (forall script, bound_to obj event_name script -> sc_number script = Some k ->
          update_script obj event_name k script =
          MkScript obj true event_name (Some k) true)
    /\ (forall script j, bound_to obj event_name script -> sc_number script = Some j ->
          k < j ->
          update_script obj event_name k script =
          MkScript obj true event_name (Some (j - 1)) false)
    /\ (forall script j, sc_number script = Some j -> j < k ->
          update_script obj event_name k script = script)
    /\ (forall script, sc_obj script <> obj \/ sc_event_name script <> event_name ->
          update_script obj event_name k script = script).
Proof.
  intros Hk Hlock.
  destruct (lookup_lt_is_Some_2 (events_of self obj event_name) (Z.to_nat k))
    as [ev Hev]; [lia|].
  pose proof (del_event_deletes self obj event_name k scripts (Z.to_nat k) ev
                Hlock (py_index_in_range _ _ Hk) Hev) as Hdel.
  match type of Hdel with _ = (_, ?s, _, _) => set (self' := s) in * end.
  exists ev, self'. split; [exact Hev|]. split; [exact Hdel|].
  destruct (events_of_after_delete (db_events self) obj event_name
              (delete (Z.to_nat k) (events_of self obj event_name)) self' eq_refl)
    as [Hsame Hother].
  split; [exact Hsame|]. split; [exact Hother|].
  split; [reflexivity|]. split; [reflexivity|].
  split.
  { cbn [renumber_entry]. by rewrite !bool_decide_true. }
  split.
  { intros j Hj. cbn [renumber_entry relock_entry].
    rewrite (bool_decide_true (obj = obj /\ _)) by done.
    rewrite (bool_decide_false (j = k)) by lia.
    by rewrite !bool_decide_true. }
  split.
  { intros j Hj. cbn [renumber_entry relock_entry].
    rewrite (bool_decide_true (obj = obj /\ event_name = event_name)) by done.
    rewrite (bool_decide_false (j = k)) by lia.
    rewrite (bool_decide_false (k < j)) by lia.
    by rewrite bool_decide_false by lia. }
  split.
  { intros o n j Hne. cbn [renumber_entry relock_entry].
    rewrite (bool_decide_false (o = obj /\ n = event_name)) by (intros [-> ->]; done).
    by rewrite bool_decide_false by (intros (-> & -> & _); done). }
  split.
  { intros [o t nm num st] (Ho & Hst & Ht & Hn) Hnum. cbn in *. subst.
    unfold update_script. cbn. by rewrite !bool_decide_true. }
  split.
  { intros [o t nm num st] j (Ho & Hst & Ht & Hn) Hnum Hj. cbn in *. subst.
    unfold update_script. cbn. rewrite !bool_decide_true by done. cbn.
    rewrite bool_decide_false by lia. by rewrite bool_decide_true by lia. }
  split.
  { intros [o t nm num st] j Hnum Hj. cbn in *. subst.
    unfold update_script. cbn.
    repeat (case_bool_decide; cbn; try done; try lia); destruct st, t; cbn; try done;
      repeat (case_bool_decide; cbn; try done; try lia). }
  intros [o t nm num st] Hne. cbn in Hne. unfold update_script. cbn.
  destruct Hne as [Hne|Hne].
  - by rewrite (bool_decide_false (o = obj)) by done.
  - rewrite (bool_decide_false (nm = event_name)) by done.
    rewrite andb_false_r. by repeat case_match.
Qed.

(** C10. [del_event] looks at the lock set before it looks for the
    fragment: a locked [(obj, event_name, number)] raises the locked-event
    error whether or not a fragment has that index; an unlocked index
    outside the list returns with the handler, the scripts and the log
    untouched. *)
Theorem del_event_lock_before_lookup (self : EventHandler) (obj : Z)
    (event_name : string) (number : Z) (scripts : list Script) :
  ((obj, event_name, number) ∈ db_locked self ->
   del_event self obj event_name number scripts =
   (Raised (RuntimeError "this event is locked."), self, scripts, []))
  /\ ((obj, event_name, number) ∉ db_locked self ->
      Z.of_nat (length (events_of self obj event_name)) <= number
      \/ number < - Z.of_nat (length (events_of self obj event_name)) ->
      del_event self obj event_name number scripts = (Returned (), self, scripts, [])).
Proof.
  split.
  - intros Hlock. unfold del_event. cbv zeta. by rewrite bool_decide_true.
  - intros Hlock Hrange. unfold del_event. cbv zeta.
    change (default [] (default ∅ (db_events self !! obj) !! event_name))
      with (events_of self obj event_name).
    rewrite bool_decide_false by done.
    by rewrite py_index_out_of_range.
Qed.

Lemma del_event_renumbers_witness :
  0 <= 1 < Z.of_nat (length (events_of ex_store 7 "say"))
  /\ ((7, "say", 1) ∉ db_locked ex_store)
  /\ exists self',
       del_event ex_store 7 "say" 1 ex_scripts =
       (Returned (), self', map (update_script 7 "say" 1) ex_scripts,
        [ELogInfoDeleting "say" 1 7 "b = 2"])
       /\ events_of self' 7 "say" = [ex_event "a = 1"; ex_event "c = 3"]
       /\ db_to_valid self' = [(7, "say", 1); (8, "say", 2); (7, "get", 2)]
       /\ db_locked self' = [(7, "say", 1); (7, "say", 0); (7, "say", 4)].
Proof.
  assert (0 <= 1 < Z.of_nat (length (events_of ex_store 7 "say"))) as H1
    by (vm_compute; split; [discriminate|reflexivity]).
  assert ((7, "say", 1) ∉ db_locked ex_store) as H2
    by (apply (bool_decide_unpack _); vm_compute; exact I).
  split; [exact H1|]. split; [exact H2|].
  destruct (del_event_renumbers ex_store 7 "say" 1 ex_scripts H1 H2)
    as (ev & self' & Hev & Hdel & Hevents & _ & Hvalid & Hlocked & _).
  exists self'. vm_compute in Hev. injection Hev as <-.
  split; [exact Hdel|]. split; [exact Hevents|]. split; [exact Hvalid|exact Hlocked].
Defined.

Lemma del_event_lock_before_lookup_witness :
  ((7, "say", 5) ∈ db_locked ex_store
   /\ events_of ex_store 7 "say" !! 5%nat = None
   /\ del_event ex_store 7 "say" 5 ex_scripts =
      (Raised (RuntimeError "this event is locked."), ex_store, ex_scripts, []))
  /\ (((7, "say", 3) ∉ db_locked ex_store)
      /\ del_event ex_store 7 "say" 3 ex_scripts = (Returned (), ex_store, ex_scripts, [])).
Proof.
  assert ((7, "say", 5) ∈ db_locked ex_store) as H1
    by (apply (bool_decide_unpack _); vm_compute; exact I).
  assert ((7, "say", 3) ∉ db_locked ex_store) as H2
    by (apply (bool_decide_unpack _); vm_compute; exact I).
  assert (Z.of_nat (length (events_of ex_store 7 "say")) <= 3
          \/ 3 < - Z.of_nat (length (events_of ex_store 7 "say"))) as H3
    by (left; vm_compute; discriminate).
  destruct (del_event_lock_before_lookup ex_store 7 "say" 5 ex_scripts) as [Hlocked _].
  destruct (del_event_lock_before_lookup ex_store 7 "say" 3 ex_scripts) as [_ Hfree].
  split.
  - split; [exact H1|]. split; [reflexivity|]. exact (Hlocked H1).
  - split; [exact H2|]. exact (Hfree H2 H3).
Defined.

(** * The dispatch loop: [call_event] *)

Section Dispatch.

Variable type_of : Z -> typeclass.
Variable exec_code : string -> gmap string pyvalue -> exec_result.

(** The loop over [pre ++ post] is the loop over [post] started from the
    state the loop over [pre] leaves, unless [pre] is interrupted. *)
Lemma run_events_app (obj : Z) (event_name : string) (pre post : list event_def) :
  forall number locals,
    run_events exec_code obj event_name (pre ++ post) number locals =
    match loop_state exec_code obj event_name pre number locals with
    | Some (number1, locals1, effects1) =>
        let '(completed, locals2, effects2) :=
          run_events exec_code obj event_name post number1 locals1 in
        (completed, locals2, effects1 ++ effects2)
    | None => run_events exec_code obj event_name pre number locals
    end.
Proof.
  induction pre as [|e pre IH]; intros number locals.
  - cbn. by destruct (run_events _ _ _ _ _ _) as [[? ?] ?].
  - cbn [app run_events loop_state].
    destruct (negb (ev_valid (ed_event e))); [apply IH|].
    destruct (negb (py_is_none number) && py_int_ne (ed_number e) number); [apply IH|].
    destruct (exec_code (ev_code (ed_event e)) locals) as [l1|l1|l1 evalue trace].
    + rewrite IH.
      destruct (loop_state _ _ _ _ _ _) as [[[n2 l2] eff2]|]; [|reflexivity].
      by destruct (run_events _ _ _ post _ _) as [[? ?] ?].
    + reflexivity.
    + destruct (locate_error _ _ _ _) as [lineno line]. rewrite IH.
      destruct (loop_state _ _ _ _ _ _) as [[[n2 l2] eff2]|]; [|reflexivity].
      by destruct (run_events _ _ _ post _ _) as [[? ?] ?].
Qed.

(** An interrupt ends the loop at once. *)
Lemma run_events_interrupt (obj : Z) (event_name : string) (e : event_def)
    (post : list event_def) (number : pyvalue) (locals locals' : gmap string pyvalue) :
  selected e number = true ->
  exec_code (ev_code (ed_event e)) locals = ExecInterrupt locals' ->
  run_events exec_code obj event_name (e :: post) number locals =
  (false, locals', [EExec obj event_name (ed_number e) (ev_code (ed_event e))]).
Proof.
  unfold selected. intros Hsel Hexec. apply andb_prop in Hsel as [Hvalid Hnum].
  cbn [run_events]. rewrite Hvalid. cbn [negb].
  destruct (negb (py_is_none number) && py_int_ne (ed_number e) number) eqn:Hskip.
  - apply andb_prop in Hskip as [H1 H2]. rewrite H2 in Hnum.
    apply negb_true_iff in H1. rewrite H1 in Hnum. discriminate.
  - by rewrite Hexec.
Qed.

(** Once its [number] variable holds an integer, the loop passes over
    every event of another number. *)
Lemma run_events_other_numbers (obj : Z) (event_name : string) (n : Z)
    (events : list event_def) (locals : gmap string pyvalue) :
  (forall e, e ∈ events -> ed_number e <> n) ->
  run_events exec_code obj event_name events (PyInt n) locals = (true, locals, []).
Proof.
  induction events as [|e events IH]; intros Hne; [reflexivity|].
  cbn [run_events]. destruct (negb (ev_valid (ed_event e))).
  - apply IH. intros e' He'. apply Hne. set_solver.
  - cbn [py_is_none negb py_int_ne andb].
    assert (ed_number e <> n) as Hn by (apply Hne; set_solver).
    apply Z.eqb_neq in Hn. rewrite Hn. cbn [negb].
    apply IH. intros e' He'. apply Hne. set_solver.
Qed.

(** A fault stores the number of the faulting event in the loop's
    [number] variable: the events after it that carry another number are
    passed over. *)
Lemma run_events_fault_skips_rest (obj : Z) (event_name : string) (e : event_def)
    (post : list event_def) (number : pyvalue) (locals locals' : gmap string pyvalue)
    (evalue : string) (trace : list string) :
  selected e number = true ->
  exec_code (ev_code (ed_event e)) locals = ExecError locals' evalue trace ->
  (forall e', e' ∈ post -> ed_number e' <> ed_number e) ->
  exists lineno line,
    run_events exec_code obj event_name (e :: post) number locals =
    (true, locals',
     [EExec obj event_name (ed_number e) (ev_code (ed_event e));
      ELogErrEventError event_name obj obj (ed_number e + 1) trace;
      EChannelMsg event_name obj obj (ed_number e + 1) lineno line evalue]).
Proof.
  unfold selected. intros Hsel Hexec Hpost. apply andb_prop in Hsel as [Hvalid Hnum].
  cbn [run_events]. rewrite Hvalid. cbn [negb].
  destruct (negb (py_is_none number) && py_int_ne (ed_number e) number) eqn:Hskip.
  - apply andb_prop in Hskip as [H1 H2]. rewrite H2 in Hnum.
    apply negb_true_iff in H1. rewrite H1 in Hnum. discriminate.
  - rewrite Hexec. destruct (locate_error _ _ _ _) as [lineno line].
    rewrite run_events_other_numbers by exact Hpost. eauto.
Qed.

End Dispatch.

Lemma executed_app (effects1 effects2 : list effect) :
  executed (effects1 ++ effects2) = executed effects1 ++ executed effects2.
Proof. unfold executed. apply flat_map_app. Qed.

(** C6. An interrupt stops the loop at once and the call returns
    [False]: whatever was executed before the interrupting event, nothing
    is executed after it.  With three valid fragments of which the first
    completes and the second interrupts, the interpreter is given the
    first and the second fragment and never the third. *)
Theorem call_event_interrupt_stops
    (type_of : Z -> typeclass)
    (exec_code : string -> gmap string pyvalue -> exec_result)
    (self : EventHandler) (obj : Z) (event_name : string)
    (args : list pyvalue) (kwargs : gmap string pyvalue) :
  (forall pre e post number locals number1 locals1 effects1 locals2,
     call_event_prepare type_of self obj event_name args kwargs =
       inr (pre ++ e :: post, number, locals) ->
     loop_state exec_code obj event_name pre number locals =
       Some (number1, locals1, effects1) ->
     selected e number1 = true ->
     exec_code (ev_code (ed_event e)) locals1 = ExecInterrupt locals2 ->
     exists effects,
       call_event type_of exec_code self obj event_name args kwargs =
         (Returned false, set_ndb_current_locals locals2 self, effects)
       /\ executed effects =
          executed effects1 ++ [(obj, event_name, ed_number e, ev_code (ed_event e))])
  /\ (forall e0 e1 e2 locals locals1 locals2,
        call_event_prepare type_of self obj event_name args kwargs =
          inr ([e0; e1; e2], PyNone, locals) ->
        ev_valid (ed_event e0) = true ->
        ev_valid (ed_event e1) = true ->
        ev_valid (ed_event e2) = true ->
        exec_code (ev_code (ed_event e0)) locals = ExecDone locals1 ->
        exec_code (ev_code (ed_event e1)) locals1 = ExecInterrupt locals2 ->
        call_event type_of exec_code self obj event_name args kwargs =
          (Returned false, set_ndb_current_locals locals2 self,
           [EExec obj event_name (ed_number e0) (ev_code (ed_event e0));
            EExec obj event_name (ed_number e1) (ev_code (ed_event e1))])).
Proof.
  split.
  - intros pre e post number locals number1 locals1 effects1 locals2
      Hprep Hpre Hsel Hexec.
    unfold call_event. rewrite Hprep, run_events_app, Hpre.
    rewrite (run_events_interrupt exec_code obj event_name e post number1 locals1 locals2)
      by assumption.
    eexists. split; [reflexivity|]. by rewrite executed_app.
  - intros e0 e1 e2 locals locals1 locals2 Hprep Hv0 Hv1 Hv2 Hexec0 Hexec1.
    unfold call_event. rewrite Hprep. cbn [run_events].
    rewrite Hv0, Hv1. cbn [negb py_is_none andb]. by rewrite Hexec0, Hexec1.
Qed.

Lemma call_event_interrupt_stops_witness :
  call_event_prepare ex_type_of ex_interrupt 3 "foo" [PyObject 9; PyObject 4] ∅ =
    inr ([ex_numbered 0 "x = 1"; ex_numbered 1 "raise InterruptEvent()";
          ex_numbered 2 "y = 2"], PyNone, ex_bound_locals)
  /\ ex_exec "x = 1" ex_bound_locals =
     ExecDone (<["ran" := PyStr "x = 1"]> ex_bound_locals)
  /\ ex_exec "raise InterruptEvent()" (<["ran" := PyStr "x = 1"]> ex_bound_locals) =
     ExecInterrupt (<["ran" := PyStr "x = 1"]> ex_bound_locals)
  /\ call_event ex_type_of ex_exec ex_interrupt 3 "foo" [PyObject 9; PyObject 4] ∅ =
     (Returned false,
      set_ndb_current_locals (<["ran" := PyStr "x = 1"]> ex_bound_locals) ex_interrupt,
      [EExec 3 "foo" 0 "x = 1"; EExec 3 "foo" 1 "raise InterruptEvent()"]).
Proof.
  assert (call_event_prepare ex_type_of ex_interrupt 3 "foo" [PyObject 9; PyObject 4] ∅ =
            inr ([ex_numbered 0 "x = 1"; ex_numbered 1 "raise InterruptEvent()";
                  ex_numbered 2 "y = 2"], PyNone, ex_bound_locals)) as H1
    by (vm_compute; reflexivity).
  assert (ex_exec "x = 1" ex_bound_locals =
            ExecDone (<["ran" := PyStr "x = 1"]> ex_bound_locals)) as H2
    by (vm_compute; reflexivity).
  assert (ex_exec "raise InterruptEvent()" (<["ran" := PyStr "x = 1"]> ex_bound_locals) =
            ExecInterrupt (<["ran" := PyStr "x = 1"]> ex_bound_locals)) as H3
    by (vm_compute; reflexivity).
  do 3 (split; [assumption|]).
  exact (proj2 (call_event_interrupt_stops ex_type_of ex_exec ex_interrupt 3 "foo"
                  [PyObject 9; PyObject 4] ∅)
           (ex_numbered 0 "x = 1") (ex_numbered 1 "raise InterruptEvent()")
           (ex_numbered 2 "y = 2") _ _ _ H1 eq_refl eq_refl eq_refl H2 H3).
Defined.

Lemma bind_variables_short (variables : list string) (args : list pyvalue) :
  forall i locals,
    (i <= length args)%nat ->
    (length args < i + length variables)%nat ->
    exists variable,
      variables !! (length args - i)%nat = Some variable
      /\ bind_variables i variables args locals = inl (variable, length args).
Proof.
  induction variables as [|v variables IH]; intros i locals Hi Hshort.
  - simpl in Hshort. lia.
  - cbn [bind_variables]. destruct (args !! i) as [value|] eqn:Harg.
    + apply lookup_lt_Some in Harg.
      destruct (IH (S i) (<[v := value]> locals)) as (variable & Hvar & Hbind);
        [lia|simpl in Hshort; lia|].
      exists variable. split; [|exact Hbind].
      replace (length args - i)%nat with (S (length args - S i)) by lia. exact Hvar.
    + apply lookup_ge_None in Harg. assert (i = length args) as -> by lia.
      exists v. by rewrite Nat.sub_diag.
Qed.

(** C7. Called without the [locals] keyword for an event type that
    declares more variables than positional arguments are given,
    [call_event] returns [False] once it has logged the first variable
    without a value: the handler is as it was and the interpreter was
    given nothing. *)
Theorem call_event_missing_argument
    (type_of : Z -> typeclass)
    (exec_code : string -> gmap string pyvalue -> exec_result)
    (self : EventHandler) (obj : Z) (event_name : string)
    (args : list pyvalue) (kwargs : gmap string pyvalue)
    (event_type : etype) (variables : list string) :
  unknown_keyword kwargs = false ->
  kwargs_get kwargs "locals" = PyNone ->
  get_event_types type_of self obj !! event_name = Some event_type ->
  et_variables event_type = Some variables ->
  (length args < length variables)%nat ->
  exists variable effects,
    variables !! length args = Some variable
    /\ effects = [ELogTraceNeedVariable event_name obj variable (length args)]
    /\ call_event type_of exec_code self obj event_name args kwargs =
       (Returned false, self, effects)
    /\ executed effects = [].
Proof.
  intros Hkw Hlocals Htype Hvars Hshort.
  destruct (bind_variables_short variables args 0 (ndb_fresh_locals self))
    as (variable & Hvar & Hbind); [lia|lia|].
  rewrite Nat.sub_0_r in Hvar.
  exists variable, [ELogTraceNeedVariable event_name obj variable (length args)].
  split; [exact Hvar|]. split; [reflexivity|]. split; [|reflexivity].
  unfold call_event, call_event_prepare. cbv zeta.
  rewrite Hkw, Hlocals, Htype. cbn [py_is_none andb].
  rewrite bool_decide_false by done. cbn [andb].
  destruct event_type as [vars help custom_add custom_call]. cbn in Hvars. subst vars.
  by rewrite Hbind.
Qed.

Lemma call_event_missing_argument_witness :
  unknown_keyword ∅ = false
  /\ kwargs_get ∅ "locals" = PyNone
  /\ get_event_types ex_type_of ex_fault 3 !! "foo" = Some ex_foo
  /\ et_variables ex_foo = Some ["character"; "room"]
  /\ (length [PyObject 9] < length ["character"; "room"])%nat
  /\ call_event ex_type_of ex_exec ex_fault 3 "foo" [PyObject 9] ∅ =
     (Returned false, ex_fault, [ELogTraceNeedVariable "foo" 3 "room" 1]).
Proof.
  assert (unknown_keyword ∅ = false) as H1 by reflexivity.
  assert (kwargs_get ∅ "locals" = PyNone) as H2 by reflexivity.
  assert (get_event_types ex_type_of ex_fault 3 !! "foo" = Some ex_foo) as H3
    by (vm_compute; reflexivity).
  assert (et_variables ex_foo = Some ["character"; "room"]) as H4 by reflexivity.
  assert (length [PyObject 9] < length ["character"; "room"])%nat as H5
    by (simpl; lia).
  do 5 (split; [assumption|]).
  destruct (call_event_missing_argument ex_type_of ex_exec ex_fault 3 "foo"
              [PyObject 9] ∅ ex_foo ["character"; "room"] H1 H2 H3 H4 H5)
    as (variable & effects & Hvar & -> & Hcall & _).
  cbn in Hvar. injection Hvar as <-. exact Hcall.
Defined.

(** C1. At three valid fragments of which the second raises an error
    that is not the interrupt, [call_event] returns [True] and sends one
    message to the error channel, for fragment number 2; but the handler
    of the error has stored the number of the faulting fragment in the
    [number] variable the loop filters on, and the third fragment is
    passed over: the interpreter is given the first two fragments only. *)
Theorem call_event_fault_skips_third :
  exists self' effects,
    call_event ex_type_of ex_exec ex_fault 3 "foo" [PyObject 9; PyObject 4] ∅ =
      (Returned true, self', effects)
    /\ events_of ex_fault 3 "foo" =
       [ex_event "x = 1"; ex_event "raise ValueError()"; ex_event "y = 2"]
    /\ executed effects = [(3, "foo", 0, "x = 1"); (3, "foo", 1, "raise ValueError()")]
    /\ channel_messages effects = [("foo", 3, 2)]
    /\ effects =
       [ EExec 3 "foo" 0 "x = 1";
         EExec 3 "foo" 1 "raise ValueError()";
         ELogErrEventError "foo" 3 3 2
           [ "Traceback (most recent call last):";
             file_string_line +:+ "1, in <module>";
             "ValueError" ];
         EChannelMsg "foo" 3 3 2 (Some 1) "raise ValueError()" "ValueError()" ].
Proof.
  eexists _, _. split; [vm_compute; reflexivity|].
  repeat split; vm_compute; reflexivity.
Qed.

Lemma unknown_keyword_named (kwargs : gmap string pyvalue) (k : string) :
  is_Some (kwargs !! k) -> k ∉ allowed -> k <> EmptyString ->
  unknown_keyword kwargs = true.
Proof.
  intros [v Hv] Hk Hne. unfold unknown_keyword.
  apply existsb_exists. exists k. split.
  - apply list_elem_of_In, list_elem_of_filter. split; [exact Hk|].
    apply list_elem_of_In, in_map_iff. exists (k, v). split; [reflexivity|].
    apply list_elem_of_In. by apply elem_of_map_to_list.
  - by destruct k.
Qed.

(** A keyword with a name that is neither empty nor allowed raises
    [TypeError] before anything else happens. *)
Lemma call_event_unknown_keyword
    (type_of : Z -> typeclass)
    (exec_code : string -> gmap string pyvalue -> exec_result)
    (self : EventHandler) (obj : Z) (event_name : string)
    (args : list pyvalue) (kwargs : gmap string pyvalue) (k : string) :
  is_Some (kwargs !! k) -> k ∉ allowed -> k <> EmptyString ->
  call_event type_of exec_code self obj event_name args kwargs =
  (Raised (TypeError "Unknown keyword arguments were specified to call events"),
   self, []).
Proof.
  intros Hk Hallowed Hne. unfold call_event, call_event_prepare. cbv zeta.
  by rewrite (unknown_keyword_named kwargs k).
Qed.

(** C9. A keyword argument whose name is the empty string is none of
    ["number"], ["parameters"], ["locals"], yet the test
    [any(k for k in kwargs if k not in allowed)] is false for it: the
    call raises nothing, resolves the event type and executes the
    fragment. *)
Theorem call_event_empty_keyword_not_refused :
  is_Some (({[ EmptyString := PyInt 1 ]} : gmap string pyvalue) !! EmptyString)
  /\ (EmptyString ∉ allowed)
  /\ unknown_keyword {[ EmptyString := PyInt 1 ]} = false
  /\ call_event ex_type_of ex_exec (ex_dispatch ["x = 1"]) 3 "foo"
       [PyObject 9; PyObject 4] {[ EmptyString := PyInt 1 ]} =
     (Returned true,
      set_ndb_current_locals (<["ran" := PyStr "x = 1"]> ex_bound_locals)
        (ex_dispatch ["x = 1"]),
      [EExec 3 "foo" 0 "x = 1"]).
Proof.
  split; [by eexists|].
  split; [apply (bool_decide_unpack _); vm_compute; exact I|].
  split; vm_compute; reflexivity.
Qed.

(** * The task scheduler: [set_task], [at_start], [complete_task] *)

Lemma call_event_prepare_locals (type_of : Z -> typeclass) (self : EventHandler)
    (obj : Z) (event_name : string) (d : gmap string pyvalue) :
  call_event_prepare type_of self obj event_name [] {[ "locals" := PyDict d ]} =
  inr (events_to_call self obj event_name
         (get_event_types type_of self obj !! event_name) PyNone,
       PyNone, d).
Proof.
  unfold call_event_prepare. cbv zeta.
  assert (unknown_keyword {[ "locals" := PyDict d ]} = false) as ->.
  { unfold unknown_keyword. rewrite map_to_list_singleton. reflexivity. }
  unfold kwargs_get. rewrite lookup_singleton_eq.
  rewrite !lookup_singleton_ne by done. reflexivity.
Qed.

(** C5. Completing a stored task removes its record and dispatches the
    stored event once, the loop starting from the stored namespace;
    completing the same id again finds no record: the miss is logged,
    nothing is dispatched and the handler is as the first call left it. *)
Theorem complete_task_pops
    (type_of : Z -> typeclass)
    (exec_code : string -> gmap string pyvalue -> exec_result)
    (script : EventHandler) (task_id future obj : Z) (event_name : string)
    (locals : gmap string pyvalue) :
  db_tasks script !! task_id = Some (future, obj, event_name, locals) ->
  exists popped completed locals' effects,
    popped = set_db_tasks (delete task_id (db_tasks script)) script
    /\ run_events exec_code obj event_name
         (events_to_call popped obj event_name
            (get_event_types type_of popped obj !! event_name) PyNone)
         PyNone locals = (completed, locals', effects)
    /\ call_event type_of exec_code popped obj event_name []
         {[ "locals" := PyDict locals ]} =
       (Returned completed, set_ndb_current_locals locals' popped, effects)
    /\ complete_task type_of exec_code (Some script) task_id =
       (Some (set_ndb_current_locals locals' popped), effects)
    /\ db_tasks (set_ndb_current_locals locals' popped) = delete task_id (db_tasks script)
    /\ complete_task type_of exec_code
         (Some (set_ndb_current_locals locals' popped)) task_id =
       (Some (set_ndb_current_locals locals' popped), [ELogErrTaskNotFound task_id])
    /\ executed [ELogErrTaskNotFound task_id] = [].
Proof.
  intros Htask.
  set (popped := set_db_tasks (delete task_id (db_tasks script)) script).
  destruct (run_events exec_code obj event_name
              (events_to_call popped obj event_name
                 (get_event_types type_of popped obj !! event_name) PyNone)
              PyNone locals) as [[completed locals'] effects] eqn:Hrun.
  exists popped, completed, locals', effects.
  assert (call_event type_of exec_code popped obj event_name []
            {[ "locals" := PyDict locals ]} =
          (Returned completed, set_ndb_current_locals locals' popped, effects)) as Hcall.
  { unfold call_event. by rewrite call_event_prepare_locals, Hrun. }
  split; [reflexivity|]. split; [exact Hrun|]. split; [exact Hcall|].
  split.
  { unfold complete_task. rewrite Htask. fold popped. by rewrite Hcall. }
  split; [reflexivity|]. split; [|reflexivity].
  unfold complete_task. cbn [set_ndb_current_locals db_tasks popped set_db_tasks].
  by rewrite lookup_delete_eq.
Qed.

Lemma complete_task_pops_witness :
  let script := set_db_tasks {[ 0 := (10, 3, "foo", ex_bound_locals) ]}
                  (ex_dispatch ["x = 1"]) in
  let after :=
    set_ndb_current_locals (<["ran" := PyStr "x = 1"]> ex_bound_locals)
      (ex_dispatch ["x = 1"]) in
  db_tasks script !! 0 = Some (10, 3, "foo", ex_bound_locals)
  /\ complete_task ex_type_of ex_exec (Some script) 0 =
     (Some after, [EExec 3 "foo" 0 "x = 1"])
  /\ complete_task ex_type_of ex_exec (Some after) 0 =
     (Some after, [ELogErrTaskNotFound 0]).
Proof.
  intros script after.
  assert (db_tasks script !! 0 = Some (10, 3, "foo", ex_bound_locals)) as H1
    by (vm_compute; reflexivity).
  split; [exact H1|].
  destruct (complete_task_pops ex_type_of ex_exec script 0 10 3 "foo" ex_bound_locals H1)
    as (popped & completed & locals' & effects & -> & Hrun & _ & Hfirst & _ & Hsecond & _).
  vm_compute in Hrun. injection Hrun as <- <- <-.
  split; [exact Hfirst|exact Hsecond].
Defined.

Section Snapshot.

Variable dbserialize : pyvalue -> option string.

Lemma freeze_loop_lookup (key : string) (l : list (string * pyvalue)) :
  forall acc : gmap string pyvalue,
    NoDup l.*1 ->
    foldl (fun locals '(key, value) =>
             match dbserialize value with
             | None => locals
             | Some _ => <[key := value]> locals
             end) acc l !! key =
    match (list_to_map l : gmap string pyvalue) !! key with
    | Some value =>
        match dbserialize value with
        | Some _ => Some value
        | None => acc !! key
        end
    | None => acc !! key
    end.
Proof.
  induction l as [|[k0 v0] l IH]; intros acc Hnd.
  - cbn. by rewrite lookup_empty.
  - apply NoDup_cons in Hnd as [Hk0 Hnd].
    assert ((list_to_map l : gmap string pyvalue) !! k0 = None) as Hnone
      by (by apply not_elem_of_list_to_map_1).
    cbn [foldl list_to_map foldr uncurry fst snd]. rewrite IH by done.
    destruct (decide (key = k0)) as [->|Hne].
    + rewrite lookup_insert_eq, Hnone.
      destruct (dbserialize v0); [by rewrite lookup_insert_eq|done].
    + rewrite lookup_insert_ne by done.
      destruct ((list_to_map l : gmap string pyvalue) !! key) as [v|];
        [destruct (dbserialize v); [done|]|];
        (destruct (dbserialize v0); [by rewrite lookup_insert_ne|done]).
Qed.

(** The frozen namespace holds the entries of the current namespace
    whose value [dbserialize] accepts, and no other. *)
Lemma freeze_locals_lookup (current_locals : gmap string pyvalue) (key : string)
    (value : pyvalue) :
  freeze_locals dbserialize current_locals !! key = Some value <->
  current_locals !! key = Some value /\ is_Some (dbserialize value).
Proof.
  unfold freeze_locals. rewrite freeze_loop_lookup by apply NoDup_fst_map_to_list.
  rewrite list_to_map_to_list, lookup_empty.
  destruct (current_locals !! key) as [v|].
  - destruct (dbserialize v) eqn:Hv; split.
    + intros [= ->]. split; [done|]. rewrite Hv. eauto.
    + by intros [[= ->] _].
    + discriminate.
    + intros [[= ->] [x Hx]]. congruence.
  - split; [discriminate|]. by intros [? _].
Qed.

(** C8. [set_task] stores, under the id read from the counter, the
    fire time [now + seconds], the object, the event name and the
    entries of the current namespace that [dbserialize] accepts: an entry
    it refuses is left out and the record is stored all the same.  The
    counter moves up by one, so the id is new as long as stored ids are
    below the counter.  The record is stored before the timer is armed:
    whatever the timer facility is, it is called once, with the delay and
    that id, on the handler that already holds the record; and a facility
    that fires at once finds the record and dispatches the event from the
    snapshot. *)
Theorem set_task_stores_before_arming
    (type_of : Z -> typeclass)
    (exec_code : string -> gmap string pyvalue -> exec_result)
    (self : EventHandler) (now seconds obj : Z) (event_name : string) :
  exists snapshot stored,
    store_task dbserialize self now seconds obj event_name = (stored, db_task_id self)
    /\ db_tasks stored !! db_task_id self = Some (now + seconds, obj, event_name, snapshot)
    /\ (forall other, other <> db_task_id self ->
          db_tasks stored !! other = db_tasks self !! other)
    /\ (forall key value,
          snapshot !! key = Some value <->
          ndb_current_locals self !! key = Some value /\ is_Some (dbserialize value))
    /\ db_task_id stored = db_task_id self + 1
    /\ (tasks_below_counter self ->
        db_tasks self !! db_task_id self = None /\ tasks_below_counter stored)
    /\ (forall delay : timer_facility,
          set_task_with dbserialize delay self now seconds obj event_name
          = delay seconds (db_task_id self) stored)
    /\ set_task dbserialize self now seconds obj event_name
       = set_task_with dbserialize record_timer self now seconds obj event_name
    /\ set_task dbserialize self now seconds obj event_name
       = (stored, [EDelay seconds (db_task_id self)])
    /\ (exists completed finished effects,
          call_event type_of exec_code
            (set_db_tasks (delete (db_task_id self) (db_tasks stored)) stored)
            obj event_name [] {[ "locals" := PyDict snapshot ]}
          = (Returned completed, finished, effects)
          /\ set_task_with dbserialize (fire_at_once type_of exec_code)
               self now seconds obj event_name
             = (finished, EDelay seconds (db_task_id self) :: effects)).
Proof.
  exists (freeze_locals dbserialize (ndb_current_locals self)).
  eexists. split; [reflexivity|].
  cbn [db_tasks db_task_id set_db_tasks set_db_task_id ndb_current_locals].
  split; [by rewrite lookup_insert_eq|].
  split; [by intros other Hne; rewrite lookup_insert_ne|].
  split; [apply freeze_locals_lookup|].
  split; [reflexivity|].
  split.
  { intros Hbelow. split.
    - destruct (db_tasks self !! db_task_id self) eqn:Hid; [|done].
      assert (db_task_id self < db_task_id self) by (apply Hbelow; eauto). lia.
    - intros task_id. unfold tasks_below_counter in Hbelow.
      cbn [db_tasks db_task_id set_db_tasks set_db_task_id].
      destruct (decide (task_id = db_task_id self)) as [->|Hne].
      + lia.
      + rewrite lookup_insert_ne by done. intros H. apply Hbelow in H. lia. }
  split; [intros delay; reflexivity|].
  split; [reflexivity|]. split; [reflexivity|].
  unfold set_task_with, store_task, fire_at_once, complete_task. cbv zeta.
  cbn [db_tasks db_task_id set_db_tasks set_db_task_id ndb_current_locals].
  rewrite lookup_insert_eq.
  destruct (call_event type_of exec_code _ obj event_name [] _)
    as [[result finished] effects] eqn:Hcall.
  assert (exists completed, result = Returned completed) as [completed ->].
  { revert Hcall. unfold call_event. rewrite call_event_prepare_locals.
    destruct (run_events _ _ _ _ _ _) as [[completed locals'] effects'].
    intros [= <- _ _]. by exists completed. }
  exists completed, finished, effects. split; reflexivity.
Qed.

End Snapshot.

Lemma set_task_stores_before_arming_witness :
  let self :=
    set_ndb_current_locals
      {[ "character" := PyObject 9; "helper" := PyCallable "helper" ]}
      (ex_dispatch ["x = 1"]) in
  exists stored finished,
    store_task ex_dbserialize self 1000 (seconds_us 10) 3 "foo" = (stored, 0)
    /\ db_tasks stored !! 0 =
       Some (1000 + seconds_us 10, 3, "foo", {[ "character" := PyObject 9 ]})
    /\ set_task ex_dbserialize self 1000 (seconds_us 10) 3 "foo" =
       (stored, [EDelay (seconds_us 10) 0])
    /\ set_task_with ex_dbserialize (fire_at_once ex_type_of ex_exec)
         self 1000 (seconds_us 10) 3 "foo" =
       (finished, [EDelay (seconds_us 10) 0; EExec 3 "foo" 0 "x = 1"])
    /\ tasks_below_counter stored.
Proof.
  intros self.
  assert (tasks_below_counter self) as H1.
  { intros task_id [x Hx]. vm_compute in Hx. destruct task_id; discriminate. }
  destruct (set_task_stores_before_arming ex_dbserialize ex_type_of ex_exec
              self 1000 (seconds_us 10) 3 "foo")
    as (snapshot & stored & Hstore & Hrecord & _ & _ & _ & Hfresh & _ & _ & Hset
        & completed & finished & effects & Hcall & Hfire).
  exists stored, finished.
  split; [exact Hstore|].
  assert (snapshot = {[ "character" := PyObject 9 ]}) as Hsnapshot.
  { vm_compute in Hstore. injection Hstore as <-.
    vm_compute in Hrecord. injection Hrecord as <-. vm_compute. reflexivity. }
  split; [etrans; [exact Hrecord|]; rewrite Hsnapshot; reflexivity|].
  split; [exact Hset|].
  split; [|exact (proj2 (Hfresh H1))].
  rewrite Hfire.
  assert (effects = [EExec 3 "foo" 0 "x = 1"]) as ->; [|reflexivity].
  vm_compute in Hstore. injection Hstore as <-. subst snapshot.
  vm_compute in Hcall. by injection Hcall as _ _ <-.
Defined.

Lemma timers_for_restart (now task_id : Z)
    (l : list (Z * (Z * Z * string * gmap string pyvalue))) :
  NoDup l.*1 ->
  timers_for task_id
    (map (fun '(task_id, definition) =>
            let '(future, obj, event_name, locals) := definition in
            let seconds := future - now in
            let seconds := if bool_decide (seconds < 0) then 0 else seconds in
            EDelay seconds task_id) l) =
  match (list_to_map l : gmap Z (Z * Z * string * gmap string pyvalue)) !! task_id with
  | Some (future, _, _, _) => [Z.max 0 (future - now)]
  | None => []
  end.
Proof.
  induction l as [|[k0 [[[future obj] event_name] locals]] l IH]; intros Hnd.
  - reflexivity.
  - apply NoDup_cons in Hnd as [Hk0 Hnd].
    assert ((list_to_map l : gmap Z (Z * Z * string * gmap string pyvalue)) !! k0 = None)
      as Hnone by (by apply not_elem_of_list_to_map_1).
    cbn [map list_to_map foldr uncurry fst snd].
    unfold timers_for in *. cbn [flat_map]. rewrite IH by done.
    destruct (decide (k0 = task_id)) as [->|Hne].
    + rewrite bool_decide_true by done. rewrite lookup_insert_eq, Hnone.
      case_bool_decide; cbn [app]; f_equal; lia.
    + rewrite bool_decide_false by done. by rewrite lookup_insert_ne.
Qed.

Lemma restart_tasks_timers (self : EventHandler) (now task_id : Z) :
  timers_for task_id (restart_tasks self now) =
  match db_tasks self !! task_id with
  | Some (future, _, _, _) => [Z.max 0 (future - now)]
  | None => []
  end.
Proof.
  unfold restart_tasks. rewrite timers_for_restart by apply NoDup_fst_map_to_list.
  by rewrite list_to_map_to_list.
Qed.

(** C4. [at_start] keeps every stored task and arms, for each of them,
    one timer of [max 0 (fire time - now)]; it arms no timer for an id
    that is not stored and nothing but these timers.  A task set with a
    delay of 10 seconds is armed again with 0 when the handler starts 15
    seconds later, and with 7 seconds when it starts 3 seconds later. *)
Theorem at_start_rearms_tasks :
  (forall self now connected helpers,
     exists self' effects,
       at_start self now connected helpers = (self', effects)
       /\ db_tasks self' = db_tasks self
       /\ (forall task_id future obj event_name locals,
             db_tasks self !! task_id = Some (future, obj, event_name, locals) ->
             timers_for task_id effects = [Z.max 0 (future - now)])
       /\ (forall task_id,
             db_tasks self !! task_id = None -> timers_for task_id effects = [])
       /\ length effects = size (db_tasks self)
       /\ executed effects = [])
  /\ (forall dbserialize self t0 obj event_name connected helpers,
        let armed := (set_task dbserialize self t0 (seconds_us 10) obj event_name).1 in
        timers_for (db_task_id self)
          (at_start armed (t0 + seconds_us 15) connected helpers).2 = [0]
        /\ timers_for (db_task_id self)
             (at_start armed (t0 + seconds_us 3) connected helpers).2 = [seconds_us 7]).
Proof.
  split.
  - intros self now connected helpers. eexists _, _. split; [reflexivity|].
    split; [reflexivity|]. cbn [db_tasks].
    change (restart_tasks _ now) with (restart_tasks self now).
    split; [|split; [|split]].
    + intros task_id future obj event_name locals Htask.
      by rewrite restart_tasks_timers, Htask.
    + intros task_id Htask. by rewrite restart_tasks_timers, Htask.
    + unfold restart_tasks. by rewrite length_map, length_map_to_list.
    + unfold restart_tasks, executed.
      induction (map_to_list (db_tasks self)) as [|[k [[[f o] n] l]] rest IH];
        [reflexivity|exact IH].
  - intros dbserialize self t0 obj event_name connected helpers armed.
    assert (forall now,
               timers_for (db_task_id self) (at_start armed now connected helpers).2
               = [Z.max 0 (t0 + seconds_us 10 - now)]) as Harmed.
    { intros now. cbn [at_start snd].
      change (restart_tasks _ now) with (restart_tasks armed now).
      rewrite restart_tasks_timers. subst armed.
      cbn [set_task store_task fst db_tasks set_db_tasks].
      by rewrite lookup_insert_eq. }
    rewrite !Harmed. unfold seconds_us. split; f_equal; lia.
Qed.

(** * Further properties of the type registry and of [get_events] *)

Lemma first_declaration_found (event_types : gmap string (gmap string etype))
    (classes : list typeclass) (key : string) (e : etype) :
  first_declaration event_types classes key = Some e ->
  exists tc, tc ∈ classes /\ declarations event_types tc !! key = Some e.
Proof.
  induction classes as [|tc rest IH]; [discriminate|].
  cbn [first_declaration]. destruct (declarations event_types tc !! key) eqn:Hd.
  - intros [= ->]. exists tc. split; [set_solver|done].
  - intros H. destruct (IH H) as (tc' & Hin & Hdecl). exists tc'. split; [set_solver|done].
Qed.

Lemma first_declaration_none (event_types : gmap string (gmap string etype))
    (classes : list typeclass) (key : string) :
  (forall tc, tc ∈ classes -> declarations event_types tc !! key = None) ->
  first_declaration event_types classes key = None.
Proof.
  induction classes as [|tc rest IH]; intros Hnone; [reflexivity|].
  cbn [first_declaration]. rewrite (Hnone tc) by set_solver.
  apply IH. intros tc' Hin. apply Hnone. set_solver.
Qed.

(** A resolved event type is never the invalidating declaration. *)
Lemma get_event_types_variables (type_of : Z -> typeclass) (self : EventHandler)
    (obj : Z) (key : string) (e : etype) :
  get_event_types type_of self obj !! key = Some e -> is_Some (et_variables e).
Proof.
  rewrite get_event_types_lookup. unfold adopted.
  destruct (first_declaration _ _ _) as [d|]; [|discriminate].
  destruct (et_variables d) eqn:Hv; [|discriminate]. intros [= <-]. rewrite Hv. eauto.
Qed.

(** X1. What [get_event_types] returns for a name is a declaration of
    that name by a class of the object's ancestry, and never the
    invalidating declaration; a name that no class of the ancestry
    declares is not returned. *)
Theorem get_event_types_sound (type_of : Z -> typeclass) (self : EventHandler)
    (obj : Z) (key : string) :
  (forall e,
     get_event_types type_of self obj !! key = Some e ->
     is_Some (et_variables e)
     /\ exists tc,
          tc ∈ breadth_first (tc_size (type_of obj)) [type_of obj]
          /\ declarations (ndb_event_types self) tc !! key = Some e)
  /\ ((forall tc,
         tc ∈ breadth_first (tc_size (type_of obj)) [type_of obj] ->
         declarations (ndb_event_types self) tc !! key = None) ->
      get_event_types type_of self obj !! key = None).
Proof.
  split.
  - intros e He. split; [by eapply get_event_types_variables|].
    rewrite get_event_types_lookup in He. unfold adopted in He.
    destruct (first_declaration _ _ _) as [d|] eqn:Hd; [|discriminate].
    destruct (et_variables d); [|discriminate]. injection He as <-.
    by apply first_declaration_found.
  - intros Hnone. rewrite get_event_types_lookup.
    by rewrite first_declaration_none.
Qed.

Lemma get_event_types_sound_witness :
  (forall tc,
     tc ∈ breadth_first (tc_size (ex_type_of 3)) [ex_type_of 3] ->
     declarations (ndb_event_types ex_handler) tc !! "bar" = None)
  /\ get_event_types ex_type_of ex_handler 3 !! "bar" = None.
Proof.
  assert (forall tc,
            tc ∈ breadth_first (tc_size (ex_type_of 3)) [ex_type_of 3] ->
            declarations (ndb_event_types ex_handler) tc !! "bar" = None) as H.
  { intros tc Hin. vm_compute in Hin.
    repeat (apply elem_of_cons in Hin as [->|Hin]; [vm_compute; reflexivity|]).
    by apply elem_of_nil in Hin. }
  split; [exact H|].
  exact (proj2 (get_event_types_sound ex_type_of ex_handler 3 "bar") H).
Defined.

Lemma number_events_lookup (obj : Z) (event_name : string) (l : list event) (i : nat) :
  number_events obj event_name l !! i =
  (fun ev => EventDef ev obj event_name (Z.of_nat i)) <$> l !! i.
Proof. unfold number_events. apply list_lookup_imap. Qed.

Lemma get_events_lookup (self : EventHandler) (obj : Z) (event_name : string) :
  get_events self obj !! event_name =
  match events_of self obj event_name with
  | [] => None
  | _ :: _ => Some (number_events obj event_name (events_of self obj event_name))
  end.
Proof.
  unfold get_events, events_of. rewrite map_lookup_imap.
  destruct (default ∅ (db_events self !! obj) !! event_name) as [l|]; [|reflexivity].
  cbn [mbind option_bind from_option id]. destruct l; reflexivity.
Qed.

Lemma get_events_default (self : EventHandler) (obj : Z) (event_name : string) :
  default [] (get_events self obj !! event_name) =
  number_events obj event_name (events_of self obj event_name).
Proof.
  rewrite get_events_lookup. by destruct (events_of self obj event_name).
Qed.

(** X2. [get_events] lists an event name exactly when the object has at
    least one fragment under it, and then gives every fragment with the
    object, the name and its position in the stored list as number. *)
Theorem get_events_numbers_fragments (self : EventHandler) (obj : Z)
    (event_name : string) :
  (get_events self obj !! event_name = None <-> events_of self obj event_name = [])
  /\ (forall new_list,
        get_events self obj !! event_name = Some new_list ->
        length new_list = length (events_of self obj event_name)
        /\ forall i,
             new_list !! i =
             (fun ev => EventDef ev obj event_name (Z.of_nat i))
               <$> events_of self obj event_name !! i).
Proof.
  rewrite get_events_lookup.
  destruct (events_of self obj event_name) as [|ev l] eqn:Hl.
  - split; [done|]. discriminate.
  - split; [split; discriminate|].
    intros new_list [= <-]. split.
    + unfold number_events. by rewrite length_imap.
    + intros i. apply number_events_lookup.
Qed.

(** * Further properties of [call_event] *)

Lemma call_event_prepare_early (type_of : Z -> typeclass) (self : EventHandler)
    (obj : Z) (event_name : string) (args : list pyvalue)
    (kwargs : gmap string pyvalue) (result : outcome bool) (effects : list effect) :
  call_event_prepare type_of self obj event_name args kwargs = inl (result, effects) ->
  executed effects = [].
Proof.
  unfold call_event_prepare. cbv zeta.
  repeat case_match; intros Heq; simplify_eq; reflexivity.
Qed.

Lemma call_event_prepare_loop (type_of : Z -> typeclass) (self : EventHandler)
    (obj : Z) (event_name : string) (args : list pyvalue)
    (kwargs : gmap string pyvalue) (events : list event_def) (number : pyvalue)
    (locals : gmap string pyvalue) :
  call_event_prepare type_of self obj event_name args kwargs =
    inr (events, number, locals) ->
  events = events_to_call self obj event_name
             (get_event_types type_of self obj !! event_name)
             (kwargs_get kwargs "parameters")
  /\ number = kwargs_get kwargs "number".
Proof.
  unfold call_event_prepare. cbv zeta.
  repeat case_match; intros Heq; simplify_eq; done.
Qed.

(** X3. Called without the [locals] keyword for an event name the
    object's classes do not declare, [call_event] logs the missing event
    type and returns [False]: the handler is as it was and no fragment is
    executed, whatever fragments are stored under the name. *)
Theorem call_event_missing_event_type
    (type_of : Z -> typeclass)
    (exec_code : string -> gmap string pyvalue -> exec_result)
    (self : EventHandler) (obj : Z) (event_name : string)
    (args : list pyvalue) (kwargs : gmap string pyvalue) :
  unknown_keyword kwargs = false ->
  kwargs_get kwargs "locals" = PyNone ->
  get_event_types type_of self obj !! event_name = None ->
  call_event type_of exec_code self obj event_name args kwargs =
  (Returned false, self, [ELogErrNoEventType event_name obj]).
Proof.
  intros Hkw Hlocals Htype. unfold call_event, call_event_prepare. cbv zeta.
  rewrite Hkw, Hlocals, Htype. cbn [py_is_none andb].
  by rewrite bool_decide_true.
Qed.

Lemma call_event_missing_event_type_witness :
  unknown_keyword ∅ = false
  /\ kwargs_get ∅ "locals" = PyNone
  /\ get_event_types ex_type_of ex_store 7 !! "say" = None
  /\ events_of ex_store 7 "say" <> []
  /\ call_event ex_type_of ex_exec ex_store 7 "say" [] ∅ =
     (Returned false, ex_store, [ELogErrNoEventType "say" 7]).
Proof.
  assert (get_event_types ex_type_of ex_store 7 !! "say" = None) as H
    by (vm_compute; reflexivity).
  split; [reflexivity|]. split; [reflexivity|]. split; [exact H|].
  split; [discriminate|].
  exact (call_event_missing_event_type ex_type_of ex_exec ex_store 7 "say" [] ∅
           eq_refl eq_refl H).
Defined.

Section Loop.

Variable exec_code : string -> gmap string pyvalue -> exec_result.

(** What the loop executes are valid events of its list. *)
Lemma run_events_executes_valid (obj : Z) (event_name : string)
    (events : list event_def) :
  forall number locals x,
    x ∈ executed (run_events exec_code obj event_name events number locals).2 ->
    exists e, e ∈ events /\ ev_valid (ed_event e) = true
              /\ x = as_executed obj event_name e.
Proof.
  induction events as [|e events IH]; intros number locals x; cbn [run_events].
  - cbn. intros H. by apply elem_of_nil in H.
  - assert (forall number locals,
              x ∈ executed (run_events exec_code obj event_name events number locals).2 ->
              exists e', e' ∈ e :: events /\ ev_valid (ed_event e') = true
                         /\ x = as_executed obj event_name e') as IH'.
    { intros n l H. destruct (IH n l x H) as (e' & Hin & Hrest).
      exists e'. split; [set_solver|done]. }
    destruct (ev_valid (ed_event e)) eqn:Hvalid; cbn [negb]; [|apply IH'].
    destruct (negb (py_is_none number) && py_int_ne (ed_number e) number); [apply IH'|].
    assert (exists e', e' ∈ e :: events /\ ev_valid (ed_event e') = true
                       /\ as_executed obj event_name e = as_executed obj event_name e')
      as Hhead by (exists e; split; [set_solver|done]).
    destruct (exec_code (ev_code (ed_event e)) locals) as [l1|l1|l1 evalue trace].
    + specialize (IH' number l1).
      destruct (run_events _ _ _ events number l1) as [[c l2] effects].
      cbn in *. intros [->|H]%elem_of_cons; [exact Hhead|by apply IH'].
    + cbn. intros [->|H]%elem_of_cons; [exact Hhead|by apply elem_of_nil in H].
    + destruct (locate_error _ _ _ _) as [lineno line].
      specialize (IH' (PyInt (ed_number e)) l1).
      destruct (run_events _ _ _ events _ l1) as [[c l2] effects].
      cbn in *. intros [->|H]%elem_of_cons; [exact Hhead|by apply IH'].
Qed.

(** Started with an integer in [number], the loop executes events of
    that number only. *)
Lemma run_events_executes_number (obj : Z) (event_name : string) (n : Z)
    (events : list event_def) :
  forall locals o nm j c,
    (o, nm, j, c) ∈
      executed (run_events exec_code obj event_name events (PyInt n) locals).2 ->
    j = n.
Proof.
  induction events as [|e events IH]; intros locals o nm j c; cbn [run_events].
  - cbn. intros H. by apply elem_of_nil in H.
  - destruct (negb (ev_valid (ed_event e))); [apply IH|].
    cbn [py_is_none negb andb py_int_ne].
    destruct (ed_number e =? n) eqn:Hn; cbn [negb]; [|apply IH].
    apply Z.eqb_eq in Hn.
    destruct (exec_code (ev_code (ed_event e)) locals) as [l1|l1|l1 evalue trace].
    + specialize (IH l1 o nm j c).
      destruct (run_events _ _ _ events _ l1) as [[c' l2] effects].
      cbn in *. intros [[= -> -> -> ->]|H]%elem_of_cons; [done|by apply IH].
    + cbn. intros [[= -> -> -> ->]|H]%elem_of_cons; [done|by apply elem_of_nil in H].
    + destruct (locate_error _ _ _ _) as [lineno line]. rewrite Hn.
      specialize (IH l1 o nm j c).
      destruct (run_events _ _ _ events _ l1) as [[c' l2] effects].
      cbn in *. intros [[= -> -> -> ->]|H]%elem_of_cons; [done|by apply IH].
Qed.


End Loop.

Lemma call_event_effects (type_of : Z -> typeclass)
    (exec_code : string -> gmap string pyvalue -> exec_result)
    (self : EventHandler) (obj : Z) (event_name : string)
    (args : list pyvalue) (kwargs : gmap string pyvalue) (x : Z * string * Z * string) :
  x ∈ executed (call_event type_of exec_code self obj event_name args kwargs).2 ->
  exists locals,
    x ∈ executed
          (run_events exec_code obj event_name
             (events_to_call self obj event_name
                (get_event_types type_of self obj !! event_name)
                (kwargs_get kwargs "parameters"))
             (kwargs_get kwargs "number") locals).2.
Proof.
  unfold call_event.
  destruct (call_event_prepare type_of self obj event_name args kwargs)
    as [[result effects]|[[events number] locals]] eqn:Hprep.
  - cbn [snd]. rewrite (call_event_prepare_early _ _ _ _ _ _ _ _ Hprep).
    intros H. by apply elem_of_nil in H.
  - destruct (call_event_prepare_loop _ _ _ _ _ _ _ _ _ Hprep) as [-> ->].
    intros H. exists locals.
    by destruct (run_events _ _ _ _ _ _) as [[c l] effects].
Qed.

(** X5. Called with an integer as [number], [call_event] executes no
    fragment of another number, whether fragments fail or not and
    whatever list a [custom_call] hook returns. *)
Theorem call_event_number_selects
    (type_of : Z -> typeclass)
    (exec_code : string -> gmap string pyvalue -> exec_result)
    (self : EventHandler) (obj : Z) (event_name : string)
    (args : list pyvalue) (kwargs : gmap string pyvalue) (n : Z) :
  kwargs !! "number" = Some (PyInt n) ->
  forall o nm j c,
    (o, nm, j, c) ∈
      executed (call_event type_of exec_code self obj event_name args kwargs).2 ->
    j = n.
Proof.
  intros Hn o nm j c Hin.
  destruct (call_event_effects _ _ _ _ _ _ _ _ Hin) as [locals Hrun].
  unfold kwargs_get in Hrun at 2. rewrite Hn in Hrun. cbn [from_option id] in Hrun.
  by eapply run_events_executes_number.
Qed.

Lemma call_event_number_selects_witness :
  ({[ "number" := PyInt 2 ]} : gmap string pyvalue) !! "number" = Some (PyInt 2)
  /\ executed (call_event ex_type_of ex_exec ex_fault 3 "foo" [PyObject 9; PyObject 4]
                 {[ "number" := PyInt 2 ]}).2 = [(3, "foo", 2, "y = 2")]
  /\ forall o nm j c,
       (o, nm, j, c) ∈
         executed (call_event ex_type_of ex_exec ex_fault 3 "foo"
                     [PyObject 9; PyObject 4] {[ "number" := PyInt 2 ]}).2 ->
       j = 2.
Proof.
  split; [reflexivity|]. split; [vm_compute; reflexivity|].
  exact (call_event_number_selects ex_type_of ex_exec ex_fault 3 "foo"
           [PyObject 9; PyObject 4] {[ "number" := PyInt 2 ]} 2 eq_refl).
Defined.

(** X6. When the event type has no [custom_call] hook, every fragment
    [call_event] executes is a fragment stored for that object and event
    name, at the position given by its number, with the code stored
    there, and marked valid: a fragment awaiting validation is never
    executed. *)
Theorem call_event_executes_valid_stored
    (type_of : Z -> typeclass)
    (exec_code : string -> gmap string pyvalue -> exec_result)
    (self : EventHandler) (obj : Z) (event_name : string)
    (args : list pyvalue) (kwargs : gmap string pyvalue) :
  (forall e, get_event_types type_of self obj !! event_name = Some e ->
             et_custom_call e = None) ->
  forall o nm j c,
    (o, nm, j, c) ∈
      executed (call_event type_of exec_code self obj event_name args kwargs).2 ->
    o = obj /\ nm = event_name /\ 0 <= j
    /\ exists ev, events_of self obj event_name !! Z.to_nat j = Some ev
                  /\ ev_valid ev = true /\ ev_code ev = c.
Proof.
  intros Hhook o nm j c Hin.
  destruct (call_event_effects _ _ _ _ _ _ _ _ Hin) as [locals Hrun].
  apply run_events_executes_valid in Hrun as (e & He & Hvalid & Hx).
  assert (e ∈ number_events obj event_name (events_of self obj event_name)) as Hstored.
  { rewrite <- get_events_default. revert He. unfold events_to_call.
    destruct (get_event_types type_of self obj !! event_name)
      as [[vars help custom_add custom_call]|] eqn:Htype; [|done].
    specialize (Hhook _ eq_refl). cbn in Hhook. by subst custom_call. }
  apply list_elem_of_lookup in Hstored as [i Hi].
  rewrite number_events_lookup in Hi.
  destruct (events_of self obj event_name !! i) as [ev|] eqn:Hev; [|discriminate].
  cbn in Hi. injection Hi as <-. unfold as_executed in Hx. cbn in Hx, Hvalid.
  injection Hx as -> -> -> ->.
  split; [done|]. split; [done|]. split; [lia|].
  exists ev. by rewrite Nat2Z.id.
Qed.

Lemma call_event_executes_valid_stored_witness :
  let self := set_db_events {[ 3 := {[ "foo" := [Event 0 None false "x = 1" EmptyString None;
                                                  ex_event "y = 2"] ]} ]}
                (ex_dispatch []) in
  (forall e, get_event_types ex_type_of self 3 !! "foo" = Some e ->
             et_custom_call e = None)
  /\ executed (call_event ex_type_of ex_exec self 3 "foo" [PyObject 9; PyObject 4] ∅).2
     = [(3, "foo", 1, "y = 2")]
  /\ forall o nm j c,
       (o, nm, j, c) ∈
         executed (call_event ex_type_of ex_exec self 3 "foo"
                     [PyObject 9; PyObject 4] ∅).2 ->
       o = 3 /\ nm = "foo" /\ 0 <= j
       /\ exists ev, events_of self 3 "foo" !! Z.to_nat j = Some ev
                     /\ ev_valid ev = true /\ ev_code ev = c.
Proof.
  intros self.
  assert (forall e, get_event_types ex_type_of self 3 !! "foo" = Some e ->
                    et_custom_call e = None) as H.
  { intros e He. vm_compute in He. by injection He as <-. }
  split; [exact H|]. split; [vm_compute; reflexivity|].
  exact (call_event_executes_valid_stored ex_type_of ex_exec self 3 "foo"
           [PyObject 9; PyObject 4] ∅ H).
Defined.



(** X8. With a dictionary as [locals] the call needs no event type and
    binds nothing: the loop starts on that dictionary alone, without the
    helpers of [fresh_locals], and the positional arguments play no
    part. *)
Theorem call_event_locals_replace
    (type_of : Z -> typeclass)
    (exec_code : string -> gmap string pyvalue -> exec_result)
    (self : EventHandler) (obj : Z) (event_name : string)
    (args : list pyvalue) (kwargs : gmap string pyvalue) (d : gmap string pyvalue) :
  unknown_keyword kwargs = false ->
  kwargs_get kwargs "locals" = PyDict d ->
  call_event_prepare type_of self obj event_name args kwargs =
    inr (events_to_call self obj event_name
           (get_event_types type_of self obj !! event_name)
           (kwargs_get kwargs "parameters"),
         kwargs_get kwargs "number", d)
  /\ call_event type_of exec_code self obj event_name args kwargs =
     call_event type_of exec_code self obj event_name [] kwargs.
Proof.
  intros Hkw Hd.
  assert (forall args',
            call_event_prepare type_of self obj event_name args' kwargs =
            inr (events_to_call self obj event_name
                   (get_event_types type_of self obj !! event_name)
                   (kwargs_get kwargs "parameters"),
                 kwargs_get kwargs "number", d)) as Hprep.
  { intros args'. unfold call_event_prepare. cbv zeta. rewrite Hkw, Hd. reflexivity. }
  split; [apply Hprep|]. unfold call_event. by rewrite !Hprep.
Qed.

Lemma call_event_locals_replace_witness :
  unknown_keyword {[ "locals" := PyDict ∅ ]} = false
  /\ kwargs_get {[ "locals" := PyDict ∅ ]} "locals" = PyDict ∅
  /\ get_event_types ex_type_of ex_store 7 !! "say" = None
  /\ call_event ex_type_of ex_exec ex_store 7 "say" [PyObject 9]
       {[ "locals" := PyDict ∅ ]} =
     call_event ex_type_of ex_exec ex_store 7 "say" [] {[ "locals" := PyDict ∅ ]}
  /\ executed (call_event ex_type_of ex_exec ex_store 7 "say" []
                 {[ "locals" := PyDict ∅ ]}).2 =
     [(7, "say", 0, "a = 1"); (7, "say", 1, "b = 2"); (7, "say", 2, "c = 3")].
Proof.
  assert (unknown_keyword {[ "locals" := PyDict ∅ ]} = false) as H1
    by (vm_compute; reflexivity).
  assert (kwargs_get {[ "locals" := PyDict ∅ ]} "locals" = PyDict ∅) as H2
    by (vm_compute; reflexivity).
  split; [exact H1|]. split; [exact H2|]. split; [vm_compute; reflexivity|].
  split; [|vm_compute; reflexivity].
  exact (proj2 (call_event_locals_replace ex_type_of ex_exec ex_store 7 "say"
                  [PyObject 9] {[ "locals" := PyDict ∅ ]} ∅ H1 H2)).
Defined.

(** * The line reported for a fault *)

Lemma locate_error_result (code : string) (trace : list string) :
  forall lineno line,
    ((locate_error code trace lineno line).2 = line
     \/ (locate_error code trace lineno line).2 ∈ splitlines code)
    /\ ((locate_error code trace lineno line).1 = None ->
        lineno = None /\ (locate_error code trace lineno line).2 = line).
Proof.
  induction trace as [|error trace IH]; intros lineno line; cbn [locate_error].
  - cbn. auto.
  - destruct (String.prefix file_string_line error); [|apply IH].
    destruct (RE_LINE_ERROR error) as [n|]; [|apply IH].
    destruct (py_index (splitlines code) (n - 1)) as [k|].
    + destruct (splitlines code !! k) as [found|] eqn:Hfound.
      * cbn. split; [right; by eapply list_elem_of_lookup_2|discriminate].
      * destruct (IH (Some n) line) as [H1 H2]. split; [exact H1|].
        intros H. by destruct (H2 H).
    + destruct (IH (Some n) line) as [H1 H2]. split; [exact H1|].
      intros H. by destruct (H2 H).
Qed.

(** X9. The source line reported for a fault is a line of the
    fragment's code or the placeholder; when no line number could be
    read off the trace at all the line is the placeholder; and a trace
    without a frame of the fragment gives the placeholder for both. *)
Theorem locate_error_best_effort (code : string) (trace : list string) :
  ((locate_error code trace None unknown).2 = unknown
   \/ (locate_error code trace None unknown).2 ∈ splitlines code)
  /\ ((locate_error code trace None unknown).1 = None ->
      (locate_error code trace None unknown).2 = unknown)
  /\ ((forall error, error ∈ trace -> String.prefix file_string_line error = false) ->
      locate_error code trace None unknown = (None, unknown)).
Proof.
  destruct (locate_error_result code trace None unknown) as [H1 H2].
  split; [exact H1|]. split; [intros H; by destruct (H2 H)|].
  induction trace as [|error trace IH]; intros Hno; [reflexivity|].
  cbn [locate_error]. rewrite (Hno error) by set_solver.
  apply IH.
  - apply locate_error_result.
  - intros H. by apply locate_error_result in H.
  - intros e He. apply Hno. set_solver.
Qed.

(** * The event store: [add_event], [edit_event], [accept_event] *)

Lemma fragments_insert (all_events : gmap Z (gmap string (list event))) (obj : Z)
    (event_name : string) (l : list event) (o : Z) (n : string) :
  fragments (<[obj := <[event_name := l]> (default ∅ (all_events !! obj))]> all_events) o n
  = if decide (o = obj /\ n = event_name) then l else fragments all_events o n.
Proof.
  unfold fragments. destruct (decide (o = obj)) as [->|Ho].
  - rewrite lookup_insert_eq. cbn [from_option id].
    destruct (decide (n = event_name)) as [->|Hn].
    + rewrite lookup_insert_eq. by rewrite decide_True.
    + rewrite lookup_insert_ne by done. by rewrite decide_False by naive_solver.
  - rewrite lookup_insert_ne by done. by rewrite decide_False by naive_solver.
Qed.

(** The opening lines create empty containers only: every list of
    fragments reads as before. *)
Lemma open_events_fragments (self : EventHandler) (obj : Z) (event_name : string) :
  exists all_events obj_events,
    open_events self obj event_name =
      (all_events, obj_events, events_of self obj event_name)
    /\ default ∅ (all_events !! obj) = obj_events
    /\ forall o n, fragments all_events o n = events_of self o n.
Proof.
  unfold open_events, events_of. cbv zeta.
  destruct (db_events self !! obj) as [oe|] eqn:Hobj; cbn [from_option id].
  - case_bool_decide as Hsize.
    + apply map_size_empty_iff in Hsize. subst oe. rewrite lookup_empty.
      cbn [from_option id]. eexists _, _. split; [reflexivity|].
      split; [by rewrite lookup_insert_eq|].
      intros o n. rewrite insert_insert_eq.
      pose proof (fragments_insert (<[obj := ∅]> (db_events self)) obj event_name [] o n)
        as Hf.
      rewrite lookup_insert_eq, insert_insert_eq in Hf. cbn [from_option id] in Hf.
      rewrite Hf. unfold fragments. case_decide as Hon.
      * destruct Hon as [-> ->]. rewrite Hobj. cbn [from_option id].
        by rewrite lookup_empty.
      * destruct (decide (o = obj)) as [->|Ho].
        -- by rewrite lookup_insert_eq, Hobj.
        -- by rewrite lookup_insert_ne.
    + destruct (oe !! event_name) as [[|ev l]|] eqn:Hname; cbn [from_option id].
      * eexists _, _. split; [reflexivity|]. split; [by rewrite lookup_insert_eq|].
        intros o n.
        pose proof (fragments_insert (db_events self) obj event_name [] o n) as Hf.
        rewrite Hobj in Hf. cbn [from_option id] in Hf. rewrite Hf.
        unfold fragments. case_decide as Hon; [|done].
        destruct Hon as [-> ->]. by rewrite Hobj; cbn; rewrite Hname.
      * eexists _, _. split; [reflexivity|]. split; [by rewrite Hobj|]. done.
      * eexists _, _. split; [reflexivity|]. split; [by rewrite lookup_insert_eq|].
        intros o n.
        pose proof (fragments_insert (db_events self) obj event_name [] o n) as Hf.
        rewrite Hobj in Hf. cbn [from_option id] in Hf. rewrite Hf.
        unfold fragments. case_decide as Hon; [|done].
        destruct Hon as [-> ->]. by rewrite Hobj; cbn; rewrite Hname.
  - rewrite bool_decide_true by apply map_size_empty. rewrite lookup_empty.
    cbn [from_option id]. eexists _, _. split; [reflexivity|].
    split; [by rewrite lookup_insert_eq|].
    intros o n. rewrite insert_insert_eq.
    pose proof (fragments_insert (db_events self) obj event_name [] o n) as Hf.
    rewrite Hobj in Hf. cbn [from_option id] in Hf. rewrite Hf.
    unfold fragments. case_decide as Hon; [|done].
    destruct Hon as [-> ->]. rewrite Hobj. cbn [from_option id]. by rewrite lookup_empty.
Qed.

(** The fragments after the list of [(obj, event_name)] has been stored
    back by [add_event], [edit_event] or [accept_event]. *)
Lemma stored_fragments (self : EventHandler) (obj : Z) (event_name : string)
    (all_events : gmap Z (gmap string (list event)))
    (obj_events : gmap string (list event)) (l : list event) (self' : EventHandler) :
  default ∅ (all_events !! obj) = obj_events ->
  (forall o n, fragments all_events o n = events_of self o n) ->
  db_events self' = <[obj := <[event_name := l]> obj_events]> all_events ->
  events_of self' obj event_name = l
  /\ forall o n, (o, n) <> (obj, event_name) -> events_of self' o n = events_of self o n.
Proof.
  intros <- Hview Hdb.
  assert (forall o n, events_of self' o n =
                      if decide (o = obj /\ n = event_name) then l
                      else events_of self o n) as Hall.
  { intros o n. rewrite <- Hview, <- fragments_insert. unfold events_of, fragments.
    by rewrite Hdb. }
  split.
  - rewrite Hall. by rewrite decide_True.
  - intros o n Hne. rewrite Hall. rewrite decide_False; [done|].
    intros [-> ->]. done.
Qed.

(** What [add_event] stores and returns. *)
Lemma add_event_stores (type_of : Z -> typeclass) (self : EventHandler) (now : Z)
    (obj : Z) (event_name : string) (code : string) (author : option Z) (valid : bool)
    (parameters : string) :
  exists self' calls,
    add_event type_of self now obj event_name code author valid parameters =
      (EventDef (Event now author valid code parameters None) obj event_name
         (Z.of_nat (length (events_of self obj event_name))), self', calls)
    /\ events_of self' obj event_name =
       events_of self obj event_name ++ [Event now author valid code parameters None]
    /\ (forall o n, (o, n) <> (obj, event_name) -> events_of self' o n = events_of self o n)
    /\ db_to_valid self' =
       (if valid then db_to_valid self
        else db_to_valid self
             ++ [(obj, event_name, Z.of_nat (length (events_of self obj event_name)))])
    /\ db_locked self' = db_locked self
    /\ calls =
       match get_event_types type_of self obj !! event_name with
       | Some (EType _ _ (Some custom_add) _) =>
           [(custom_add,
             (obj, event_name, Z.of_nat (length (events_of self obj event_name)),
              parameters))]
       | _ => []
       end.
Proof.
  destruct (open_events_fragments self obj event_name)
    as (all_events & obj_events & Hopen & Hobj & Hview).
  unfold add_event. rewrite Hopen. cbv zeta.
  set (old := events_of self obj event_name).
  set (new := Event now author valid code parameters None).
  assert (Z.of_nat (length (old ++ [new])) - 1 = Z.of_nat (length old)) as ->
    by (rewrite length_app; simpl; lia).
  eexists _, _. split; [reflexivity|].
  match goal with
  | |- events_of ?s _ _ = _ /\ _ => set (self' := s)
  end.
  assert (db_events self' = <[obj := <[event_name := old ++ [new]]> obj_events]> all_events)
    as Hdb by (subst self'; by destruct valid).
  destruct (stored_fragments self obj event_name all_events obj_events (old ++ [new])
              self' Hobj Hview Hdb) as [Hsame Hother].
  split; [exact Hsame|]. split; [exact Hother|].
  split; [subst self'; by destruct valid|].
  split; [subst self'; by destruct valid|].
  subst self'; by destruct valid.
Qed.

(** X10. [add_event] appends the new fragment to the list of
    [(obj, event_name)] and returns it with the next number; the other
    lists and the lock set are untouched; the validation queue gets the
    new fragment at its end exactly when it is not valid; the
    [custom_add] hook of the event type, if any, is called once with the
    new number; and [get_events] shows the fragment at once. *)
Theorem add_event_appends (type_of : Z -> typeclass) (self : EventHandler) (now : Z)
    (obj : Z) (event_name : string) (code : string) (author : option Z) (valid : bool)
    (parameters : string) :
  exists self' calls,
    add_event type_of self now obj event_name code author valid parameters =
      (EventDef (Event now author valid code parameters None) obj event_name
         (Z.of_nat (length (events_of self obj event_name))), self', calls)
    /\ events_of self' obj event_name =
       events_of self obj event_name ++ [Event now author valid code parameters None]
    /\ (forall o n, (o, n) <> (obj, event_name) -> events_of self' o n = events_of self o n)
    /\ db_to_valid self' =
       (if valid then db_to_valid self
        else db_to_valid self
             ++ [(obj, event_name, Z.of_nat (length (events_of self obj event_name)))])
    /\ db_locked self' = db_locked self
    /\ calls =
       match get_event_types type_of self obj !! event_name with
       | Some (EType _ _ (Some custom_add) _) =>
           [(custom_add,
             (obj, event_name, Z.of_nat (length (events_of self obj event_name)),
              parameters))]
       | _ => []
       end
    /\ get_events self' obj !! event_name =
       Some (number_events obj event_name
               (events_of self obj event_name
                ++ [Event now author valid code parameters None])).
Proof.
  destruct (add_event_stores type_of self now obj event_name code author valid parameters)
    as (self' & calls & Hadd & Hsame & Hother & Hqueue & Hlocked & Hcalls).
  exists self', calls. split; [exact Hadd|]. split; [exact Hsame|].
  split; [exact Hother|]. split; [exact Hqueue|]. split; [exact Hlocked|].
  split; [exact Hcalls|].
  rewrite get_events_lookup, Hsame.
  by destruct (events_of self obj event_name).
Qed.

Lemma list_remove_first_other (x y : Z * string * Z) (l : list (Z * string * Z)) :
  y <> x -> y ∈ list_remove_first x l <-> y ∈ l.
Proof.
  intros Hne. induction l as [|z l IH]; [done|].
  cbn [list_remove_first]. case_bool_decide as Hz.
  - subst z. set_solver.
  - set_solver.
Qed.

Lemma list_remove_first_gone (x : Z * string * Z) (l : list (Z * string * Z)) :
  NoDup l -> x ∉ list_remove_first x l.
Proof.
  induction l as [|z l IH]; intros Hnd; [set_solver|].
  apply NoDup_cons in Hnd as [Hz Hnd]. cbn [list_remove_first].
  case_bool_decide as Hzx.
  - by subst z.
  - apply not_elem_of_cons. split; [congruence|by apply IH].
Qed.

Lemma list_remove_first_NoDup (x : Z * string * Z) (l : list (Z * string * Z)) :
  NoDup l -> NoDup (list_remove_first x l).
Proof.
  induction l as [|z l IH]; intros Hnd; [done|].
  apply NoDup_cons in Hnd as [Hz Hnd]. cbn [list_remove_first].
  case_bool_decide as Hzx; [done|].
  apply NoDup_cons. split; [|by apply IH].
  intros Hin. apply Hz. by apply (list_remove_first_other x z l) in Hin.
Qed.

Lemma list_remove_first_absent (x : Z * string * Z) (l : list (Z * string * Z)) :
  x ∉ l -> list_remove_first x l = l.
Proof.
  induction l as [|z l IH]; intros Hx; [done|].
  apply not_elem_of_cons in Hx as [Hne Hx]. cbn [list_remove_first].
  rewrite bool_decide_false by done. by rewrite IH.
Qed.

(** When [edit_event] raises, the fragments and the validation queue read
    as before. *)
Lemma edit_event_raises (self : EventHandler) (now : Z) (obj : Z)
    (event_name : string) (number : Z) (code : string) (author : option Z)
    (valid : bool) :
  (obj, event_name, number) ∈ db_locked self
  \/ Z.of_nat (length (events_of self obj event_name)) <= number ->
  (forall o n,
     events_of (edit_event self now obj event_name number code author valid).2 o n
     = events_of self o n)
  /\ db_to_valid (edit_event self now obj event_name number code author valid).2
     = db_to_valid self.
Proof.
  intros Hfail.
  destruct (open_events_fragments self obj event_name)
    as (all_events & obj_events & Hopen & Hobj & Hview).
  unfold edit_event. rewrite Hopen. cbv zeta. cbn [set_db_events db_locked].
  case_bool_decide as Hlock; [by split|].
  destruct Hfail as [Hl|Hrange]; [done|].
  rewrite py_index_out_of_range by (by left). by split.
Qed.

(** X11. [edit_event] refuses a locked [(obj, event_name, number)] with
    the locked-event error, whether or not a fragment has that number,
    and, unlike [del_event], raises [IndexError] for an unlocked number
    outside the list.  Either way every list of fragments, the
    validation queue and the lock set read as before. *)
Theorem edit_event_refuses (self : EventHandler) (now : Z) (obj : Z)
    (event_name : string) (number : Z) (code : string) (author : option Z)
    (valid : bool) :
  ((obj, event_name, number) ∈ db_locked self ->
   exists self',
     edit_event self now obj event_name number code author valid =
       (StoreRaised (StoreRuntimeError "this event is locked."), self')
     /\ (forall o n, events_of self' o n = events_of self o n)
     /\ db_to_valid self' = db_to_valid self
     /\ db_locked self' = db_locked self)
  /\ ((obj, event_name, number) ∉ db_locked self ->
      Z.of_nat (length (events_of self obj event_name)) <= number
      \/ number < - Z.of_nat (length (events_of self obj event_name)) ->
      exists self',
        edit_event self now obj event_name number code author valid =
          (StoreRaised StoreIndexError, self')
        /\ (forall o n, events_of self' o n = events_of self o n)
        /\ db_to_valid self' = db_to_valid self
        /\ db_locked self' = db_locked self).
Proof.
  destruct (open_events_fragments self obj event_name)
    as (all_events & obj_events & Hopen & Hobj & Hview).
  unfold edit_event. rewrite Hopen. cbv zeta. cbn [set_db_events db_locked].
  split.
  - intros Hlock. rewrite bool_decide_true by done.
    eexists. split; [reflexivity|]. split; [exact Hview|]. split; reflexivity.
  - intros Hlock Hrange. rewrite bool_decide_false by done.
    rewrite py_index_out_of_range by done.
    eexists. split; [reflexivity|]. split; [exact Hview|]. split; reflexivity.
Qed.

Lemma edit_event_refuses_witness :
  ((7, "say", 5) ∈ db_locked ex_store
   /\ exists self',
        edit_event ex_store 99 7 "say" 5 "z = 0" None true =
          (StoreRaised (StoreRuntimeError "this event is locked."), self')
        /\ events_of self' 7 "say" = events_of ex_store 7 "say")
  /\ (((7, "say", 3) ∉ db_locked ex_store)
      /\ exists self',
           edit_event ex_store 99 7 "say" 3 "z = 0" None true =
             (StoreRaised StoreIndexError, self')
           /\ events_of self' 7 "say" = events_of ex_store 7 "say").
Proof.
  assert ((7, "say", 5) ∈ db_locked ex_store) as H1
    by (apply (bool_decide_unpack _); vm_compute; exact I).
  assert ((7, "say", 3) ∉ db_locked ex_store) as H2
    by (apply (bool_decide_unpack _); vm_compute; exact I).
  assert (Z.of_nat (length (events_of ex_store 7 "say")) <= 3
          \/ 3 < - Z.of_nat (length (events_of ex_store 7 "say"))) as H3
    by (left; vm_compute; discriminate).
  destruct (edit_event_refuses ex_store 99 7 "say" 5 "z = 0" None true) as [Hlocked _].
  destruct (edit_event_refuses ex_store 99 7 "say" 3 "z = 0" None true) as [_ Hrange].
  split.
  - split; [exact H1|]. destruct (Hlocked H1) as (self' & Hedit & Hview & _).
    exists self'. split; [exact Hedit|apply Hview].
  - split; [exact H2|]. destruct (Hrange H2 H3) as (self' & Hedit & Hview & _).
    exists self'. split; [exact Hedit|apply Hview].
Defined.

(** The validation queue after an edit or an acceptance that leaves the
    fragment [entry] with validity [valid]. *)
Lemma queue_after_edit (valid : bool) (entry : Z * string * Z)
    (to_valid to_valid' : list (Z * string * Z)) :
  to_valid' =
    (if negb valid && negb (bool_decide (entry ∈ to_valid)) then to_valid ++ [entry]
     else if valid && bool_decide (entry ∈ to_valid)
          then list_remove_first entry to_valid
          else to_valid) ->
  (valid = false -> entry ∈ to_valid')
  /\ (valid = true -> NoDup to_valid -> entry ∉ to_valid')
  /\ (forall other, other <> entry -> other ∈ to_valid' <-> other ∈ to_valid)
  /\ (NoDup to_valid -> NoDup to_valid').
Proof.
  intros ->. destruct valid; cbn [negb andb].
  - case_bool_decide as Hin.
    + split; [discriminate|]. split; [intros _; apply list_remove_first_gone|].
      split; [intros other Hne; by apply list_remove_first_other|].
      apply list_remove_first_NoDup.
    + split; [discriminate|]. done.
  - case_bool_decide as Hin; cbn [negb].
    + split; [done|]. split; [discriminate|]. done.
    + split; [set_solver|]. split; [discriminate|].
      split; [set_solver|]. intros Hnd. apply NoDup_app. set_solver by eauto using NoDup_singleton.
Qed.

(** [edit_event] on an unlocked fragment that exists. *)
Lemma edit_event_stores (self : EventHandler) (now : Z) (obj : Z)
    (event_name : string) (number : Z) (code : string) (author : option Z)
    (valid : bool) :
  (obj, event_name, number) ∉ db_locked self ->
  0 <= number < Z.of_nat (length (events_of self obj event_name)) ->
  exists ev self',
    events_of self obj event_name !! Z.to_nat number = Some ev
    /\ edit_event self now obj event_name number code author valid =
       (StoreReturned (EventDef (edited ev now code author valid) obj event_name number),
        self')
    /\ events_of self' obj event_name =
       <[Z.to_nat number := edited ev now code author valid]>
         (events_of self obj event_name)
    /\ (forall o n, (o, n) <> (obj, event_name) -> events_of self' o n = events_of self o n)
    /\ db_locked self' = db_locked self
    /\ db_to_valid self' =
       (if negb valid && negb (bool_decide ((obj, event_name, number) ∈ db_to_valid self))
        then db_to_valid self ++ [(obj, event_name, number)]
        else if valid && bool_decide ((obj, event_name, number) ∈ db_to_valid self)
             then list_remove_first (obj, event_name, number) (db_to_valid self)
             else db_to_valid self).
Proof.
  intros Hlock Hrange.
  destruct (open_events_fragments self obj event_name)
    as (all_events & obj_events & Hopen & Hobj & Hview).
  destruct (lookup_lt_is_Some_2 (events_of self obj event_name) (Z.to_nat number))
    as [ev Hev]; [lia|].
  unfold edit_event. rewrite Hopen. cbv zeta. cbn [set_db_events db_locked db_to_valid].
  rewrite bool_decide_false by done. rewrite py_index_in_range by done. rewrite Hev.
  exists ev. eexists. split; [reflexivity|]. split; [reflexivity|].
  match goal with
  | |- events_of ?s _ _ = _ /\ _ => set (self' := s)
  end.
  assert (db_events self' =
          <[obj := <[event_name := <[Z.to_nat number := edited ev now code author valid]>
                                     (events_of self obj event_name)]> obj_events]>
            all_events) as Hdb by (subst self'; by repeat case_match).
  destruct (stored_fragments self obj event_name all_events obj_events _ self'
              Hobj Hview Hdb) as [Hsame Hother].
  split; [exact Hsame|]. split; [exact Hother|].
  split; subst self'; by repeat case_match.
Qed.

(** X12. [edit_event] on an unlocked fragment that exists replaces its
    code and validity, records the time and author of the update and
    keeps its creation time, author and parameters; no other fragment
    changes.  The fragment is in the validation queue afterwards when it
    is left not valid, and out of it when it is left valid and the queue
    held it at most once; the other entries of the queue stay. *)
Theorem edit_event_updates (self : EventHandler) (now : Z) (obj : Z)
    (event_name : string) (number : Z) (code : string) (author : option Z)
    (valid : bool) :
  (obj, event_name, number) ∉ db_locked self ->
  0 <= number < Z.of_nat (length (events_of self obj event_name)) ->
  exists ev self',
    events_of self obj event_name !! Z.to_nat number = Some ev
    /\ edit_event self now obj event_name number code author valid =
       (StoreReturned
          (EventDef (Event (ev_created_on ev) (ev_author ev) valid code
                       (ev_parameters ev) (Some (now, author)))
             obj event_name number), self')
    /\ events_of self' obj event_name =
       <[Z.to_nat number := Event (ev_created_on ev) (ev_author ev) valid code
                              (ev_parameters ev) (Some (now, author))]>
         (events_of self obj event_name)
    /\ (forall o n, (o, n) <> (obj, event_name) -> events_of self' o n = events_of self o n)
    /\ db_locked self' = db_locked self
    /\ (valid = false -> (obj, event_name, number) ∈ db_to_valid self')
    /\ (valid = true -> NoDup (db_to_valid self) ->
        (obj, event_name, number) ∉ db_to_valid self')
    /\ (forall other, other <> (obj, event_name, number) ->
          other ∈ db_to_valid self' <-> other ∈ db_to_valid self).
Proof.
  intros Hlock Hrange.
  destruct (edit_event_stores self now obj event_name number code author valid
              Hlock Hrange)
    as (ev & self' & Hev & Hedit & Hsame & Hother & Hlocked & Hqueue).
  destruct (queue_after_edit valid _ _ _ Hqueue) as (Hq1 & Hq2 & Hq3 & _).
  exists ev, self'. split; [exact Hev|]. split; [exact Hedit|]. split; [exact Hsame|].
  split; [exact Hother|]. split; [exact Hlocked|]. split; [exact Hq1|].
  split; [exact Hq2|exact Hq3].
Qed.

Lemma edit_event_updates_witness :
  ((7, "say", 1) ∉ db_locked ex_store)
  /\ 0 <= 1 < Z.of_nat (length (events_of ex_store 7 "say"))
  /\ exists self',
       edit_event ex_store 99 7 "say" 1 "z = 0" (Some 4) true =
         (StoreReturned
            (EventDef (Event 0 None true "z = 0" EmptyString (Some (99, Some 4)))
               7 "say" 1), self')
       /\ events_of self' 7 "say" =
          [ex_event "a = 1"; Event 0 None true "z = 0" EmptyString (Some (99, Some 4));
           ex_event "c = 3"]
       /\ db_to_valid self' = [(7, "say", 2); (8, "say", 2); (7, "get", 2)].
Proof.
  assert ((7, "say", 1) ∉ db_locked ex_store) as H1
    by (apply (bool_decide_unpack _); vm_compute; exact I).
  assert (0 <= 1 < Z.of_nat (length (events_of ex_store 7 "say"))) as H2
    by (vm_compute; split; [discriminate|reflexivity]).
  split; [exact H1|]. split; [exact H2|].
  destruct (edit_event_updates ex_store 99 7 "say" 1 "z = 0" (Some 4) true H1 H2)
    as (ev & self' & Hev & Hedit & Hsame & _).
  vm_compute in Hev. injection Hev as <-.
  exists self'. split; [exact Hedit|]. split; [exact Hsame|].
  vm_compute in Hedit. by injection Hedit as <-.
Defined.

(** [accept_event] on a fragment that exists. *)
Lemma accept_event_stores (self : EventHandler) (obj : Z) (event_name : string)
    (number : Z) :
  0 <= number < Z.of_nat (length (events_of self obj event_name)) ->
  exists ev self',
    events_of self obj event_name !! Z.to_nat number = Some ev
    /\ accept_event self obj event_name number = (StoreReturned (), self')
    /\ events_of self' obj event_name =
       <[Z.to_nat number := accepted ev]> (events_of self obj event_name)
    /\ (forall o n, (o, n) <> (obj, event_name) -> events_of self' o n = events_of self o n)
    /\ db_locked self' = db_locked self
    /\ db_to_valid self' =
       (if negb true && negb (bool_decide ((obj, event_name, number) ∈ db_to_valid self))
        then db_to_valid self ++ [(obj, event_name, number)]
        else if true && bool_decide ((obj, event_name, number) ∈ db_to_valid self)
             then list_remove_first (obj, event_name, number) (db_to_valid self)
             else db_to_valid self).
Proof.
  intros Hrange.
  destruct (lookup_lt_is_Some_2 (events_of self obj event_name) (Z.to_nat number))
    as [ev Hev]; [lia|].
  unfold accept_event. cbv zeta.
  change (default [] (default ∅ (db_events self !! obj) !! event_name))
    with (events_of self obj event_name).
  rewrite py_index_in_range by done. rewrite Hev.
  cbn [set_db_events db_to_valid negb andb].
  exists ev. eexists. split; [reflexivity|]. split; [reflexivity|].
  match goal with
  | |- events_of ?s _ _ = _ /\ _ => set (self' := s)
  end.
  assert (db_events self' =
          <[obj := <[event_name := <[Z.to_nat number := accepted ev]>
                                     (events_of self obj event_name)]>
                     (default ∅ (db_events self !! obj))]> (db_events self)) as Hdb
    by (subst self'; by case_match).
  destruct (events_of_after_delete (db_events self) obj event_name _ self' Hdb)
    as [Hsame Hother].
  split; [exact Hsame|]. split; [exact Hother|].
  split; subst self'; by case_match.
Qed.

(** X13. [accept_event] marks the fragment valid, leaving its code and
    the other fragments as they are, and takes it out of the validation
    queue (entirely, when the queue held it at most once); it does not
    look at the lock set.  For a number outside the list it raises
    [IndexError] and changes nothing. *)
Theorem accept_event_validates (self : EventHandler) (obj : Z) (event_name : string)
    (number : Z) :
  (0 <= number < Z.of_nat (length (events_of self obj event_name)) ->
   exists ev self',
     events_of self obj event_name !! Z.to_nat number = Some ev
     /\ accept_event self obj event_name number = (StoreReturned (), self')
     /\ events_of self' obj event_name =
        <[Z.to_nat number := Event (ev_created_on ev) (ev_author ev) true (ev_code ev)
                               (ev_parameters ev) (ev_updated ev)]>
          (events_of self obj event_name)
     /\ (forall o n, (o, n) <> (obj, event_name) ->
           events_of self' o n = events_of self o n)
     /\ db_locked self' = db_locked self
     /\ (NoDup (db_to_valid self) -> (obj, event_name, number) ∉ db_to_valid self')
     /\ (forall other, other <> (obj, event_name, number) ->
           other ∈ db_to_valid self' <-> other ∈ db_to_valid self))
  /\ (Z.of_nat (length (events_of self obj event_name)) <= number
      \/ number < - Z.of_nat (length (events_of self obj event_name)) ->
      accept_event self obj event_name number = (StoreRaised StoreIndexError, self)).
Proof.
  split.
  - intros Hrange.
    destruct (accept_event_stores self obj event_name number Hrange)
      as (ev & self' & Hev & Haccept & Hsame & Hother & Hlocked & Hqueue).
    destruct (queue_after_edit true _ _ _ Hqueue) as (_ & Hq2 & Hq3 & _).
    exists ev, self'. split; [exact Hev|]. split; [exact Haccept|].
    split; [exact Hsame|]. split; [exact Hother|]. split; [exact Hlocked|].
    split; [exact (Hq2 eq_refl)|exact Hq3].
  - intros Hrange. unfold accept_event. cbv zeta.
    change (default [] (default ∅ (db_events self !! obj) !! event_name))
      with (events_of self obj event_name).
    by rewrite py_index_out_of_range.
Qed.

Lemma accept_event_validates_witness :
  0 <= 0 < Z.of_nat (length (events_of ex_pending 7 "say"))
  /\ (Z.of_nat (length (events_of ex_pending 7 "say")) <= 2
      \/ 2 < - Z.of_nat (length (events_of ex_pending 7 "say")))
  /\ (exists self',
        accept_event ex_pending 7 "say" 0 = (StoreReturned (), self')
        /\ events_of self' 7 "say" = [ex_event "a = 1"; ex_event "b = 2"]
        /\ db_to_valid self' = [])
  /\ accept_event ex_pending 7 "say" 2 = (StoreRaised StoreIndexError, ex_pending).
Proof.
  assert (0 <= 0 < Z.of_nat (length (events_of ex_pending 7 "say"))) as H1
    by (vm_compute; split; [discriminate|reflexivity]).
  assert (Z.of_nat (length (events_of ex_pending 7 "say")) <= 2
          \/ 2 < - Z.of_nat (length (events_of ex_pending 7 "say"))) as H2
    by (left; vm_compute; discriminate).
  split; [exact H1|]. split; [exact H2|].
  destruct (accept_event_validates ex_pending 7 "say" 0) as [Hok _].
  destruct (accept_event_validates ex_pending 7 "say" 2) as [_ Hbad].
  split; [|exact (Hbad H2)].
  destruct (Hok H1) as (ev & self' & Hev & Haccept & Hsame & _).
  vm_compute in Hev. injection Hev as <-.
  exists self'. split; [exact Haccept|]. split; [exact Hsame|].
  vm_compute in Haccept. by injection Haccept as <-.
Defined.

(** Accepting a valid fragment that is not in the queue changes
    nothing. *)
Lemma accept_event_noop (self : EventHandler) (obj : Z) (event_name : string)
    (number : Z) (ev : event) :
  0 <= number ->
  events_of self obj event_name !! Z.to_nat number = Some ev ->
  ev_valid ev = true ->
  (obj, event_name, number) ∉ db_to_valid self ->
  accept_event self obj event_name number = (StoreReturned (), self).
Proof.
  intros Hpos Hev Hvalid Hqueue.
  assert (0 <= number < Z.of_nat (length (events_of self obj event_name))) as Hrange
    by (apply lookup_lt_Some in Hev; lia).
  unfold accept_event. cbv zeta.
  change (default [] (default ∅ (db_events self !! obj) !! event_name))
    with (events_of self obj event_name).
  rewrite py_index_in_range by done. rewrite Hev.
  cbn [set_db_events db_to_valid]. rewrite bool_decide_false by done.
  assert (accepted ev = ev) as -> by (destruct ev; cbn in *; by subst).
  rewrite list_insert_id by done.
  assert (<[obj := <[event_name := events_of self obj event_name]>
                     (default ∅ (db_events self !! obj))]> (db_events self)
          = db_events self) as ->.
  { unfold events_of in *.
    destruct (db_events self !! obj) as [oe|] eqn:Hobj; cbn [from_option id] in *;
      [|rewrite lookup_empty in Hev; discriminate].
    destruct (oe !! event_name) as [l|] eqn:Hname; [|discriminate].
    cbn [from_option id]. by rewrite (insert_id oe), insert_id. }
  by destruct self.
Qed.

(** X14. Accepting twice is accepting once: when the validation queue
    holds no entry twice, a second [accept_event] of the same fragment
    returns the handler the first one left. *)
Theorem accept_event_idempotent (self : EventHandler) (obj : Z) (event_name : string)
    (number : Z) :
  0 <= number < Z.of_nat (length (events_of self obj event_name)) ->
  NoDup (db_to_valid self) ->
  exists self',
    accept_event self obj event_name number = (StoreReturned (), self')
    /\ accept_event self' obj event_name number = (StoreReturned (), self').
Proof.
  intros Hrange Hnd.
  destruct (accept_event_stores self obj event_name number Hrange)
    as (ev & self' & Hev & Haccept & Hsame & _ & _ & Hqueue).
  destruct (queue_after_edit true _ _ _ Hqueue) as (_ & Hq2 & _).
  exists self'. split; [exact Haccept|].
  apply (accept_event_noop self' obj event_name number (accepted ev)).
  - lia.
  - rewrite Hsame. apply list_lookup_insert_eq. lia.
  - reflexivity.
  - by apply Hq2.
Qed.

Lemma accept_event_idempotent_witness :
  0 <= 0 < Z.of_nat (length (events_of ex_pending 7 "say"))
  /\ NoDup (db_to_valid ex_pending)
  /\ exists self',
       accept_event ex_pending 7 "say" 0 = (StoreReturned (), self')
       /\ accept_event self' 7 "say" 0 = (StoreReturned (), self').
Proof.
  assert (0 <= 0 < Z.of_nat (length (events_of ex_pending 7 "say"))) as H1
    by (vm_compute; split; [discriminate|reflexivity]).
  assert (NoDup (db_to_valid ex_pending)) as H2
    by (apply (bool_decide_unpack _); vm_compute; exact I).
  split; [exact H1|]. split; [exact H2|].
  exact (accept_event_idempotent ex_pending 7 "say" 0 H1 H2).
Defined.

(** * The validation queue tracks the fragments that are not valid *)

Lemma queue_tracks_same (self self' : EventHandler) :
  (forall o n, events_of self' o n = events_of self o n) ->
  db_to_valid self' = db_to_valid self ->
  queue_tracks_invalid self -> queue_tracks_invalid self'.
Proof.
  intros Hview Hqueue [Hnd Hinv]. unfold queue_tracks_invalid.
  rewrite Hqueue. split; [exact Hnd|].
  intros o n j. rewrite Hview. apply Hinv.
Qed.

(** One fragment gets a new content, its queue entry follows. *)
Lemma queue_tracks_after_update (self self' : EventHandler) (obj : Z)
    (event_name : string) (number : Z) (ev' : event) :
  0 <= number < Z.of_nat (length (events_of self obj event_name)) ->
  events_of self' obj event_name =
    <[Z.to_nat number := ev']> (events_of self obj event_name) ->
  (forall o n, (o, n) <> (obj, event_name) -> events_of self' o n = events_of self o n) ->
  db_to_valid self' =
    (if negb (ev_valid ev')
        && negb (bool_decide ((obj, event_name, number) ∈ db_to_valid self))
     then db_to_valid self ++ [(obj, event_name, number)]
     else if ev_valid ev' && bool_decide ((obj, event_name, number) ∈ db_to_valid self)
          then list_remove_first (obj, event_name, number) (db_to_valid self)
          else db_to_valid self) ->
  queue_tracks_invalid self -> queue_tracks_invalid self'.
Proof.
  intros Hrange Hsame Hother Hqueue [Hnd Hinv].
  destruct (queue_after_edit (ev_valid ev') _ _ _ Hqueue) as (Hq1 & Hq2 & Hq3 & Hq4).
  split; [by apply Hq4|].
  intros o n j.
  destruct (decide ((o, n, j) = (obj, event_name, number))) as [[= -> -> ->]|Hne].
  - rewrite Hsame, list_lookup_insert_eq by lia. split.
    + intros Hin. split; [lia|]. exists ev'. split; [done|].
      destruct (ev_valid ev') eqn:Hv; [|done]. exfalso. by apply (Hq2 eq_refl Hnd).
    + intros (_ & ev & [= <-] & Hv). by apply Hq1.
  - rewrite (Hq3 _ Hne), Hinv.
    destruct (decide ((o, n) = (obj, event_name))) as [[= -> ->]|Hon].
    + rewrite Hsame. split; intros (Hj & ev & Hev & Hv); (split; [done|]); exists ev;
        (split; [|done]).
      * rewrite list_lookup_insert_ne; [done|]. intros Heq. apply Hne. f_equal. lia.
      * rewrite list_lookup_insert_ne in Hev; [done|]. intros Heq. apply Hne. f_equal. lia.
    + by rewrite (Hother o n Hon).
Qed.

(** X15. The validation queue holds, once each, exactly the fragments
    that are not valid: this is so when the handler is created, and
    [add_event] keeps it so. *)
Theorem add_event_keeps_queue (type_of : Z -> typeclass) (self : EventHandler) (now : Z)
    (obj : Z) (event_name : string) (code : string) (author : option Z) (valid : bool)
    (parameters : string) :
  queue_tracks_invalid at_script_creation
  /\ (queue_tracks_invalid self ->
      queue_tracks_invalid
        (add_event type_of self now obj event_name code author valid parameters).1.2).
Proof.
  split.
  { split; [apply NoDup_nil_2|]. intros o n j. cbn. split.
    - intros H. by apply elem_of_nil in H.
    - intros (_ & ev & Hev & _). unfold events_of in Hev. cbn in Hev.
      by rewrite lookup_empty in Hev. }
  intros [Hnd Hinv].
  destruct (open_events_fragments self obj event_name)
    as (all_events & obj_events & Hopen & Hobj & Hview).
  unfold add_event. rewrite Hopen. cbv zeta. cbn [fst snd].
  set (old := events_of self obj event_name).
  set (new := Event now author valid code parameters None).
  assert (Z.of_nat (length (old ++ [new])) - 1 = Z.of_nat (length old)) as ->
    by (rewrite length_app; simpl; lia).
  match goal with |- queue_tracks_invalid ?s => set (self' := s) end.
  assert (db_events self' = <[obj := <[event_name := old ++ [new]]> obj_events]> all_events)
    as Hdb by (subst self'; by destruct valid).
  destruct (stored_fragments self obj event_name all_events obj_events (old ++ [new])
              self' Hobj Hview Hdb) as [Hsame Hother].
  assert (db_to_valid self' =
          if valid then db_to_valid self
          else db_to_valid self ++ [(obj, event_name, Z.of_nat (length old))]) as Hqueue
    by (subst self'; by destruct valid).
  assert ((obj, event_name, Z.of_nat (length old)) ∉ db_to_valid self) as Hfresh.
  { intros Hin. apply Hinv in Hin as (_ & ev & Hev & _). fold old in Hev.
    apply lookup_lt_Some in Hev. lia. }
  split.
  - rewrite Hqueue. destruct valid; [done|].
    apply NoDup_app. split; [done|]. split; [|apply NoDup_singleton].
    intros x Hx Hx'. apply list_elem_of_singleton in Hx'. by subst x.
  - intros o n j. rewrite Hqueue.
    destruct (decide ((o, n) = (obj, event_name))) as [[= -> ->]|Hon].
    + rewrite Hsame. split.
      * intros Hin.
        assert ((obj, event_name, j) ∈ db_to_valid self
                \/ (valid = false /\ j = Z.of_nat (length old))) as [Hold|[-> ->]].
        { destruct valid; [by left|]. apply elem_of_app in Hin as [?|Hin]; [by left|].
          apply list_elem_of_singleton in Hin. injection Hin as ->. by right. }
        -- apply Hinv in Hold as (Hj & ev & Hev & Hv). split; [done|]. exists ev.
           split; [|done]. by apply lookup_app_l_Some.
        -- split; [lia|]. exists new. split; [|done].
           rewrite Nat2Z.id. by rewrite list_lookup_middle.
      * intros (Hj & ev & Hev & Hv).
        apply lookup_app_Some in Hev as [Hev|[Hlen Hev]].
        -- assert ((obj, event_name, j) ∈ db_to_valid self) as Hold
             by (apply Hinv; eauto).
           destruct valid; [done|]. apply elem_of_app. by left.
        -- destruct (Z.to_nat j - length old)%nat as [|x] eqn:Hx; [|done].
           cbn in Hev. injection Hev as <-. cbn in Hv. subst valid.
           apply elem_of_app. right. apply list_elem_of_singleton. f_equal. lia.
    + rewrite (Hother o n Hon), <- Hinv.
      destruct valid; [done|]. rewrite elem_of_app, list_elem_of_singleton.
      split; [intros [?|[= -> -> ->]]; done|auto].
Qed.

Lemma add_event_keeps_queue_witness :
  queue_tracks_invalid at_script_creation
  /\ queue_tracks_invalid
       (add_event ex_type_of at_script_creation 5 3 "foo" "x = 1" None false
          EmptyString).1.2
  /\ db_to_valid
       (add_event ex_type_of at_script_creation 5 3 "foo" "x = 1" None false
          EmptyString).1.2 = [(3, "foo", 0)].
Proof.
  destruct (add_event_keeps_queue ex_type_of at_script_creation 5 3 "foo" "x = 1" None
              false EmptyString) as [H0 H1].
  split; [exact H0|]. split; [exact (H1 H0)|]. vm_compute. reflexivity.
Defined.

(** X16. [edit_event] with a number that is not negative keeps the
    validation queue holding, once each, exactly the fragments that are
    not valid, whether it edits the fragment or raises. *)
Theorem edit_event_keeps_queue (self : EventHandler) (now : Z) (obj : Z)
    (event_name : string) (number : Z) (code : string) (author : option Z)
    (valid : bool) :
  0 <= number ->
  queue_tracks_invalid self ->
  queue_tracks_invalid (edit_event self now obj event_name number code author valid).2.
Proof.
  intros Hpos Hinv.
  destruct (decide ((obj, event_name, number) ∈ db_locked self)) as [Hl|Hl].
  { destruct (edit_event_raises self now obj event_name number code author valid)
      as [Hview Hq]; [by left|]. by apply (queue_tracks_same self). }
  destruct (decide (number < Z.of_nat (length (events_of self obj event_name))))
    as [Hin|Hout].
  - destruct (edit_event_stores self now obj event_name number code author valid Hl)
      as (ev & self' & Hev & -> & Hsame & Hother & _ & Hq); [lia|].
    by apply (queue_tracks_after_update self self' obj event_name number
                (edited ev now code author valid)); [lia|..].
  - destruct (edit_event_raises self now obj event_name number code author valid)
      as [Hview Hq]; [right; lia|]. by apply (queue_tracks_same self).
Qed.

(** X17. [accept_event] with a number that is not negative keeps the
    validation queue holding, once each, exactly the fragments that are
    not valid, whether it accepts the fragment or raises. *)
Theorem accept_event_keeps_queue (self : EventHandler) (obj : Z) (event_name : string)
    (number : Z) :
  0 <= number ->
  queue_tracks_invalid self ->
  queue_tracks_invalid (accept_event self obj event_name number).2.
Proof.
  intros Hpos Hinv.
  destruct (decide (number < Z.of_nat (length (events_of self obj event_name))))
    as [Hin|Hout].
  - destruct (accept_event_stores self obj event_name number)
      as (ev & self' & Hev & -> & Hsame & Hother & _ & Hq); [lia|].
    by apply (queue_tracks_after_update self self' obj event_name number (accepted ev));
      [lia|..].
  - unfold accept_event. cbv zeta.
    change (default [] (default ∅ (db_events self !! obj) !! event_name))
      with (events_of self obj event_name).
    by rewrite py_index_out_of_range by lia.
Qed.

Lemma renumber_entry_elem (obj : Z) (event_name : string) (k : Z)
    (x : Z * string * Z) (o : Z) (n : string) (j : Z) :
  (o, n, j) ∈ renumber_entry obj event_name k x <->
  if decide (o = obj /\ n = event_name)
  then (j < k /\ x = (o, n, j)) \/ (k <= j /\ x = (o, n, j + 1))
  else x = (o, n, j).
Proof.
  destruct x as [[xo xn] xj]. cbn [renumber_entry].
  repeat case_bool_decide; case_decide;
    rewrite ?list_elem_of_singleton, ?elem_of_nil;
    (split; intros Hx); destruct_and?; destruct_or?; destruct_and?; simplify_eq;
    try done; try lia;
    first [ by (left; split; [lia|f_equal; lia])
          | by (right; split; [lia|f_equal; lia])
          | (f_equal; lia)
          | (exfalso; naive_solver lia) ].
Qed.

Lemma renumbered_elem (obj : Z) (event_name : string) (k : Z)
    (to_valid : list (Z * string * Z)) (o : Z) (n : string) (j : Z) :
  (o, n, j) ∈ flat_map (renumber_entry obj event_name k) to_valid <->
  if decide (o = obj /\ n = event_name)
  then (j < k /\ (o, n, j) ∈ to_valid) \/ (k <= j /\ (o, n, j + 1) ∈ to_valid)
  else (o, n, j) ∈ to_valid.
Proof.
  induction to_valid as [|x to_valid IH].
  - cbn. case_decide as Hon; split; try (intros Hin; by apply elem_of_nil in Hin).
    intros [[_ Hin]|[_ Hin]]; by apply elem_of_nil in Hin.
  - cbn [flat_map]. rewrite elem_of_app, IH, renumber_entry_elem.
    case_decide; rewrite ?elem_of_cons; naive_solver.
Qed.

Lemma renumbered_NoDup (obj : Z) (event_name : string) (k : Z)
    (to_valid : list (Z * string * Z)) :
  NoDup to_valid -> NoDup (flat_map (renumber_entry obj event_name k) to_valid).
Proof.
  induction to_valid as [|x to_valid IH]; intros Hnd; [apply NoDup_nil_2|].
  apply NoDup_cons in Hnd as [Hx Hnd]. cbn [flat_map].
  apply NoDup_app. split; [|split; [|by apply IH]].
  - destruct x as [[xo xn] xj]. cbn [renumber_entry].
    repeat case_bool_decide; try apply NoDup_nil_2; apply NoDup_singleton.
  - intros [[o n] j] Hin Hin'.
    apply renumber_entry_elem in Hin. apply renumbered_elem in Hin'.
    case_decide; [|by subst x].
    destruct Hin as [[? ->]|[? ->]], Hin' as [[? ?]|[? ?]]; try done; lia.
Qed.

(** X18. [del_event] with a number that is not negative keeps the
    validation queue holding, once each, exactly the fragments that are
    not valid: the renumbering of the queue follows the renumbering of
    the fragments. *)
Theorem del_event_keeps_queue (self : EventHandler) (obj : Z) (event_name : string)
    (number : Z) (scripts : list Script) :
  0 <= number ->
  queue_tracks_invalid self ->
  queue_tracks_invalid (del_event self obj event_name number scripts).1.1.2.
Proof.
  intros Hpos [Hnd Hinv].
  destruct (decide ((obj, event_name, number) ∈ db_locked self)) as [Hl|Hl].
  { unfold del_event. cbv zeta. rewrite bool_decide_true by done. by split. }
  destruct (decide (number < Z.of_nat (length (events_of self obj event_name))))
    as [Hin|Hout].
  - destruct (lookup_lt_is_Some_2 (events_of self obj event_name) (Z.to_nat number))
      as [ev Hev]; [lia|].
    rewrite (del_event_deletes self obj event_name number scripts (Z.to_nat number) ev)
      by (try apply py_index_in_range; done || lia).
    cbn [fst snd].
    match goal with |- queue_tracks_invalid ?s => set (self' := s) end.
    destruct (events_of_after_delete (db_events self) obj event_name
                (delete (Z.to_nat number) (events_of self obj event_name)) self' eq_refl)
      as [Hsame Hother].
    split; [by apply renumbered_NoDup|].
    intros o n j. cbn [self' db_to_valid]. rewrite renumbered_elem.
    case_decide as Hon.
    + destruct Hon as [-> ->]. rewrite Hsame, !Hinv. split.
      * intros [[Hj (Hj0 & e & He & Hv)]|[Hj (Hj0 & e & He & Hv)]].
        -- split; [done|]. exists e. split; [|done].
           rewrite list_lookup_delete_lt by lia. done.
        -- split; [lia|]. exists e. split; [|done].
           rewrite list_lookup_delete_ge by lia.
           by replace (S (Z.to_nat j)) with (Z.to_nat (j + 1)) by lia.
      * intros (Hj0 & e & He & Hv).
        destruct (decide (j < number)) as [Hj|Hj].
        -- left. split; [done|]. split; [done|]. exists e. split; [|done].
           by rewrite list_lookup_delete_lt in He by lia.
        -- right. split; [lia|]. split; [lia|]. exists e. split; [|done].
           rewrite list_lookup_delete_ge in He by lia.
           by replace (Z.to_nat (j + 1)) with (S (Z.to_nat j)) by lia.
    + rewrite Hinv.
      assert (events_of self' o n = events_of self o n) as ->; [|done].
      apply (Hother o n). intros [= -> ->]. by apply Hon.
  - unfold del_event. cbv zeta.
    change (default [] (default ∅ (db_events self !! obj) !! event_name))
      with (events_of self obj event_name).
    rewrite bool_decide_false by done.
    rewrite py_index_out_of_range by lia. by split.
Qed.

Lemma ex_pending_tracks : queue_tracks_invalid ex_pending.
Proof.
  split; [apply (bool_decide_unpack _); vm_compute; exact I|].
  intros o n j. split.
  - intros Hin. apply list_elem_of_singleton in Hin. injection Hin as -> -> ->.
    split; [lia|]. eexists. split; [reflexivity|reflexivity].
  - intros (Hj & ev & Hev & Hv). unfold events_of in Hev. cbn in Hev.
    destruct (decide (o = 7)) as [->|Ho];
      [|rewrite lookup_singleton_ne in Hev by done; discriminate].
    rewrite lookup_singleton_eq in Hev. cbn in Hev.
    destruct (decide (n = "say")) as [->|Hn];
      [|rewrite lookup_singleton_ne in Hev by done; discriminate].
    rewrite lookup_singleton_eq in Hev. cbn in Hev.
    destruct (Z.to_nat j) as [|[|m]] eqn:Hm; cbn in Hev; try discriminate.
    + assert (j = 0) as -> by lia. apply list_elem_of_singleton. reflexivity.
    + injection Hev as <-. discriminate.
Defined.

Lemma del_event_keeps_queue_witness :
  0 <= 0
  /\ queue_tracks_invalid ex_pending
  /\ queue_tracks_invalid (del_event ex_pending 7 "say" 0 []).1.1.2
  /\ db_to_valid (del_event ex_pending 7 "say" 0 []).1.1.2 = [].
Proof.
  split; [lia|]. split; [exact ex_pending_tracks|].
  split; [exact (del_event_keeps_queue ex_pending 7 "say" 0 [] (Z.le_refl 0)
                   ex_pending_tracks)|].
  vm_compute. reflexivity.
Defined.

Lemma edit_event_keeps_queue_witness :
  0 <= 0
  /\ queue_tracks_invalid ex_pending
  /\ queue_tracks_invalid (edit_event ex_pending 9 7 "say" 0 "z = 0" None true).2
  /\ db_to_valid (edit_event ex_pending 9 7 "say" 0 "z = 0" None true).2 = [].
Proof.
  split; [lia|]. split; [exact ex_pending_tracks|].
  split; [exact (edit_event_keeps_queue ex_pending 9 7 "say" 0 "z = 0" None true
                   (Z.le_refl 0) ex_pending_tracks)|].
  vm_compute. reflexivity.
Defined.

Lemma accept_event_keeps_queue_witness :
  0 <= 0
  /\ queue_tracks_invalid ex_pending
  /\ queue_tracks_invalid (accept_event ex_pending 7 "say" 0).2
  /\ db_to_valid (accept_event ex_pending 7 "say" 0).2 = [].
Proof.
  split; [lia|]. split; [exact ex_pending_tracks|].
  split; [exact (accept_event_keeps_queue ex_pending 7 "say" 0 (Z.le_refl 0)
                   ex_pending_tracks)|].
  vm_compute. reflexivity.
Defined.

Lemma renumber_below (obj : Z) (event_name : string) (k : Z)
    (l : list (Z * string * Z)) :
  (forall j, (obj, event_name, j) ∈ l -> j < k) ->
  flat_map (renumber_entry obj event_name k) l = l
  /\ map (relock_entry obj event_name k) l = l.
Proof.
  induction l as [|[[o n] j] l IH]; intros Hbelow; [done|].
  destruct IH as [IH1 IH2]; [intros j' Hj'; apply Hbelow; set_solver|].
  cbn [flat_map map renumber_entry relock_entry]. rewrite IH1, IH2.
  case_bool_decide as Hon.
  - destruct Hon as [-> ->]. assert (j < k) by (apply Hbelow; set_solver).
    rewrite (bool_decide_false (j = k)), (bool_decide_false (k < j)) by lia.
    by rewrite bool_decide_false by naive_solver lia.
  - by rewrite bool_decide_false by naive_solver.
Qed.

(** X19. Deleting the fragment [add_event] has just added undoes the
    addition: when the validation queue tracks the fragments that are
    not valid and the lock set names existing fragments only, every list
    of fragments, the validation queue and the lock set read as before
    the addition. *)
Theorem add_then_del_restores (type_of : Z -> typeclass) (self : EventHandler)
    (now : Z) (obj : Z) (event_name : string) (code : string) (author : option Z)
    (valid : bool) (parameters : string) (scripts : list Script) :
  queue_tracks_invalid self ->
  (forall j, (obj, event_name, j) ∈ db_locked self ->
             j < Z.of_nat (length (events_of self obj event_name))) ->
  exists added self',
    added = (add_event type_of self now obj event_name code author valid parameters).1.2
    /\ del_event added obj event_name
         (Z.of_nat (length (events_of self obj event_name))) scripts =
       (Returned (), self',
        map (update_script obj event_name
               (Z.of_nat (length (events_of self obj event_name)))) scripts,
        [ELogInfoDeleting event_name
           (Z.of_nat (length (events_of self obj event_name))) obj code])
    /\ (forall o n, events_of self' o n = events_of self o n)
    /\ db_to_valid self' = db_to_valid self
    /\ db_locked self' = db_locked self.
Proof.
  intros [Hnd Hinv] Hlocks.
  destruct (add_event_stores type_of self now obj event_name code author valid parameters)
    as (added & calls & Hadd & Hsame & Hother & Hqueue & Hlocked & _).
  rewrite Hadd. cbn [fst snd].
  set (old := events_of self obj event_name) in *.
  set (new := Event now author valid code parameters None) in *.
  set (k := Z.of_nat (length old)) in *.
  assert ((obj, event_name, k) ∉ db_locked added) as Hfree.
  { rewrite Hlocked. intros Hin. apply Hlocks in Hin. lia. }
  assert (py_index (events_of added obj event_name) k = Some (length old)) as Hidx.
  { rewrite py_index_in_range; [subst k; by rewrite Nat2Z.id|].
    rewrite Hsame, length_app. cbn. lia. }
  assert (events_of added obj event_name !! length old = Some new) as Hnew
    by (rewrite Hsame; by apply list_lookup_middle).
  pose proof (del_event_deletes added obj event_name k scripts (length old) new
                Hfree Hidx Hnew) as Hdel.
  match type of Hdel with _ = (_, ?s, _, _) => set (self' := s) in * end.
  exists added, self'. split; [reflexivity|]. split; [exact Hdel|].
  destruct (events_of_after_delete (db_events added) obj event_name
              (delete (length old) (events_of added obj event_name)) self' eq_refl)
    as [Hgone Hrest].
  assert (forall j, (obj, event_name, j) ∈ db_to_valid self -> j < k) as Hbelow.
  { intros j Hin. apply Hinv in Hin as (Hj & ev & Hev & _).
    apply lookup_lt_Some in Hev. fold old in Hev. lia. }
  split; [|split].
  - intros o n. destruct (decide ((o, n) = (obj, event_name))) as [[= -> ->]|Hne].
    + rewrite Hgone, Hsame. subst new.
      by rewrite delete_middle, app_nil_r.
    + transitivity (events_of added o n); [by apply Hrest|by apply Hother].
  - cbn [self' db_to_valid]. rewrite Hqueue. destruct valid.
    + by apply renumber_below.
    + rewrite flat_map_app. rewrite (proj1 (renumber_below _ _ _ _ Hbelow)).
      cbn [flat_map renumber_entry]. rewrite !bool_decide_true by done.
      by rewrite app_nil_r.
  - cbn [self' db_locked]. rewrite Hlocked. by apply renumber_below.
Qed.

Lemma add_then_del_restores_witness :
  queue_tracks_invalid ex_pending
  /\ (forall j, (7, "say", j) ∈ db_locked ex_pending ->
                j < Z.of_nat (length (events_of ex_pending 7 "say")))
  /\ exists self',
       del_event (add_event ex_type_of ex_pending 5 7 "say" "c = 3" None false
                    EmptyString).1.2 7 "say" 2 [] =
       (Returned (), self', [], [ELogInfoDeleting "say" 2 7 "c = 3"])
       /\ events_of self' 7 "say" = events_of ex_pending 7 "say"
       /\ db_to_valid self' = db_to_valid ex_pending
       /\ db_locked self' = db_locked ex_pending.
Proof.
  assert (forall j, (7, "say", j) ∈ db_locked ex_pending ->
                    j < Z.of_nat (length (events_of ex_pending 7 "say"))) as H.
  { intros j Hin. apply list_elem_of_singleton in Hin. injection Hin as ->.
    vm_compute. reflexivity. }
  split; [exact ex_pending_tracks|]. split; [exact H|].
  destruct (add_then_del_restores ex_type_of ex_pending 5 7 "say" "c = 3" None false
              EmptyString [] ex_pending_tracks H)
    as (added & self' & -> & Hdel & Hview & Hq & Hl).
  exists self'. split; [exact Hdel|]. split; [apply Hview|]. split; [exact Hq|exact Hl].
Defined.

(** X20. A negative number that reaches a fragment counts from the end
    of the list: [del_event] removes that fragment, but it renumbers as
    if a fragment before all others had gone, moving every validation
    queue and lock set entry of [(obj, event_name)] with a number that is
    not negative down by one. *)
Theorem del_event_negative_number (self : EventHandler) (obj : Z) (event_name : string)
    (number : Z) (scripts : list Script) :
  (obj, event_name, number) ∉ db_locked self ->
  - Z.of_nat (length (events_of self obj event_name)) <= number < 0 ->
  exists ev self',
    events_of self obj event_name
      !! Z.to_nat (Z.of_nat (length (events_of self obj event_name)) + number) = Some ev
    /\ del_event self obj event_name number scripts =
       (Returned (), self', map (update_script obj event_name number) scripts,
        [ELogInfoDeleting event_name number obj (ev_code ev)])
    /\ events_of self' obj event_name =
       delete (Z.to_nat (Z.of_nat (length (events_of self obj event_name)) + number))
         (events_of self obj event_name)
    /\ db_to_valid self' = flat_map (renumber_entry obj event_name number) (db_to_valid self)
    /\ db_locked self' = map (relock_entry obj event_name number) (db_locked self)
    /\ forall j, 0 <= j ->
         renumber_entry obj event_name number (obj, event_name, j)
         = [(obj, event_name, j - 1)]
         /\ relock_entry obj event_name number (obj, event_name, j)
            = (obj, event_name, j - 1).
Proof.
  intros Hlock Hrange.
  set (k := Z.to_nat (Z.of_nat (length (events_of self obj event_name)) + number)).
  destruct (lookup_lt_is_Some_2 (events_of self obj event_name) k) as [ev Hev];
    [lia|].
  assert (py_index (events_of self obj event_name) number = Some k) as Hidx.
  { unfold py_index. rewrite bool_decide_false by lia. by rewrite bool_decide_true by lia. }
  pose proof (del_event_deletes self obj event_name number scripts k ev Hlock Hidx Hev)
    as Hdel.
  match type of Hdel with _ = (_, ?s, _, _) => set (self' := s) in * end.
  exists ev, self'. split; [exact Hev|]. split; [exact Hdel|].
  destruct (events_of_after_delete (db_events self) obj event_name
              (delete k (events_of self obj event_name)) self' eq_refl) as [Hsame _].
  split; [exact Hsame|]. split; [reflexivity|]. split; [reflexivity|].
  intros j Hj. cbn [renumber_entry relock_entry].
  rewrite (bool_decide_true (obj = obj /\ event_name = event_name)) by done.
  rewrite (bool_decide_false (j = number)) by lia.
  rewrite (bool_decide_true (number < j)) by lia.
  by rewrite bool_decide_true by (split; [done|split; [done|lia]]).
Qed.

Lemma del_event_negative_number_witness :
  ((7, "say", -1) ∉ db_locked ex_pending)
  /\ - Z.of_nat (length (events_of ex_pending 7 "say")) <= -1 < 0
  /\ exists self',
       del_event ex_pending 7 "say" (-1) [] =
       (Returned (), self', [], [ELogInfoDeleting "say" (-1) 7 "b = 2"])
       /\ events_of self' 7 "say" = [Event 0 None false "a = 1" EmptyString None]
       /\ db_to_valid self' = [(7, "say", -1)]
       /\ db_locked self' = [(7, "say", 0)].
Proof.
  assert ((7, "say", -1) ∉ db_locked ex_pending) as H1
    by (apply (bool_decide_unpack _); vm_compute; exact I).
  assert (- Z.of_nat (length (events_of ex_pending 7 "say")) <= -1 < 0) as H2
    by (vm_compute; split; [discriminate|reflexivity]).
  split; [exact H1|]. split; [exact H2|].
  destruct (del_event_negative_number ex_pending 7 "say" (-1) [] H1 H2)
    as (ev & self' & Hev & Hdel & Hsame & Hq & Hl & _).
  vm_compute in Hev. injection Hev as <-.
  exists self'. split; [exact Hdel|]. split; [exact Hsame|]. split; [exact Hq|exact Hl].
Defined.

(** * Further properties of the task scheduler *)

(** X21. Two tasks set one after the other get consecutive ids; both
    records are stored, each with its own fire time, object and event
    name and with the storable part of the current namespace, and the
    counter has moved up by two. *)
Theorem set_task_consecutive (dbserialize : pyvalue -> option string)
    (self : EventHandler) (now1 seconds1 obj1 : Z) (event_name1 : string)
    (now2 seconds2 obj2 : Z) (event_name2 : string) :
  exists first second,
    set_task dbserialize self now1 seconds1 obj1 event_name1 =
      (first, [EDelay seconds1 (db_task_id self)])
    /\ set_task dbserialize first now2 seconds2 obj2 event_name2 =
       (second, [EDelay seconds2 (db_task_id self + 1)])
    /\ db_tasks second !! db_task_id self =
       Some (now1 + seconds1, obj1, event_name1,
             freeze_locals dbserialize (ndb_current_locals self))
    /\ db_tasks second !! (db_task_id self + 1) =
       Some (now2 + seconds2, obj2, event_name2,
             freeze_locals dbserialize (ndb_current_locals self))
    /\ db_task_id second = db_task_id self + 2.
Proof.
  eexists _, _. split; [reflexivity|]. split; [reflexivity|].
  cbn [db_tasks db_task_id set_db_tasks set_db_task_id ndb_current_locals].
  split; [|split].
  - rewrite lookup_insert_ne by lia. by rewrite lookup_insert_eq.
  - by rewrite lookup_insert_eq.
  - lia.
Qed.

(** [complete_task] on a handler it finds: the tasks and the counter it
    leaves. *)
Lemma complete_task_result (type_of : Z -> typeclass)
    (exec_code : string -> gmap string pyvalue -> exec_result)
    (script : EventHandler) (task_id : Z) :
  exists script' effects,
    complete_task type_of exec_code (Some script) task_id = (Some script', effects)
    /\ db_tasks script' = delete task_id (db_tasks script)
    /\ db_task_id script' = db_task_id script.
Proof.
  unfold complete_task.
  destruct (db_tasks script !! task_id) as [[[[future obj] event_name] locals]|] eqn:Htask.
  - unfold call_event. rewrite call_event_prepare_locals.
    destruct (run_events _ _ _ _ _ _) as [[completed locals'] effects].
    eexists _, _. split; [reflexivity|]. by split.
  - eexists _, _. split; [reflexivity|]. split; [by rewrite delete_id|done].
Qed.

(** X24. Stored task ids stay below the counter: this holds when the
    handler is created, and [at_start] and [complete_task] keep it, so
    that with [set_task] no id is ever given twice. *)
Theorem tasks_stay_below_counter (type_of : Z -> typeclass)
    (exec_code : string -> gmap string pyvalue -> exec_result)
    (self : EventHandler) (now : Z) (connected : gmap string (gmap string etype))
    (helpers : list (gmap string pyvalue)) (task_id : Z) :
  tasks_below_counter at_script_creation
  /\ (tasks_below_counter self ->
      tasks_below_counter (at_start self now connected helpers).1)
  /\ (tasks_below_counter self ->
      forall script',
        (complete_task type_of exec_code (Some self) task_id).1 = Some script' ->
        tasks_below_counter script').
Proof.
  split; [|split].
  - intros id [x Hx]. cbn in Hx. by rewrite lookup_empty in Hx.
  - intros Hbelow. exact Hbelow.
  - intros Hbelow script' Hdone.
    destruct (complete_task_result type_of exec_code self task_id)
      as (s & effects & Hc & Htasks & Hid).
    rewrite Hc in Hdone. cbn in Hdone. injection Hdone as <-.
    intros id [x Hx]. rewrite Htasks in Hx. rewrite Hid.
    apply lookup_delete_Some in Hx as [_ Hx]. apply Hbelow. eauto.
Qed.

Lemma merge_helpers_none (key : string) (helpers : list (gmap string pyvalue)) :
  forall fresh : gmap string pyvalue,
    (forall m, m ∈ helpers -> m !! key = None) ->
    foldl (fun fresh module => module ∪ fresh) fresh helpers !! key = fresh !! key.
Proof.
  induction helpers as [|m helpers IH]; intros fresh Hnone; [reflexivity|].
  cbn [foldl]. rewrite IH by (intros m' Hm'; apply Hnone; set_solver).
  rewrite lookup_union_r; [done|]. apply Hnone. set_solver.
Qed.

Lemma merge_helpers_last (key : string) (value : pyvalue)
    (helpers : list (gmap string pyvalue)) :
  forall (fresh : gmap string pyvalue) (i : nat) (m : gmap string pyvalue),
    helpers !! i = Some m ->
    m !! key = Some value ->
    (forall j m', (i < j)%nat -> helpers !! j = Some m' -> m' !! key = None) ->
    foldl (fun fresh module => module ∪ fresh) fresh helpers !! key = Some value.
Proof.
  induction helpers as [|m0 helpers IH]; intros fresh i m Hi Hm Hlater; [done|].
  cbn [foldl]. destruct i as [|i].
  - cbn in Hi. injection Hi as ->.
    rewrite merge_helpers_none.
    + by apply lookup_union_Some_l.
    + intros m' Hm'. apply list_elem_of_lookup in Hm' as [j Hj].
      apply (Hlater (S j) m'); [lia|done].
  - apply (IH _ i m); [done|done|].
    intros j m' Hj Hm'. apply (Hlater (S j) m'); [lia|done].
Qed.

(** X25. [at_start] leaves the stored data alone, takes the event
    types [connect_event_types] registers, empties the current namespace,
    so that [get_variable] finds nothing, and merges the helper modules
    into [fresh_locals] in the order of their addresses: for a name
    defined by several modules the last one counts, and a name no module
    defines is absent. *)
Theorem at_start_resets_namespaces (self : EventHandler) (now : Z)
    (connected : gmap string (gmap string etype))
    (helpers : list (gmap string pyvalue)) :
  exists self' effects,
    at_start self now connected helpers = (self', effects)
    /\ db_events self' = db_events self
    /\ db_to_valid self' = db_to_valid self
    /\ db_locked self' = db_locked self
    /\ db_task_id self' = db_task_id self
    /\ ndb_event_types self' = connected
    /\ (forall variable_name, get_variable self' variable_name = PyNone)
    /\ (forall i m key value,
          helpers !! i = Some m ->
          m !! key = Some value ->
          (forall j m', (i < j)%nat -> helpers !! j = Some m' -> m' !! key = None) ->
          ndb_fresh_locals self' !! key = Some value)
    /\ (forall key,
          (forall m, m ∈ helpers -> m !! key = None) ->
          ndb_fresh_locals self' !! key = None).
Proof.
  eexists _, _. split; [reflexivity|]. cbn [db_events db_to_valid db_locked db_task_id
    ndb_event_types ndb_fresh_locals].
  do 5 (split; [reflexivity|]).
  split; [intros v; unfold get_variable; cbn [ndb_current_locals]; apply eq_refl|].
  split.
  - intros i m key value Hi Hm Hlater. by apply (merge_helpers_last key value helpers ∅ i m).
  - intros key Hnone. rewrite merge_helpers_none by done. apply lookup_empty.
Qed.

(** * The time script *)

(** X26. A time script with a time format whose usual interval is not
    known yet settles in two firings: the first takes the wait until the
    next occurrence as interval and remembers the usual interval, the
    second takes the usual interval, and from the third on the script no
    longer restarts itself.  Each firing asks for the same event. *)
Theorem at_repeat_settles (get_next_wait : string -> Z * Z * string) (obj_events : bool)
    (self : TimeEventScript) (time_format : string) (seconds usual : Z)
    (details : string) :
  ts_time_format self = Some time_format ->
  str_truthy time_format = true ->
  ts_usual self = None ->
  get_next_wait time_format = (seconds, usual, details) ->
  exists first second,
    (at_repeat get_next_wait obj_events self).1.1 = first
    /\ ts_interval first = seconds
    /\ ts_usual first = Some usual
    /\ (at_repeat get_next_wait obj_events first).1.1 = second
    /\ ts_interval second = usual
    /\ at_repeat get_next_wait obj_events second =
       (second, false, (at_repeat get_next_wait obj_events self).2)
    /\ (at_repeat get_next_wait obj_events first).2 =
       (at_repeat get_next_wait obj_events self).2.
Proof.
  intros Hformat Htruthy Husual Hwait.
  destruct self as [interval format event_name number cached]. cbn in *. subst.
  set (call := match event_name, number with
               | Some event_name, Some number =>
                   if str_truthy event_name && obj_events
                   then Some (event_name, number) else None
               | _, _ => None
               end).
  assert (at_repeat get_next_wait obj_events
            (MkTimeEventScript interval (Some time_format) event_name number None)
          = (MkTimeEventScript seconds (Some time_format) event_name number (Some usual),
             negb (bool_decide (interval = seconds)), call)) as Hfirst.
  { unfold at_repeat. cbn. rewrite Htruthy, Hwait. cbn.
    destruct (decide (interval = seconds)) as [->|Hi].
    - rewrite bool_decide_false by (intros Hne; by apply Hne).
      rewrite bool_decide_true by done. reflexivity.
    - rewrite bool_decide_true by done. rewrite bool_decide_false by done.
      reflexivity. }
  assert (forall i,
            at_repeat get_next_wait obj_events
              (MkTimeEventScript i (Some time_format) event_name number (Some usual))
            = (MkTimeEventScript usual (Some time_format) event_name number (Some usual),
               negb (bool_decide (i = usual)), call)) as Hnext.
  { intros i. unfold at_repeat. cbn. rewrite Htruthy. cbn.
    destruct (decide (i = usual)) as [->|Hi].
    - rewrite bool_decide_false by (intros Hne; by apply Hne).
      rewrite bool_decide_true by done. reflexivity.
    - rewrite bool_decide_true by done. rewrite bool_decide_false by done.
      reflexivity. }
  exists (MkTimeEventScript seconds (Some time_format) event_name number (Some usual)),
    (MkTimeEventScript usual (Some time_format) event_name number (Some usual)).
  rewrite Hfirst, !Hnext. cbn [fst snd ts_interval ts_usual].
  rewrite bool_decide_true by done. by repeat split.
Qed.

Lemma at_repeat_settles_witness :
  let self := MkTimeEventScript 300 (Some "12:00") (Some "time") (Some 0) None in
  ts_time_format self = Some "12:00"
  /\ str_truthy "12:00" = true
  /\ ts_usual self = None
  /\ ex_next_wait "12:00" = (40, 60, "12:00")
  /\ exists first second,
       at_repeat ex_next_wait true self = (first, true, Some ("time", 0))
       /\ ts_interval first = 40
       /\ at_repeat ex_next_wait true first = (second, true, Some ("time", 0))
       /\ ts_interval second = 60
       /\ at_repeat ex_next_wait true second = (second, false, Some ("time", 0)).
Proof.
  intros self.
  do 4 (split; [reflexivity|]).
  destruct (at_repeat_settles ex_next_wait true self "12:00" 40 60 "12:00"
              eq_refl eq_refl eq_refl eq_refl)
    as (first & second & H1 & H2 & _ & H3 & H4 & H5 & _).
  exists first, second.
  vm_compute in H1. subst first. vm_compute in H3. subst second.
  repeat split; vm_compute; reflexivity.
Defined.

(** * Fragments that reach the handler or leave the loop *)

Section Reached.

Variable type_of : Z -> typeclass.
Variable exec_on : string -> gmap string pyvalue -> EventHandler -> fragment_run.



(** ** What is left of the handler when fragments only schedule tasks *)

Lemma tasks_kept_refl (self : EventHandler) : tasks_kept self self.
Proof. unfold tasks_kept. repeat (split; [done|]). done. Qed.

Lemma tasks_kept_trans (first second third : EventHandler) :
  tasks_kept first second -> tasks_kept second third -> tasks_kept first third.
Proof.
  intros (He1 & Hv1 & Hl1 & Hc1 & Ht1 & Hb1) (He2 & Hv2 & Hl2 & Hc2 & Ht2 & Hb2).
  split; [congruence|]. split; [congruence|]. split; [congruence|].
  split; [lia|]. split; [|tauto].
  intros task_id Hid. rewrite Ht2 by lia. by apply Ht1.
Qed.

Lemma tasks_kept_namespace (self : EventHandler) (locals : gmap string pyvalue) :
  tasks_kept self (set_ndb_current_locals locals self).
Proof. unfold tasks_kept. cbn. repeat (split; [done|]). done. Qed.

Lemma tasks_kept_set_task (dbserialize : pyvalue -> option string)
    (self : EventHandler) (now seconds obj : Z) (event_name : string) :
  tasks_kept self (set_task dbserialize self now seconds obj event_name).1.
Proof.
  unfold tasks_kept.
  cbn [set_task store_task fst db_events db_to_valid db_locked db_tasks db_task_id
       set_db_tasks set_db_task_id].
  split; [done|]. split; [done|]. split; [done|]. split; [lia|]. split.
  - intros task_id Hid. by rewrite lookup_insert_ne by lia.
  - intros Hbelow task_id.
    cbn [db_tasks db_task_id set_db_tasks set_db_task_id].
    destruct (decide (task_id = db_task_id self)) as [->|Hne]; [lia|].
    rewrite lookup_insert_ne by done. intros H. apply Hbelow in H. lia.
Qed.

Lemma only_schedules_tasks_kept (dbserialize : pyvalue -> option string)
    (before after : EventHandler) :
  only_schedules dbserialize before after -> tasks_kept before after.
Proof.
  induction 1 as [self|before after locals _ IH|before after now seconds obj event_name _ IH].
  - apply tasks_kept_refl.
  - exact (tasks_kept_trans _ _ _ IH (tasks_kept_namespace _ _)).
  - exact (tasks_kept_trans _ _ _ IH (tasks_kept_set_task _ _ _ _ _ _)).
Qed.

Hypothesis fragments_keep :
  forall code locals reached, tasks_kept reached (run_handler (exec_on code locals reached)).

Lemma run_events_on_tasks_kept (obj : Z) (event_name : string) (events : list event_def) :
  forall number locals self,
    tasks_kept self (run_events_on exec_on obj event_name events number locals self).1.2.
Proof.
  induction events as [|e events IH]; intros number locals self; cbn [run_events_on].
  - apply tasks_kept_refl.
  - destruct (negb (ev_valid (ed_event e))); [apply IH|].
    destruct (negb (py_is_none number) && py_int_ne (ed_number e) number); [apply IH|].
    cbv zeta.
    pose proof (fragments_keep (ev_code (ed_event e)) locals self) as Hstep.
    destruct (run_end (exec_on (ev_code (ed_event e)) locals self)) as [| |evalue trace|x].
    + pose proof (IH number (run_locals (exec_on (ev_code (ed_event e)) locals self))
                    (run_handler (exec_on (ev_code (ed_event e)) locals self))) as Hrest.
      destruct (run_events_on exec_on obj event_name events number _ _)
        as [[[r l1] s1] effects1].
      exact (tasks_kept_trans _ _ _ Hstep Hrest).
    + exact Hstep.
    + destruct (locate_error _ _ _ _) as [lineno line].
      pose proof (IH (PyInt (ed_number e))
                    (run_locals (exec_on (ev_code (ed_event e)) locals self))
                    (run_handler (exec_on (ev_code (ed_event e)) locals self))) as Hrest.
      destruct (run_events_on exec_on obj event_name events _ _ _)
        as [[[r l1] s1] effects1].
      exact (tasks_kept_trans _ _ _ Hstep Hrest).
    + exact Hstep.
Qed.

Lemma call_event_on_tasks_kept (self : EventHandler) (obj : Z) (event_name : string)
    (args : list pyvalue) (kwargs : gmap string pyvalue) :
  tasks_kept self (call_event_on type_of exec_on self obj event_name args kwargs).1.2.
Proof.
  unfold call_event_on.
  destruct (call_event_prepare type_of self obj event_name args kwargs)
    as [[[completed|e] effects]|[[events number] locals]].
  - apply tasks_kept_refl.
  - apply tasks_kept_refl.
  - pose proof (run_events_on_tasks_kept obj event_name events number locals
                  (set_ndb_current_locals locals self)) as Hloop.
    destruct (run_events_on exec_on obj event_name events number locals _)
      as [[[r l1] s1] effects1].
    exact (tasks_kept_trans _ _ _ (tasks_kept_namespace _ _) Hloop).
Qed.

End Reached.

(** X22. When fragments reach the handler only to schedule tasks and
    the stored ids are below the counter, [complete_task] removes the
    record of its task id and leaves every other slot below the counter
    as it was, so that every other task that was stored is kept; the
    fragments, the validation queue and the lock set are as
    before, the counter has not gone down and the stored ids are still
    below it.  For an id that is not stored the handler is returned as it
    is with the miss logged. *)
Theorem complete_task_on_keeps_other_tasks (type_of : Z -> typeclass)
    (exec_on : string -> gmap string pyvalue -> EventHandler -> fragment_run)
    (dbserialize : pyvalue -> option string)
    (script : EventHandler) (task_id : Z) :
  tasks_below_counter script ->
  (forall code locals reached,
     only_schedules dbserialize reached (run_handler (exec_on code locals reached))) ->
  exists result script' effects,
    complete_task_on type_of exec_on (Some script) task_id = (result, Some script', effects)
    /\ db_tasks script' !! task_id = None
    /\ (forall other,
          other <> task_id -> other < db_task_id script ->
          db_tasks script' !! other = db_tasks script !! other)
    /\ db_task_id script <= db_task_id script'
    /\ db_events script' = db_events script
    /\ db_to_valid script' = db_to_valid script
    /\ db_locked script' = db_locked script
    /\ tasks_below_counter script'
    /\ (db_tasks script !! task_id = None ->
        script' = script /\ effects = [ELogErrTaskNotFound task_id]).
Proof.
  intros Hbelow Hfragments. unfold complete_task_on.
  destruct (db_tasks script !! task_id) as [[[[future obj] event_name] locals]|] eqn:Htask.
  - assert (task_id < db_task_id script) as Hid by (apply Hbelow; eauto).
    set (popped := set_db_tasks (delete task_id (db_tasks script)) script).
    assert (tasks_below_counter popped) as Hpopped.
    { intros id [x Hx]. cbn in Hx. apply lookup_delete_Some in Hx as [_ Hx].
      apply Hbelow. eauto. }
    pose proof (call_event_on_tasks_kept type_of exec_on
                  (fun code l reached =>
                     only_schedules_tasks_kept dbserialize _ _ (Hfragments code l reached))
                  popped obj event_name [] {[ "locals" := PyDict locals ]}) as Hkept.
    destruct (call_event_on type_of exec_on popped obj event_name [] _)
      as [[result script'] effects].
    destruct Hkept as (He & Hv & Hl & Hc & Ht & Hb). cbn in He, Hv, Hl, Hc, Ht, Hb.
    exists (Some result), script', effects. split; [reflexivity|].
    split; [rewrite Ht by done; apply lookup_delete_eq|].
    split; [by intros other Hne Hlt; rewrite Ht by done; rewrite lookup_delete_ne|].
    split; [done|]. split; [done|]. split; [done|]. split; [done|].
    split; [by apply Hb|discriminate].
  - exists None, script, [ELogErrTaskNotFound task_id]. split; [reflexivity|].
    split; [done|]. split; [done|].
    split; [lia|]. split; [done|]. split; [done|]. split; [done|]. split; [done|].
    done.
Qed.

(** X23. Setting a task and completing it, when fragments reach the
    handler only to schedule tasks and the stored ids are below the
    counter: [complete_task] on the id [set_task] armed finds the record
    and dispatches the event once, on the handler as it was before
    [set_task] but for the counter, from the storable part of the
    namespace [set_task] saw.  Afterwards the id is free again, every
    slot below it is as it was before [set_task], so that every task
    stored then is still stored, and the counter is above the id. *)
Theorem set_task_then_complete_on (type_of : Z -> typeclass)
    (exec_on : string -> gmap string pyvalue -> EventHandler -> fragment_run)
    (dbserialize : pyvalue -> option string)
    (self : EventHandler) (now seconds obj : Z) (event_name : string) :
  tasks_below_counter self ->
  (forall code locals reached,
     only_schedules dbserialize reached (run_handler (exec_on code locals reached))) ->
  exists armed result finished effects,
    set_task dbserialize self now seconds obj event_name =
      (armed, [EDelay seconds (db_task_id self)])
    /\ call_event_on type_of exec_on (set_db_task_id (db_task_id self + 1) self)
         obj event_name []
         {[ "locals" := PyDict (freeze_locals dbserialize (ndb_current_locals self)) ]}
       = (result, finished, effects)
    /\ complete_task_on type_of exec_on (Some armed) (db_task_id self) =
       (Some result, Some finished, effects)
    /\ db_tasks finished !! db_task_id self = None
    /\ (forall task_id,
          task_id < db_task_id self ->
          db_tasks finished !! task_id = db_tasks self !! task_id)
    /\ db_task_id self + 1 <= db_task_id finished
    /\ tasks_below_counter finished.
Proof.
  intros Hbelow Hfragments.
  assert (db_tasks self !! db_task_id self = None) as Hfresh.
  { destruct (db_tasks self !! db_task_id self) eqn:Hid; [|done].
    assert (db_task_id self < db_task_id self) by (apply Hbelow; eauto). lia. }
  set (popped := set_db_task_id (db_task_id self + 1) self).
  assert (tasks_below_counter popped) as Hpopped.
  { intros id Hid. cbn. apply Hbelow in Hid. lia. }
  pose proof (call_event_on_tasks_kept type_of exec_on
                (fun code l reached =>
                   only_schedules_tasks_kept dbserialize _ _ (Hfragments code l reached))
                popped obj event_name []
                {[ "locals" := PyDict (freeze_locals dbserialize (ndb_current_locals self)) ]})
    as Hkept.
  destruct (call_event_on type_of exec_on popped obj event_name [] _)
    as [[result finished] effects] eqn:Hcall.
  destruct Hkept as (_ & _ & _ & Hc & Ht & Hb). cbn in Hc, Ht, Hb.
  eexists _, result, finished, effects.
  split; [reflexivity|]. split; [reflexivity|].
  split.
  { unfold complete_task_on.
    cbn [set_task store_task fst db_tasks db_task_id set_db_tasks set_db_task_id
         ndb_current_locals].
    rewrite lookup_insert_eq.
    assert (set_db_tasks
              (delete (db_task_id self)
                 (<[db_task_id self :=
                      (now + seconds, obj, event_name,
                       freeze_locals dbserialize (ndb_current_locals self))]>
                    (db_tasks self)))
              (set_db_tasks
                 (<[db_task_id self :=
                      (now + seconds, obj, event_name,
                       freeze_locals dbserialize (ndb_current_locals self))]>
                    (db_tasks self))
                 (set_db_task_id (db_task_id self + 1) self)) = popped) as ->.
    { unfold popped, set_db_tasks, set_db_task_id. cbn.
      by rewrite delete_insert_eq, delete_id. }
    by rewrite Hcall. }
  split; [rewrite Ht by lia; exact Hfresh|].
  split; [by intros task_id Hlt; rewrite Ht by lia|].
  split; [lia|]. by apply Hb.
Qed.

(** The stand-in [ex_exec_on] reaches the handler only to schedule. *)
Lemma ex_exec_on_only_schedules (code : string) (locals : gmap string pyvalue)
    (reached : EventHandler) :
  only_schedules ex_dbserialize reached (run_handler (ex_exec_on code locals reached)).
Proof.
  unfold ex_exec_on.
  destruct (bool_decide (code = "call(obj, 'foo', 20)")).
  - cbn [run_handler]. apply schedules_task, schedules_namespace, schedules_nothing.
  - destruct (bool_decide (code = "raise SystemExit()")).
    + cbn [run_handler]. apply schedules_namespace, schedules_nothing.
    + unfold keeps_to_namespace.
      destruct (ex_exec code locals); cbn [run_handler];
        apply schedules_namespace, schedules_nothing.
Defined.


Lemma complete_task_on_keeps_other_tasks_witness :
  let script :=
    set_db_tasks (<[0 := (10, 3, "foo", ex_bound_locals)]> {[ 1 := (40, 7, "say", ∅) ]})
      (set_db_task_id 2 (ex_dispatch ["call(obj, 'foo', 20)"])) in
  tasks_below_counter script
  /\ exists script',
       complete_task_on ex_type_of ex_exec_on (Some script) 0 =
       (Some (DispatchReturned true), Some script',
        [EExec 3 "foo" 0 "call(obj, 'foo', 20)"])
       /\ db_tasks script' !! 0 = None
       /\ db_tasks script' !! 1 = Some (40, 7, "say", ∅)
       /\ db_tasks script' !! 2 =
          Some (5000 + seconds_us 20, 3, "foo",
                {[ "character" := PyObject 9; "room" := PyObject 4 ]})
       /\ db_task_id script' = 3.
Proof.
  intros script.
  assert (tasks_below_counter script) as H1.
  { intros task_id [x Hx]. cbn in Hx.
    apply lookup_insert_Some in Hx as [[<- _]|[_ Hx]]; [done|].
    apply lookup_singleton_Some in Hx as [<- _]. done. }
  split; [exact H1|].
  destruct (complete_task_on_keeps_other_tasks ex_type_of ex_exec_on ex_dbserialize
              script 0 H1 ex_exec_on_only_schedules)
    as (result & script' & effects & Hdone & Hgone & Hothers & _).
  exists script'.
  assert (db_tasks script' !! 1 = Some (40, 7, "say", ∅)) as Hkept
    by (rewrite Hothers by done; vm_compute; reflexivity).
  vm_compute in Hdone. injection Hdone as <- <- <-.
  split; [reflexivity|]. split; [exact Hgone|]. split; [exact Hkept|].
  split; vm_compute; reflexivity.
Defined.

Lemma set_task_then_complete_on_witness :
  let self :=
    set_ndb_current_locals
      {[ "character" := PyObject 9; "helper" := PyCallable "helper" ]}
      (ex_dispatch ["call(obj, 'foo', 20)"]) in
  tasks_below_counter self
  /\ exists armed finished,
       set_task ex_dbserialize self 1000 (seconds_us 10) 3 "foo" =
         (armed, [EDelay (seconds_us 10) 0])
       /\ complete_task_on ex_type_of ex_exec_on (Some armed) 0 =
          (Some (DispatchReturned true), Some finished,
           [EExec 3 "foo" 0 "call(obj, 'foo', 20)"])
       /\ db_tasks finished !! 0 = None
       /\ db_tasks finished !! 1 =
          Some (5000 + seconds_us 20, 3, "foo", {[ "character" := PyObject 9 ]})
       /\ db_task_id finished = 2.
Proof.
  intros self.
  assert (tasks_below_counter self) as H.
  { intros task_id [x Hx]. vm_compute in Hx. destruct task_id; discriminate. }
  split; [exact H|].
  destruct (set_task_then_complete_on ex_type_of ex_exec_on ex_dbserialize self 1000
              (seconds_us 10) 3 "foo" H ex_exec_on_only_schedules)
    as (armed & result & finished & effects & Hset & Hcall & Hdone & Hgone & _).
  exists armed, finished. split; [exact Hset|].
  vm_compute in Hcall. injection Hcall as <- <- <-.
  split; [exact Hdone|]. split; [exact Hgone|].
  split; vm_compute; reflexivity.
Defined.

(** ** The two loops agree on fragments that keep to their namespace *)

Lemma run_events_on_keeps_to_namespace
    (exec_code : string -> gmap string pyvalue -> exec_result)
    (obj : Z) (event_name : string) (events : list event_def) :
  forall number locals self,
    run_events_on (keeps_to_namespace exec_code) obj event_name events number locals
      (set_ndb_current_locals locals self) =
    let '(completed, locals', effects) :=
      run_events exec_code obj event_name events number locals in
    (inl completed, locals', set_ndb_current_locals locals' self, effects).
Proof.
  induction events as [|e events IH]; intros number locals self;
    cbn [run_events_on run_events]; [reflexivity|].
  destruct (negb (ev_valid (ed_event e))); [apply IH|].
  destruct (negb (py_is_none number) && py_int_ne (ed_number e) number); [apply IH|].
  cbv zeta.
  remember (keeps_to_namespace exec_code (ev_code (ed_event e)) locals
              (set_ndb_current_locals locals self)) as run eqn:Hrun.
  unfold keeps_to_namespace in Hrun.
  destruct (exec_code (ev_code (ed_event e)) locals) as [l1|l1|l1 evalue trace];
    subst run; cbn [run_end run_locals run_handler].
  - change (set_ndb_current_locals l1 (set_ndb_current_locals locals self))
      with (set_ndb_current_locals l1 self).
    rewrite IH. by destruct (run_events _ _ _ _ _ _) as [[c l2] effects].
  - reflexivity.
  - destruct (locate_error _ _ _ _) as [lineno line].
    change (set_ndb_current_locals l1 (set_ndb_current_locals locals self))
      with (set_ndb_current_locals l1 self).
    rewrite IH. by destruct (run_events _ _ _ _ _ _) as [[c l2] effects].
Qed.

(** On an interpreter that keeps to its namespace and raises nothing but
    [Exception]s, [call_event_on] is [call_event]. *)
Lemma call_event_on_keeps_to_namespace (type_of : Z -> typeclass)
    (exec_code : string -> gmap string pyvalue -> exec_result)
    (self : EventHandler) (obj : Z) (event_name : string)
    (args : list pyvalue) (kwargs : gmap string pyvalue) :
  call_event_on type_of (keeps_to_namespace exec_code) self obj event_name args kwargs =
  let '(result, self', effects) :=
    call_event type_of exec_code self obj event_name args kwargs in
  (match result with
   | Returned completed => DispatchReturned completed
   | Raised e => DispatchRaised e
   end, self', effects).
Proof.
  unfold call_event_on, call_event.
  destruct (call_event_prepare type_of self obj event_name args kwargs)
    as [[[completed|e] effects]|[[events number] locals]]; [reflexivity..|].
  rewrite run_events_on_keeps_to_namespace.
  by destruct (run_events _ _ _ _ _ _) as [[c l2] effects].
Qed.

(** And [complete_task_on] is [complete_task]. *)
Lemma complete_task_on_keeps_to_namespace (type_of : Z -> typeclass)
    (exec_code : string -> gmap string pyvalue -> exec_result)
    (script : option EventHandler) (task_id : Z) :
  let '(result, script', effects) :=
    complete_task_on type_of (keeps_to_namespace exec_code) script task_id in
  (script', effects) = complete_task type_of exec_code script task_id.
Proof.
  unfold complete_task_on, complete_task.
  destruct script as [script|]; [|reflexivity].
  destruct (db_tasks script !! task_id) as [[[[future obj] event_name] locals]|];
    [|reflexivity].
  rewrite call_event_on_keeps_to_namespace.
  by destruct (call_event _ _ _ _ _ _ _) as [[result script'] effects].
Qed.
